(** * Typix VLLM benchmark tool: statistics engine, request executor,
      concurrency limiter and ramp summary of [benchmark.py]

    The development embeds the functions of [typix-benchmark/benchmark.py]
    and proves the properties its specification states about them, and
    further properties of the code: of the single-request test, the tables
    [print_results] and [run_ramp_test] print, the measured latency and the
    options of [main].

    Latencies are Python floats, that is IEEE-754 binary64 numbers; they are
    modelled by [spec_float] of the standard library at precision 53 and
    maximal exponent 1024, with its correctly rounded operations.  Python
    exceptions are results of an error monad. *)

From Stdlib Require Import ZArith List Lia Bool String Ascii.
From Stdlib Require Import Permutation Sorted.
From Stdlib Require Import Floats.SpecFloat.
From Stdlib Require Import DecimalString.
Import ListNotations.
Open Scope Z_scope.

(** ** Binary64 floating-point numbers *)

Module B64.

Definition prec : Z := 53.
Definition emax : Z := 1024.

Definition float : Type := spec_float.

Definition fadd : float -> float -> float := SFadd prec emax.
Definition fsub : float -> float -> float := SFsub prec emax.
Definition fmul : float -> float -> float := SFmul prec emax.
Definition fdiv : float -> float -> float := SFdiv prec emax.
Definition fabs : float -> float := SFabs.
Definition fltb : float -> float -> bool := SFltb.
Definition fleb : float -> float -> bool := SFleb.
Definition feqb : float -> float -> bool := SFeqb.

(** [float(n)] for a Python integer [n]. *)
Definition of_int (n : Z) : float := binary_normalize prec emax n 0 false.

Definition pzero : float := S754_zero false.

Definition is_zero (x : float) : bool :=
  match x with S754_zero _ => true | _ => false end.

Definition is_finite (x : float) : bool :=
  match x with S754_zero _ | S754_finite _ _ _ => true | _ => false end.

(** The float literals of the source: [0.50], [0.95] and [0.99] are the
    doubles nearest to the decimal fractions. *)
Definition c050 : float := S754_finite false 4503599627370496 (-53).
Definition c095 : float := S754_finite false 8556839292003942 (-53).
Definition c099 : float := S754_finite false 8917127262193582 (-53).

(** A well-formed latency: a finite, non-negative, canonical binary64. *)
Definition wf (x : float) : bool :=
  match x with
  | S754_zero false => true
  | S754_finite false m e => bounded prec emax m e
  | _ => false
  end.

(** The value of a finite float in units of [2^-1074], the smallest
    positive binary64; every finite binary64 is an integer number of them. *)
Definition scaled (x : float) : Z :=
  match x with
  | S754_finite s m e => cond_Zopp s (Zpos m * 2 ^ (e + 1074))
  | _ => 0
  end.

(** Bookkeeping of the rounding algorithm of [SpecFloat]. *)
Definition inexact (mrs : shr_record) : bool := shr_r mrs || shr_s mrs.

Definition shr_rel (k : Z) (x y : shr_record) : Prop :=
  0 <= shr_m y /\ shr_m y = shr_m x / 2 ^ k /\
  (inexact y = false <-> inexact x = false /\ shr_m x = 2 ^ k * shr_m y).

Definition loc_excess (l : location) : Z :=
  match l with loc_Exact => 0 | loc_Inexact _ => 1 end.

End B64.

Import B64.

(** ** The Python runtime the source relies on *)

Module Py.

Inductive exc_class :=
  | ZeroDivisionError | IndexError | ValueError | OverflowError
  | TypeError | KeyError | StatisticsError
  | TimeoutException | NetworkError | ProtocolError | OtherException
  | CancelledError | KeyboardInterrupt.

(** [except Exception] catches the subclasses of [Exception];
    [asyncio.CancelledError] and [KeyboardInterrupt] derive from
    [BaseException] only. *)
Definition is_Exception (c : exc_class) : bool :=
  match c with
  | CancelledError | KeyboardInterrupt => false
  | _ => true
  end.

Inductive outcome (A : Type) : Type :=
  | Return (a : A)
  | Raise (c : exc_class).
Arguments Return {A} a.
Arguments Raise {A} c.

Definition bind {A B : Type} (m : outcome A) (f : A -> outcome B) : outcome B :=
  match m with
  | Return a => f a
  | Raise c => Raise c
  end.

Notation "x <- m ;; k" := (bind m (fun x => k))
  (at level 61, m at next level, right associativity).

Definition len {A : Type} (l : list A) : Z := Z.of_nat (List.length l).

(** [l[i]] with Python's negative indices. *)
Definition getitem {A : Type} (l : list A) (i : Z) : outcome A :=
  let j := if i <? 0 then i + len l else i in
  if (j <? 0) || (len l <=? j) then Raise IndexError
  else match nth_error l (Z.to_nat j) with
       | Some x => Return x
       | None => Raise IndexError
       end.

(** [int(x)] of a float: truncation towards zero. *)
Definition int_of_float (x : float) : outcome Z :=
  match x with
  | S754_zero _ => Return 0
  | S754_finite s m e =>
      let a := match e with
               | Zneg p => Z.shiftr (Zpos m) (Zpos p)
               | _ => Z.shiftl (Zpos m) e
               end in
      Return (cond_Zopp s a)
  | S754_infinity _ => Raise OverflowError
  | S754_nan => Raise ValueError
  end.

(** [x / y] on floats raises on a zero divisor. *)
Definition truediv (x y : float) : outcome float :=
  if is_zero y then Raise ZeroDivisionError else Return (fdiv x y).

(** [sorted(l)]: a stable sort that compares with [<] only. *)
Fixpoint insert (x : float) (l : list float) : list float :=
  match l with
  | [] => [x]
  | y :: l' => if fltb y x then y :: insert x l' else x :: l
  end.

Definition sorted (l : list float) : list float := fold_right insert [] l.

(** [min(l)] and [max(l)]: the first smallest, the first largest. *)
Definition py_min (l : list float) : outcome float :=
  match l with
  | [] => Raise ValueError
  | x :: l' => Return (fold_left (fun m y => if fltb y m then y else m) l' x)
  end.

Definition py_max (l : list float) : outcome float :=
  match l with
  | [] => Raise ValueError
  | x :: l' => Return (fold_left (fun m y => if fltb m y then y else m) l' x)
  end.

(** [sum(l)] over floats.  CPython adds from left to right; since 3.12 it
    carries Neumaier's compensation term along. *)
Inductive sum_algorithm := PlainSum | NeumaierSum.

Definition neumaier_step (st : float * float) (x : float) : float * float :=
  let '(f, c) := st in
  let t := fadd f x in
  let c' := if fleb (fabs x) (fabs f)
            then fadd c (fadd (fsub f t) x)
            else fadd c (fadd (fsub x t) f) in
  (t, c').

Definition py_sum (alg : sum_algorithm) (l : list float) : float :=
  match alg with
  | PlainSum => fold_left fadd l pzero
  | NeumaierSum =>
      let '(f, c) := fold_left neumaier_step l (pzero, pzero) in
      if negb (is_zero c) && is_finite c then fadd f c else f
  end.

(** [statistics.mean(l)]: the exact sum of the data, as a fraction, divided
    by their number and rounded once to the nearest float.  Data that are not
    finite are summed as floats and decide the result. *)
Definition exact_sum (l : list float) : Z :=
  fold_right (fun x acc => scaled x + acc) 0 l.

Definition round_quotient (t : Z) (n : positive) : float :=
  match t with
  | Z0 => pzero
  | Zpos p => fdiv (S754_finite false p (-1074)) (S754_finite false n 0)
  | Zneg p => fdiv (S754_finite true p (-1074)) (S754_finite false n 0)
  end.

Definition mean (l : list float) : outcome float :=
  match l with
  | [] => Raise StatisticsError
  | _ :: _ =>
      match filter (fun x => negb (is_finite x)) l with
      | [] => Return (round_quotient (exact_sum l) (Pos.of_nat (List.length l)))
      | y :: ys => Return (fdiv (fold_left fadd ys y) (of_int (len l)))
      end
  end.

(** Dictionaries with string keys, in insertion order. *)
Inductive value :=
  | VInt (z : Z)
  | VFloat (x : float)
  | VStr (s : string).

Definition dict : Type := list (string * value).

Fixpoint lookup (k : string) (d : dict) : option value :=
  match d with
  | [] => None
  | (k', v) :: d' => if String.eqb k k' then Some v else lookup k d'
  end.

Definition contains (k : string) (d : dict) : bool :=
  match lookup k d with Some _ => true | None => false end.

Definition getkey (d : dict) (k : string) : outcome value :=
  match lookup k d with Some v => Return v | None => Raise KeyError end.

Fixpoint setitem (d : dict) (k : string) (v : value) : dict :=
  match d with
  | [] => [(k, v)]
  | (k', v') :: d' =>
      if String.eqb k k' then (k, v) :: d' else (k', v') :: setitem d' k v
  end.

(** [v >= z] and [v - z] for a dictionary value and an integer literal. *)
Definition value_ge (v : value) (z : Z) : outcome bool :=
  match v with
  | VInt a => Return (z <=? a)
  | VFloat x => Return (fleb (of_int z) x)
  | VStr _ => Raise TypeError
  end.

Definition value_sub (v : value) (z : Z) : outcome value :=
  match v with
  | VInt a => Return (VInt (a - z))
  | VFloat x => Return (VFloat (fsub x (of_int z)))
  | VStr _ => Raise TypeError
  end.

(** [str(n)] of an integer, in decimal. *)
Definition str_of_int (z : Z) : string := NilZero.string_of_int (Z.to_int z).

End Py.

Import Py.

(** ** The source: [benchmark.py] *)

Definition TEST_SENTENCES : list string :=
  [ "I cant beleive how much this extention has helped me with my writting.";
    "Its been a lifesaver for my dayly work and comunication.";
    "I use to make alot of mistakes but now im more confidant.";
    "Thier going to be suprised when they see the improvment.";
    "This sentance has a few erors that need to be fixed.";
    "The wether is beautifull today and I want to go outsde.";
    "Please recieve this messge and respond as soon as posible.";
    "I definitly recomend this tool to anyone who writes alot.";
    "Your absolutly right about that, I totaly agree with you.";
    "Lets schedul a meeting for tommorow afternoon if your availible." ]%string.

Record RequestResult := {
  latency_ms : float;
  success : bool;
  error : option string
}.

(** *** [make_request]

    What the awaited [client.post] does is the environment's choice: it
    answers with a status code or raises.  [start] and [now] are the two
    readings of [time.perf_counter()] on the path taken. *)
Inductive post_outcome :=
  | Responded (status_code : Z)
  | Failed (cls : exc_class) (msg : string).

Definition elapsed_ms (start now : float) : float :=
  fmul (fsub now start) (of_int 1000).

Definition make_request (start now : float) (o : post_outcome)
  : outcome RequestResult :=
  match o with
  | Responded status_code =>
      let latency := elapsed_ms start now in
      if status_code =? 200 then
        Return {| latency_ms := latency; success := true; error := None |}
      else
        Return {| latency_ms := latency; success := false;
                  error := Some ("HTTP " ++ str_of_int status_code)%string |}
  | Failed cls msg =>
      if is_Exception cls then
        let latency := elapsed_ms start now in
        Return {| latency_ms := latency; success := false; error := Some msg |}
      else Raise cls
  end.

(** The success class of HTTP status codes, 2xx, which the specification
    sets against the "non-2xx" responses. *)
Definition is_2xx (status_code : Z) : bool :=
  (200 <=? status_code) && (status_code <? 300).

(** The outcomes of [client.post] that are failures of the request: a status
    other than 200, or an exception that [except Exception] catches. *)
Definition is_failure (o : post_outcome) : Prop :=
  match o with
  | Responded status_code => status_code <> 200
  | Failed cls _ => is_Exception cls = true
  end.

(** *** [calculate_stats] *)

(** [sorted_latencies[int(n * c)]] *)
Definition percentile (sorted_latencies : list float) (n : Z) (c : float)
  : outcome float :=
  i <- int_of_float (fmul (of_int n) c) ;;
  getitem sorted_latencies i.

Definition no_successful_requests : dict :=
  [("error", VStr "No successful requests")]%string.

(** [len(successful) / (sum(latencies) / 1000) if latencies else 0] *)
Definition throughput (alg : sum_algorithm) (successful : list RequestResult)
    (latencies : list float) : outcome value :=
  match latencies with
  | [] => Return (VInt 0)
  | _ :: _ =>
      seconds <- truediv (py_sum alg latencies) (of_int 1000) ;;
      q <- truediv (of_int (len successful)) seconds ;;
      Return (VFloat q)
  end.

Definition calculate_stats (alg : sum_algorithm) (results : list RequestResult)
  : outcome dict :=
  let successful := filter success results in
  let latencies := map latency_ms successful in
  match latencies with
  | [] => Return no_successful_requests
  | _ :: _ =>
      let sorted_latencies := sorted latencies in
      let n := len sorted_latencies in
      v_min <- py_min latencies ;;
      v_max <- py_max latencies ;;
      v_avg <- mean latencies ;;
      v_p50 <- percentile sorted_latencies n c050 ;;
      v_p95 <- (if 20 <=? n then percentile sorted_latencies n c095
                else getitem sorted_latencies (-1)) ;;
      v_p99 <- (if 100 <=? n then percentile sorted_latencies n c099
                else getitem sorted_latencies (-1)) ;;
      v_throughput <- throughput alg successful latencies ;;
      Return [ ("total", VInt (len results));
               ("success", VInt (len successful));
               ("errors", VInt (len results - len successful));
               ("min", VFloat v_min);
               ("max", VFloat v_max);
               ("avg", VFloat v_avg);
               ("p50", VFloat v_p50);
               ("p95", VFloat v_p95);
               ("p99", VFloat v_p99);
               ("throughput", v_throughput) ]%string
  end.

(** The successful latencies of a result collection, and the statistics a
    returned dictionary holds. *)
Definition successful_latencies (results : list RequestResult) : list float :=
  map latency_ms (filter success results).

Definition field (d : dict) (k : string) : option float :=
  match lookup k d with
  | Some (VFloat x) => Some x
  | _ => None
  end.

Definition ascending (l : list float) : Prop :=
  StronglySorted (fun a b => fleb a b = true) l.

(** [int(n * c)] agrees with the integer quotient [n * p / 100]. *)
Definition index_agrees (c : float) (p : Z) (n : nat) : bool :=
  match int_of_float (fmul (of_int (Z.of_nat n)) c) with
  | Return i => i =? Z.of_nat n * p / 100
  | Raise _ => false
  end.

Definition succeeded (x : float) : RequestResult :=
  {| latency_ms := x; success := true; error := None |}.

Definition failed (x : float) (msg : string) : RequestResult :=
  {| latency_ms := x; success := false; error := Some msg |}.

(** Sample collections: three successes of 100, 200 and 300 ms among two
    failures, and a collection without any success. *)
Definition sample_results : list RequestResult :=
  [ succeeded (of_int 100); failed (of_int 7) "HTTP 500";
    succeeded (of_int 300); succeeded (of_int 200); failed (of_int 30000) EmptyString ]%string.

Definition all_failed_results : list RequestResult :=
  [ failed (of_int 12) "HTTP 503"; failed (of_int 30000) EmptyString ]%string.


(** Four latencies and the same four in the opposite order:
    [2^53], [1], [2^-53] and [2^-53] milliseconds. *)
Definition order_a : list RequestResult :=
  map succeeded [ of_int (2 ^ 53); of_int 1;
                  S754_finite false 4503599627370496 (-105);
                  S754_finite false 4503599627370496 (-105) ].

Definition order_b : list RequestResult := rev order_a.

(** Latencies of 0.1, 0.2 and 0.3 ms, and the same in the opposite order. *)
Definition tenths_a : list RequestResult :=
  map succeeded [ fdiv (of_int 1) (of_int 10); fdiv (of_int 2) (of_int 10);
                  fdiv (of_int 3) (of_int 10) ].

Definition tenths_b : list RequestResult := rev tenths_a.

(** *** [run_ramp_test] *)

Inductive console_line :=
  | BreakingPoint (concurrency : value)
  | RecommendedMax (concurrency : value)
  | AllPassed.

(** The [for ... else] loop that looks for the breaking point. *)
Fixpoint find_breaking_point (all_stats : list dict) : outcome (list console_line) :=
  match all_stats with
  | [] => Return [AllPassed]
  | s :: rest =>
      hit <- (if negb (contains "error" s) then
                p99 <- getkey s "p99" ;; value_ge p99 800
              else Return false) ;;
      if (hit : bool) then
        c <- getkey s "concurrency" ;;
        r <- value_sub c 10 ;;
        Return [BreakingPoint c; RecommendedMax r]
      else find_breaking_point rest
  end.

Definition ramp_levels : list Z := [10; 20; 30; 40; 50].

(** The stages of the sweep; [stage_results c] stands for what
    [test_concurrent(c, total_requests=c * 5)] collected. *)
Fixpoint ramp_stats (alg : sum_algorithm) (stage_results : Z -> list RequestResult)
    (levels : list Z) : outcome (list dict) :=
  match levels with
  | [] => Return []
  | concurrency :: levels' =>
      stats <- calculate_stats alg (stage_results concurrency) ;;
      rest <- ramp_stats alg stage_results levels' ;;
      Return (setitem stats "concurrency" (VInt concurrency) :: rest)
  end.

Definition run_ramp_test (alg : sum_algorithm)
    (stage_results : Z -> list RequestResult) : outcome (list console_line) :=
  all_stats <- ramp_stats alg stage_results ramp_levels ;;
  find_breaking_point all_stats.

(** A stage whose p99 reached 800 ms, and the concurrency level of a stage. *)
Definition breaking (s : dict) : bool :=
  negb (contains "error" s) &&
  match lookup "p99" s with
  | Some (VFloat x) => fleb (of_int 800) x
  | Some (VInt a) => 800 <=? a
  | _ => false
  end.

Definition level (s : dict) : Z :=
  match lookup "concurrency" s with
  | Some (VInt c) => c
  | _ => 0
  end.

(** What a stage of the sweep holds: the no-data dictionary, or statistics
    with a float under "p99"; and its concurrency level. *)
Definition stage_ok (s : dict) : Prop :=
  (contains "error" s = true \/ exists x, lookup "p99" s = Some (VFloat x)) /\
  exists c, lookup "concurrency" s = Some (VInt c).

(** Stages whose only success took [p] ms, so that their p99 is [p]:
    200, 300, 400, 850 and 900 ms at the levels 10 to 50. *)
Definition example_stage_results (concurrency : Z) : list RequestResult :=
  let p := if concurrency =? 10 then 200
           else if concurrency =? 20 then 300
           else if concurrency =? 30 then 400
           else if concurrency =? 40 then 850
           else 900 in
  [ succeeded (of_int p) ].

(** Five synthetic stage statistics with those p99 values. *)
Definition synthetic_stage (concurrency p99 : Z) : dict :=
  [ ("p99", VFloat (of_int p99)); ("concurrency", VInt concurrency) ]%string.

Definition synthetic_stages : list dict :=
  [ synthetic_stage 10 200; synthetic_stage 20 300; synthetic_stage 30 400;
    synthetic_stage 40 850; synthetic_stage 50 900 ].

(** Stages that all stay below 800 ms. *)
Definition calm_stage_results (concurrency : Z) : list RequestResult :=
  [ succeeded (of_int (concurrency * 10)) ].

(** *** [test_concurrent]

    The coroutines of [bounded_request] and the semaphore, as a transition
    system.  Each launched coroutine waits for the semaphore, holds it during
    [make_request], and leaves the [async with] block with its result, which
    [asyncio.as_completed] hands over in the order of completion. *)
Module Limiter.

Inductive phase := Pending | Holding | Finished.

Record task := { sentence : string; stage : phase }.

Record state := {
  value : Z;
  tasks : list task;
  results : list RequestResult
}.

(** [total_requests: int = 50] *)
Definition total_requests_or_default (total_requests : option Z) : Z :=
  match total_requests with
  | Some n => n
  | None => 50
  end.

Definition sentence_for (i : nat) : string :=
  nth (i mod List.length TEST_SENTENCES) TEST_SENTENCES EmptyString.

Definition test_concurrent (concurrency : Z) (total_requests : option Z) : state :=
  let n := total_requests_or_default total_requests in
  {| value := concurrency;
     tasks := map (fun i => {| sentence := sentence_for i; stage := Pending |})
                  (seq 0 (Z.to_nat n));
     results := [] |}.

(** The calls of [main] and [run_ramp_test] pass [concurrency * 5]. *)
Definition call_from_main (concurrency : Z) : state :=
  test_concurrent concurrency (Some (concurrency * 5)).

Fixpoint set_stage (i : nat) (p : phase) (ts : list task) : list task :=
  match ts, i with
  | [], _ => []
  | t :: ts', O => {| sentence := sentence t; stage := p |} :: ts'
  | t :: ts', S i' => t :: set_stage i' p ts'
  end.

Definition in_phase (p q : phase) : bool :=
  match p, q with
  | Pending, Pending | Holding, Holding | Finished, Finished => true
  | _, _ => false
  end.

Definition b2z (b : bool) : Z := if b then 1 else 0.

Definition count_phase (p : phase) (ts : list task) : Z :=
  len (filter (fun t => in_phase p (stage t)) ts).

(** Issued and not completed. *)
Definition outstanding (s : state) : Z := count_phase Holding (tasks s).

Inductive step : state -> state -> Prop :=
  | step_acquire (s : state) (i : nat) (t : task) :
      nth_error (tasks s) i = Some t -> stage t = Pending -> 0 < value s ->
      step s {| value := value s - 1;
                tasks := set_stage i Holding (tasks s);
                results := results s |}
  | step_complete (s : state) (i : nat) (t : task)
      (start now : float) (o : post_outcome) (r : RequestResult) :
      nth_error (tasks s) i = Some t -> stage t = Holding ->
      make_request start now o = Return r ->
      step s {| value := value s + 1;
                tasks := set_stage i Finished (tasks s);
                results := results s ++ [r] |}.

Inductive steps : nat -> state -> state -> Prop :=
  | steps_refl (s : state) : steps 0 s s
  | steps_snoc (k : nat) (s s' s'' : state) :
      steps k s s' -> step s' s'' -> steps (S k) s s''.

Definition quiescent (s : state) : Prop := forall s', ~ step s s'.

Definition weight (s : state) : Z :=
  2 * count_phase Pending (tasks s) + count_phase Holding (tasks s).

(** What every reachable state of a run with limit [c] and [n] requests
    satisfies. *)
Definition invariant (c n : Z) (s : state) : Prop :=
  0 <= value s /\ value s + outstanding s = c /\
  len (tasks s) = n /\
  len (results s) = count_phase Finished (tasks s).

End Limiter.

(** *** [test_single_request]

    What the environment does during one awaited [make_request]: the two
    readings of the clock and the outcome of [client.post]. *)
Record call := { started : float; ended : float; answer : post_outcome }.

Definition request (c : call) : outcome RequestResult :=
  make_request (started c) (ended c) (answer c).

(** The loop [for i in range(5)]: the requests are awaited one after the
    other, [calls i] being what happens during the [i]-th of them. *)
Fixpoint single_loop (calls : nat -> call) (indices : list nat)
    (results : list RequestResult) : outcome (list RequestResult) :=
  match indices with
  | [] => Return results
  | i :: indices' =>
      result <- request (calls i) ;;
      single_loop calls indices' (results ++ [result])
  end.

Definition test_single_request (calls : nat -> call)
  : outcome (list RequestResult) :=
  single_loop calls (seq 0 5) [].

(** *** [print_results]

    The comparisons of a dictionary value with an integer literal:
    [v <= z], [v < z] and [v == z]. *)
Definition value_le (v : value) (z : Z) : outcome bool :=
  match v with
  | VInt a => Return (a <=? z)
  | VFloat x => Return (fleb x (of_int z))
  | VStr _ => Raise TypeError
  end.

Definition value_lt (v : value) (z : Z) : outcome bool :=
  match v with
  | VInt a => Return (a <? z)
  | VFloat x => Return (fltb x (of_int z))
  | VStr _ => Raise TypeError
  end.

Definition value_eq (v : value) (z : Z) : bool :=
  match v with
  | VInt a => a =? z
  | VFloat x => feqb x (of_int z)
  | VStr _ => false
  end.

(** The text of a table cell: [str(v)], or [v] under the format [.0f] or
    [.1f] followed by a unit.  The digits themselves are left to the
    formatter; a string does not take the format [f]. *)
Inductive cell :=
  | Str (v : value)
  | Fixed (digits : nat) (v : value) (unit : string).

Definition format_fixed (digits : nat) (v : value) (unit : string)
  : outcome cell :=
  match v with
  | VStr _ => Raise ValueError
  | _ => Return (Fixed digits v unit)
  end.

(** The marks of the status column: "-", PASS, FAIL, OK, "!!!" and
    DEGRADED. *)
Inductive mark := NoMark | PASS | FAIL | OK | ALARM | DEGRADED.

Record table_row := {
  metric : string;
  shown : cell;
  target : string;
  verdict : mark
}.

Inductive printed :=
  | ErrorLine (title : string) (message : value)
  | ResultTable (title : string) (rows : list table_row).

(** The inner function [status(value, target)]. *)
Definition status (v : value) (target : Z) : outcome mark :=
  b <- value_le v target ;;
  Return (if (b : bool) then PASS else FAIL).

Definition plain_row (stats : dict) (metric key : string) (digits : nat)
    (unit : string) : outcome table_row :=
  v <- getkey stats key ;;
  c <- format_fixed digits v unit ;;
  Return {| metric := metric; shown := c; target := "-"; verdict := NoMark |}.

Definition target_row (stats : dict) (metric key : string) (shown_target : string)
    (limit : Z) : outcome table_row :=
  v <- getkey stats key ;;
  c <- format_fixed 0 v "ms" ;;
  st <- status v limit ;;
  Return {| metric := metric; shown := c; target := shown_target; verdict := st |}.

Definition print_results (title : string) (stats : dict) : outcome printed :=
  if contains "error" stats then
    message <- getkey stats "error" ;;
    Return (ErrorLine title message)
  else
    v_total <- getkey stats "total" ;;
    v_success <- getkey stats "success" ;;
    v_errors <- getkey stats "errors" ;;
    r_min <- plain_row stats "Min Latency" "min" 0 "ms" ;;
    r_avg <- plain_row stats "Avg Latency" "avg" 0 "ms" ;;
    r_p50 <- target_row stats "P50 Latency" "p50" "<300ms" 300 ;;
    r_p95 <- target_row stats "P95 Latency" "p95" "<500ms" 500 ;;
    r_p99 <- target_row stats "P99 Latency" "p99" "<800ms" 800 ;;
    r_max <- plain_row stats "Max Latency" "max" 0 "ms" ;;
    r_throughput <- plain_row stats "Throughput" "throughput" 1 " req/s" ;;
    Return (ResultTable title
      [ {| metric := "Total Requests"; shown := Str v_total;
           target := "-"; verdict := NoMark |};
        {| metric := "Successful"; shown := Str v_success;
           target := "-"; verdict := NoMark |};
        {| metric := "Errors"; shown := Str v_errors; target := "0";
           verdict := if value_eq v_errors 0 then OK else ALARM |};
        r_min; r_avg; r_p50; r_p95; r_p99; r_max; r_throughput ])%string.

(** The status a printed table shows for a metric. *)
Definition verdict_of (p : printed) (m : string) : option mark :=
  match p with
  | ErrorLine _ _ => None
  | ResultTable _ rows =>
      match find (fun r => String.eqb (metric r) m) rows with
      | Some r => Some (verdict r)
      | None => None
      end
  end.

(** *** The summary table of [run_ramp_test] *)

Record summary_row := {
  row_concurrent : cell;
  row_p50 : cell;
  row_p99 : cell;
  row_throughput : cell;
  row_status : mark
}.

(** The loop over [all_stats] that fills the table "Ramp-Up Summary". *)
Fixpoint ramp_summary (all_stats : list dict) : outcome (list summary_row) :=
  match all_stats with
  | [] => Return []
  | s :: rest =>
      if contains "error" s then ramp_summary rest
      else
        v_p99 <- getkey s "p99" ;;
        p99_ok <- value_lt v_p99 800 ;;
        v_concurrency <- getkey s "concurrency" ;;
        v_p50 <- getkey s "p50" ;;
        c_p50 <- format_fixed 0 v_p50 "ms" ;;
        c_p99 <- format_fixed 0 v_p99 "ms" ;;
        v_throughput <- getkey s "throughput" ;;
        c_throughput <- format_fixed 1 v_throughput "/s" ;;
        rows <- ramp_summary rest ;;
        Return ({| row_concurrent := Str v_concurrency;
                   row_p50 := c_p50; row_p99 := c_p99;
                   row_throughput := c_throughput;
                   row_status := if (p99_ok : bool) then OK else DEGRADED |}
                :: rows)
  end%string.

(** The stages of the sweep with the table each of them prints. *)
Fixpoint ramp_stages (alg : sum_algorithm)
    (stage_results : Z -> list RequestResult) (levels : list Z)
  : outcome (list (dict * printed)) :=
  match levels with
  | [] => Return []
  | concurrency :: levels' =>
      stats <- calculate_stats alg (stage_results concurrency) ;;
      let stats := setitem stats "concurrency" (VInt concurrency) in
      shown <- print_results ("Concurrency: " ++ str_of_int concurrency) stats ;;
      rest <- ramp_stages alg stage_results levels' ;;
      Return ((stats, shown) :: rest)
  end%string.

(** All that [run_ramp_test] prints: the table of every stage, the summary
    table, and the lines about the breaking point. *)
Record ramp_report := {
  stage_tables : list printed;
  summary : list summary_row;
  closing : list console_line
}.

Definition run_ramp_report (alg : sum_algorithm)
    (stage_results : Z -> list RequestResult) : outcome ramp_report :=
  stages <- ramp_stages alg stage_results ramp_levels ;;
  let all_stats := map fst stages in
  rows <- ramp_summary all_stats ;;
  lines <- find_breaking_point all_stats ;;
  Return {| stage_tables := map snd stages; summary := rows; closing := lines |}.

(** The number of stages that had a success. *)
Definition stages_with_data (stage_results : Z -> list RequestResult)
    (levels : list Z) : Z :=
  len (filter (fun c => existsb success (stage_results c)) levels).

(** *** [main] *)

Definition API_URL : string := "https://vllm.kernelvm.xyz/v1/chat/completions".
Definition MODEL : string := "typix-medium-epo".

(** The parsed command line: [--single], [--concurrent N], [--ramp],
    [--url URL] and [--model NAME]; an option that was not given is
    [None]. *)
Record arguments := {
  arg_single : bool;
  arg_concurrent : option Z;
  arg_ramp : bool;
  arg_url : option string;
  arg_model : option string
}.

(** Truth value of an optional integer and of an optional string. *)
Definition truthy_int (o : option Z) : bool :=
  match o with
  | Some z => negb (z =? 0)
  | None => false
  end.

Definition truthy_str (o : option string) : bool :=
  match o with
  | Some EmptyString => false
  | Some _ => true
  | None => false
  end.

(** The scenarios [main] awaits, in order. *)
Inductive scenario :=
  | SingleRequestTest
  | ConcurrentTest (concurrency total_requests : Z)
  | RampTest
  | Sleep (seconds : Z).

Record run := {
  run_url : string;
  run_model : string;
  run_scenarios : list scenario
}.

(** [if args.url: API_URL = args.url]: an absent or empty option keeps the
    default. *)
Definition override (o : option string) (default : string) : string :=
  if truthy_str o then
    match o with
    | Some s => s
    | None => default
    end
  else default.

(** The chain [if args.single ... elif args.concurrent ... elif args.ramp ...
    else ...]. *)
Definition main (args : arguments) : run :=
  {| run_url := override (arg_url args) API_URL;
     run_model := override (arg_model args) MODEL;
     run_scenarios :=
       if arg_single args then [SingleRequestTest]
       else if truthy_int (arg_concurrent args) then
         match arg_concurrent args with
         | Some c => [ConcurrentTest c (c * 5)]
         | None => []
         end
       else if arg_ramp args then [RampTest]
       else [SingleRequestTest; Sleep 1; RampTest] |}.

(** [asyncio.Semaphore(value)] refuses a negative value; [test_concurrent]
    creates the semaphore before any coroutine. *)
Definition semaphore (initial : Z) : outcome Z :=
  if initial <? 0 then Raise ValueError else Return initial.

Definition start_concurrent (concurrency : Z) (total_requests : option Z)
  : outcome Limiter.state :=
  permits <- semaphore concurrency ;;
  Return (Limiter.test_concurrent permits total_requests).

(** The tasks of a run after the first [j] of them acquired the semaphore. *)
Definition acquired (j : nat) (ts : list Limiter.task) : list Limiter.task :=
  map (fun t => {| Limiter.sentence := Limiter.sentence t;
                   Limiter.stage := Limiter.Holding |}) (firstn j ts)
  ++ skipn j ts.

(** The shapes of the dictionaries at hand: the statistics of a collection
    with a success, and the two kinds of stage of the sweep. *)
Definition stats_dict (total successes errors : Z)
    (v_min v_max v_avg v_p50 v_p95 v_p99 : float) (v_throughput : value) : dict :=
  [ ("total", VInt total); ("success", VInt successes); ("errors", VInt errors);
    ("min", VFloat v_min); ("max", VFloat v_max); ("avg", VFloat v_avg);
    ("p50", VFloat v_p50); ("p95", VFloat v_p95); ("p99", VFloat v_p99);
    ("throughput", v_throughput) ]%string.

Definition with_concurrency (stats : dict) (concurrency : Z) : dict :=
  setitem stats "concurrency" (VInt concurrency).

Definition stage_form (results : list RequestResult) (concurrency : Z)
    (s : dict) : Prop :=
  (successful_latencies results = [] /\
   s = with_concurrency no_successful_requests concurrency) \/
  (successful_latencies results <> [] /\
   exists a b e x1 x2 x3 x4 x5 x6 q,
     s = with_concurrency (stats_dict a b e x1 x2 x3 x4 x5 x6 (VFloat q)) concurrency /\
     In x6 (successful_latencies results) /\
     py_max (successful_latencies results) = Return x2 /\
     (if 100 <=? len (sorted (successful_latencies results))
      then percentile (sorted (successful_latencies results))
             (len (sorted (successful_latencies results))) c099
      else getitem (sorted (successful_latencies results)) (-1)) = Return x6).

(** The table of a dictionary of statistics, with or without the
    concurrency level the sweep adds. *)
Definition table_of (title : string) (a b e : Z) (x1 x2 x3 x4 x5 x6 q : float)
  : printed :=
  ResultTable title
    [ {| metric := "Total Requests"; shown := Str (VInt a);
         target := "-"; verdict := NoMark |};
      {| metric := "Successful"; shown := Str (VInt b);
         target := "-"; verdict := NoMark |};
      {| metric := "Errors"; shown := Str (VInt e); target := "0";
         verdict := if (e =? 0)%Z then OK else ALARM |};
      {| metric := "Min Latency"; shown := Fixed 0 (VFloat x1) "ms";
         target := "-"; verdict := NoMark |};
      {| metric := "Avg Latency"; shown := Fixed 0 (VFloat x3) "ms";
         target := "-"; verdict := NoMark |};
      {| metric := "P50 Latency"; shown := Fixed 0 (VFloat x4) "ms";
         target := "<300ms";
         verdict := if fleb x4 (of_int 300) then PASS else FAIL |};
      {| metric := "P95 Latency"; shown := Fixed 0 (VFloat x5) "ms";
         target := "<500ms";
         verdict := if fleb x5 (of_int 500) then PASS else FAIL |};
      {| metric := "P99 Latency"; shown := Fixed 0 (VFloat x6) "ms";
         target := "<800ms";
         verdict := if fleb x6 (of_int 800) then PASS else FAIL |};
      {| metric := "Max Latency"; shown := Fixed 0 (VFloat x2) "ms";
         target := "-"; verdict := NoMark |};
      {| metric := "Throughput"; shown := Fixed 1 (VFloat q) " req/s";
         target := "-"; verdict := NoMark |} ]%string.

(** Tasks none of which has acquired the semaphore yet. *)
Definition all_pending (ts : list Limiter.task) : Prop :=
  Forall (fun t => Limiter.stage t = Limiter.Pending) ts.

(** A reading of [time.perf_counter()], in seconds: zero or at least
    [2^-927], and at most [2^40]. *)
Definition clock_floor : float := S754_finite false 4503599627370496 (-979).

Definition clock_reading (x : float) : bool :=
  wf x && (is_zero x || fleb clock_floor x) && fleb x (of_int (2 ^ 40)).

(** Collections on which the throughput division has a zero divisor: one
    success measured at 0.0 ms; and two successes of 5e-324 ms, the smallest
    positive float, beside a failure. *)
Definition smallest_positive : float := S754_finite false 1 (-1074).

Definition zero_latency_results : list RequestResult := [ succeeded pzero ].

Definition tiny_latency_results : list RequestResult :=
  [ succeeded smallest_positive; failed (of_int 12) "HTTP 503";
    succeeded smallest_positive ]%string.

(** * Proofs *)

(** ** Rounding to binary64 *)

Lemma fexp_eq x : fexp prec emax x = Z.max (x - 53) (-1074).
Proof. reflexivity. Qed.

Lemma digits2_pos_bounds p :
  2 ^ (Zpos (digits2_pos p) - 1) <= Zpos p < 2 ^ Zpos (digits2_pos p).
Proof.
  induction p as [p IH|p IH|]; cbn [digits2_pos].
  - rewrite Pos2Z.inj_succ.
    replace (Z.succ (Zpos (digits2_pos p)) - 1) with (Z.succ (Zpos (digits2_pos p) - 1)) by lia.
    rewrite !Z.pow_succ_r by lia. lia.
  - rewrite Pos2Z.inj_succ.
    replace (Z.succ (Zpos (digits2_pos p)) - 1) with (Z.succ (Zpos (digits2_pos p) - 1)) by lia.
    rewrite !Z.pow_succ_r by lia. lia.
  - cbn. lia.
Qed.

Lemma Zdigits2_bounds M :
  0 < M -> 2 ^ (Zdigits2 M - 1) <= M < 2 ^ Zdigits2 M.
Proof.
  destruct M as [|p|p]; try lia. intros _. apply digits2_pos_bounds.
Qed.

Lemma Zdigits2_nonneg M : 0 <= Zdigits2 M.
Proof. destruct M; cbn; lia. Qed.

Lemma Zdigits2_unique M d :
  0 < M -> 2 ^ (d - 1) <= M < 2 ^ d -> Zdigits2 M = d.
Proof.
  intros HM [Hlo Hhi]. pose proof (Zdigits2_bounds M HM) as [Hl Hh].
  pose proof (Zdigits2_nonneg M).
  assert (0 < d).
  { destruct (Z_lt_le_dec 0 d); auto.
    exfalso. assert (2 ^ d <= 2 ^ 0) by (destruct (Z_lt_le_dec d 0); [rewrite Z.pow_neg_r by lia; cbn; lia| apply Z.pow_le_mono_r; lia]).
    cbn in *. lia. }
  assert (Zdigits2 M - 1 < d) by (apply (Z.pow_lt_mono_r_iff 2); lia).
  assert (d - 1 < Zdigits2 M) by (apply (Z.pow_lt_mono_r_iff 2); lia).
  lia.
Qed.


Lemma shr_rel_trans a b x y z :
  0 <= a -> 0 <= b -> shr_rel a x y -> shr_rel b y z -> shr_rel (a + b) x z.
Proof.
  intros Ha Hb (Hy & Hxy & Ixy) (Hz & Hyz & Iyz).
  assert (0 < 2 ^ a) by (apply Z.pow_pos_nonneg; lia).
  assert (0 < 2 ^ b) by (apply Z.pow_pos_nonneg; lia).
  split; [exact Hz|]. split.
  - rewrite Hyz, Hxy, Z.pow_add_r, Z.div_div by lia. reflexivity.
  - rewrite Iyz, Ixy, Z.pow_add_r by lia. split.
    + intros [[Hi Hx] Hy']. split; [exact Hi|]. rewrite Hx, Hy'. ring.
    + intros [Hi Hx]. split; [split; [exact Hi|]|].
      * assert (shr_m y = 2 ^ b * shr_m z); [|nia].
        rewrite Hxy, Hx. rewrite <- Z.mul_assoc, Z.mul_comm, Z.div_mul by lia. reflexivity.
      * rewrite Hxy, Hx. rewrite <- Z.mul_assoc, Z.mul_comm, Z.div_mul by lia. reflexivity.
Qed.

Lemma shr_1_rel x : 0 <= shr_m x -> shr_rel 1 x (shr_1 x).
Proof.
  destruct x as [m r s]; cbn [shr_m]. intros Hm.
  unfold shr_rel, inexact. change (2 ^ 1) with 2.
  destruct m as [|[p|p|]|p]; try lia; cbn [shr_1 shr_m shr_r shr_s].
  - split; [lia|]. split; [reflexivity|]. destruct r, s; cbn; intuition congruence.
  - split; [lia|]. split; [rewrite Pos2Z.inj_xI; apply Z.div_unique with 1; lia|].
    destruct r, s; cbn; intuition (try congruence; try lia).
  - split; [lia|]. split; [rewrite Pos2Z.inj_xO; apply Z.div_unique with 0; lia|].
    destruct r, s; cbn; intuition (try congruence; try lia).
  - split; [lia|]. split; [reflexivity|].
    destruct r, s; cbn; intuition (try congruence; try lia).
Qed.

Lemma shr_rel_nonneg k x y : shr_rel k x y -> 0 <= shr_m y.
Proof. intros [H _]; exact H. Qed.

Lemma iter_pos_shr_rel p : forall x,
  0 <= shr_m x -> shr_rel (Zpos p) x (iter_pos shr_1 p x).
Proof.
  induction p as [p IH|p IH|]; intros x Hx; cbn [iter_pos].
  - pose proof (shr_1_rel x Hx) as H1.
    pose proof (IH _ (shr_rel_nonneg _ _ _ H1)) as H2.
    pose proof (IH _ (shr_rel_nonneg _ _ _ H2)) as H3.
    replace (Zpos p~1) with (1 + Zpos p + Zpos p) by lia.
    eapply shr_rel_trans; [lia|lia| |exact H3].
    eapply shr_rel_trans; [lia|lia|exact H1|exact H2].
  - pose proof (IH _ Hx) as H2.
    pose proof (IH _ (shr_rel_nonneg _ _ _ H2)) as H3.
    replace (Zpos p~0) with (Zpos p + Zpos p) by lia.
    eapply shr_rel_trans; [lia|lia|exact H2|exact H3].
  - apply shr_1_rel; exact Hx.
Qed.

Lemma shr_spec x e k :
  0 <= shr_m x -> 0 <= k ->
  exists y, shr x e k = (y, e + k) /\ shr_rel k x y.
Proof.
  intros Hx Hk. destruct k as [|p|p]; try lia.
  - exists x. split; [cbn; f_equal; lia|].
    split; [exact Hx|]. change (2 ^ 0) with 1. rewrite Z.div_1_r. split; [reflexivity|].
    intuition lia.
  - exists (iter_pos shr_1 p x). split; [reflexivity|]. apply iter_pos_shr_rel; exact Hx.
Qed.

Lemma pow2_pos k : 0 <= k -> 0 < 2 ^ k.
Proof. intros; apply Z.pow_pos_nonneg; lia. Qed.

Lemma pow2_split a w : 0 <= w <= a -> 2 ^ a = 2 ^ (a - w) * 2 ^ w.
Proof. intros; rewrite <- Z.pow_add_r by lia; f_equal; lia. Qed.

Lemma pow2_ge2 k : 0 < k -> 2 <= 2 ^ k.
Proof.
  intros Hk. replace k with (Z.succ (k - 1)) by lia.
  rewrite Z.pow_succ_r by lia. pose proof (pow2_pos (k - 1)). lia.
Qed.

Lemma above_grid m a q w :
  0 <= a -> 0 <= w -> m < 2 ^ 53 -> 0 <= q -> (0 < w -> 2 ^ 52 <= q) ->
  q * 2 ^ w < m * 2 ^ a -> (q + 1) * 2 ^ w <= m * 2 ^ a.
Proof.
  intros Ha Hw Hm Hq Hn Hlt.
  pose proof (pow2_pos w Hw) as HW. pose proof (pow2_pos a Ha) as HA.
  destruct (Z_le_gt_dec w a) as [Hwa|Hwa].
  - rewrite (pow2_split a w) in * by lia.
    pose proof (pow2_pos (a - w)).
    assert (q < m * 2 ^ (a - w)) by nia.
    assert ((q + 1) * 2 ^ w <= (m * 2 ^ (a - w)) * 2 ^ w) by (apply Z.mul_le_mono_nonneg_r; lia).
    lia.
  - exfalso. rewrite (pow2_split w a) in * by lia.
    pose proof (pow2_ge2 (w - a)). change (2 ^ 53) with (2 * 2 ^ 52) in Hm.
    assert (2 ^ 52 <= q) by lia. nia.
Qed.

Lemma below_grid m a M u k q :
  0 <= a -> 0 <= u -> 0 <= k -> m < 2 ^ 53 -> 0 <= m ->
  q = M / 2 ^ k -> (0 < u + k -> 2 ^ 52 <= q) ->
  m * 2 ^ a <= M * 2 ^ u -> m * 2 ^ a <= q * 2 ^ (u + k).
Proof.
  intros Ha Hu Hk Hm Hm0 Hq Hn Hle.
  pose proof (pow2_pos u Hu) as HU. pose proof (pow2_pos a Ha) as HA.
  pose proof (pow2_pos k Hk) as HK.
  destruct (Z_le_gt_dec (u + k) a) as [Hwa|Hwa].
  - rewrite (pow2_split a (u + k)) in * by lia.
    pose proof (pow2_pos (a - (u + k))).
    rewrite Z.pow_add_r in * by lia.
    set (P := 2 ^ (a - (u + k))) in *.
    assert (Hq' : m * P <= q).
    { subst q. apply Z.div_le_lower_bound; [lia|].
      apply (Z.mul_le_mono_pos_r _ _ (2 ^ u)); [lia|].
      replace (2 ^ k * (m * P) * 2 ^ u) with (m * (P * (2 ^ u * 2 ^ k))) by ring. exact Hle. }
    replace (m * (P * (2 ^ u * 2 ^ k))) with ((m * P) * (2 ^ u * 2 ^ k)) by ring.
    apply Z.mul_le_mono_nonneg_r; [nia|exact Hq'].
  - rewrite (pow2_split (u + k) a) by lia.
    pose proof (pow2_ge2 (u + k - a)). change (2 ^ 53) with (2 * 2 ^ 52) in Hm.
    assert (2 ^ 52 <= q) by lia.
    assert (m <= q * 2 ^ (u + k - a)) by nia.
    rewrite Z.mul_assoc. apply Z.mul_le_mono_nonneg_r; lia.
Qed.

Lemma grid_lt m1 e1 m2 e2 :
  -1074 <= e1 -> e1 < e2 -> 0 <= m1 < 2 ^ 53 -> 2 ^ 52 <= m2 ->
  m1 * 2 ^ (e1 + 1074) < m2 * 2 ^ (e2 + 1074).
Proof.
  intros He1 Hlt Hm1 Hm2.
  rewrite (pow2_split (e2 + 1074) (e1 + 1074)) by lia.
  replace (e2 + 1074 - (e1 + 1074)) with (e2 - e1) by lia.
  pose proof (pow2_ge2 (e2 - e1) ltac:(lia)).
  pose proof (pow2_pos (e1 + 1074) ltac:(lia)).
  change (2 ^ 53) with (2 * 2 ^ 52) in Hm1.
  assert (m1 < m2 * 2 ^ (e2 - e1)) by nia.
  rewrite Z.mul_assoc. apply Z.mul_lt_mono_pos_r; lia.
Qed.

Lemma bounded_inv m e :
  bounded prec emax m e = true ->
  -1074 <= e <= 971 /\ Zpos m < 2 ^ 53 /\ (-1074 < e -> 2 ^ 52 <= Zpos m).
Proof.
  unfold bounded, canonical_mantissa. rewrite andb_true_iff, Z.eqb_eq, Z.leb_le, fexp_eq.
  change (emax - prec) with 971. intros [Hc He].
  pose proof (digits2_pos_bounds m) as [Hlo Hhi].
  set (d := Zpos (digits2_pos m)) in *.
  assert (d <= 53) by lia.
  split; [lia|]. split.
  - assert (2 ^ d <= 2 ^ 53) by (apply Z.pow_le_mono_r; lia). lia.
  - intros Hn. assert (d = 53) by lia. replace (d - 1) with 52 in Hlo by lia. exact Hlo.
Qed.

Lemma bounded_intro m e :
  -1074 <= e <= 971 -> Zpos m < 2 ^ 53 -> (-1074 < e -> 2 ^ 52 <= Zpos m) ->
  bounded prec emax m e = true.
Proof.
  intros He Hm Hn.
  unfold bounded, canonical_mantissa. rewrite andb_true_iff, Z.eqb_eq, Z.leb_le, fexp_eq.
  change (emax - prec) with 971. split; [|lia].
  pose proof (digits2_pos_bounds m) as [Hlo Hhi].
  set (d := Zpos (digits2_pos m)) in *.
  assert (d <= 53).
  { assert (d - 1 < 53); [|lia]. apply (Z.pow_lt_mono_r_iff 2); lia. }
  destruct (Z.eq_dec e (-1074)) as [->|Hne]; [lia|].
  assert (52 < d); [|lia].
  specialize (Hn ltac:(lia)).
  apply (Z.pow_lt_mono_r_iff 2); [lia|unfold d; lia|lia].
Qed.

Lemma wf_scaled_nonneg x : wf x = true -> 0 <= scaled x.
Proof.
  destruct x as [| | |[|] m e]; unfold scaled; cbn [cond_Zopp wf];
    try discriminate; try reflexivity.
  intros _. apply Z.mul_nonneg_nonneg; [lia|apply Z.pow_nonneg; lia].
Qed.


Lemma shr_record_of_loc_m M l : shr_m (shr_record_of_loc M l) = M.
Proof. destruct l as [|[| |]]; reflexivity. Qed.

Lemma shr_record_of_loc_inexact M l :
  inexact (shr_record_of_loc M l) = false <-> loc_excess l = 0.
Proof. destruct l as [|[| |]]; cbn; intuition (try congruence; try lia). Qed.

Lemma round_nearest_even_bounds y :
  let m2 := round_nearest_even (shr_m y) (loc_of_shr_record y) in
  shr_m y <= m2 <= shr_m y + 1 /\ (inexact y = false -> m2 = shr_m y).
Proof.
  destruct y as [m r s]; cbn [shr_m]. unfold inexact; cbn [shr_r shr_s].
  destruct r, s; cbn [loc_of_shr_record round_nearest_even orb];
    try destruct (Z.even m); split; try lia; try congruence; auto.
Qed.

Lemma wf_inv x :
  wf x = true ->
  x = S754_zero false \/
  exists m e, x = S754_finite false m e /\ bounded prec emax m e = true.
Proof.
  destruct x as [[|]|[|]| |[|] m e]; cbn; try discriminate; eauto.
Qed.

Lemma shr_fexp_spec M e l :
  0 <= M -> e <= fexp prec emax (Zdigits2 M + e) ->
  exists y, shr_fexp prec emax M e l = (y, fexp prec emax (Zdigits2 M + e)) /\
            shr_rel (fexp prec emax (Zdigits2 M + e) - e) (shr_record_of_loc M l) y.
Proof.
  intros HM He. unfold shr_fexp.
  destruct (shr_spec (shr_record_of_loc M l) e (fexp prec emax (Zdigits2 M + e) - e))
    as (y & Hy & Hrel).
  - rewrite shr_record_of_loc_m; exact HM.
  - lia.
  - exists y. split; [|exact Hrel]. rewrite Hy. f_equal. lia.
Qed.

Lemma shr_fexp_small m e :
  0 <= m < 2 ^ 53 -> -1074 <= e ->
  shr_fexp prec emax m e loc_Exact = (Build_shr_record m false false, e).
Proof.
  intros Hm He. unfold shr_fexp, shr_record_of_loc.
  assert (Hd : Zdigits2 m <= 53).
  { destruct (Z.eq_dec m 0) as [->|Hn]; [cbn; lia|].
    pose proof (Zdigits2_bounds m ltac:(lia)) as [Hlo _].
    assert (Zdigits2 m - 1 < 53); [|lia].
    apply (Z.pow_lt_mono_r_iff 2); lia. }
  rewrite fexp_eq.
  destruct (Z.max (Zdigits2 m + e - 53) (-1074) - e) as [|p|p] eqn:E; try reflexivity.
  lia.
Qed.

Lemma shr_fexp_carry e :
  -1074 <= e ->
  shr_fexp prec emax (2 ^ 53) e loc_Exact = (Build_shr_record (2 ^ 52) false false, e + 1).
Proof.
  intros He. unfold shr_fexp, shr_record_of_loc.
  change (Zdigits2 (2 ^ 53)) with 54. rewrite fexp_eq.
  replace (Z.max (54 + e - 53) (-1074) - e) with 1 by lia.
  reflexivity.
Qed.

Lemma round_between M e l B :
  0 <= M -> -1074 <= e -> e <= fexp prec emax (Zdigits2 M + e) ->
  wf B = true ->
  (M + loc_excess l) * 2 ^ (e + 1074) <= scaled B ->
  wf (binary_round_aux prec emax false M e l) = true /\
  scaled (binary_round_aux prec emax false M e l) <= scaled B /\
  forall A, wf A = true -> scaled A <= M * 2 ^ (e + 1074) ->
            scaled A <= scaled (binary_round_aux prec emax false M e l).
Proof.
  intros HM He Hfin HB Hup.
  unfold binary_round_aux.
  destruct (shr_fexp_spec M e l HM Hfin) as (y & -> & Hy0 & Hq & Hex).
  rewrite shr_record_of_loc_m in Hq, Hex. rewrite shr_record_of_loc_inexact in Hex.
  set (e1 := fexp prec emax (Zdigits2 M + e)) in *.
  set (k := e1 - e) in *.
  assert (Hk : 0 <= k) by (unfold k; lia).
  assert (He1 : -1074 <= e1) by (unfold e1; rewrite fexp_eq; lia).
  pose proof (round_nearest_even_bounds y) as [Hm2 Hm2ex]. cbn zeta in Hm2, Hm2ex.
  set (m2 := round_nearest_even (shr_m y) (loc_of_shr_record y)) in *.
  set (q := shr_m y) in *.
  pose proof (pow2_pos k Hk) as HK.
  pose proof (pow2_pos (e + 1074) ltac:(lia)) as HU.
  assert (Hw : e1 + 1074 = (e + 1074) + k) by (unfold k; lia).
  (* size of the truncated mantissa *)
  assert (Hq53 : q < 2 ^ 53).
  { rewrite Hq. apply Z.div_lt_upper_bound; [lia|].
    destruct (Z.eq_dec M 0) as [->|Hn]; [lia|].
    pose proof (Zdigits2_bounds M ltac:(lia)) as [_ Hhi].
    rewrite <- Z.pow_add_r by lia.
    assert (2 ^ Zdigits2 M <= 2 ^ (k + 53)); [|lia].
    apply Z.pow_le_mono_r; [lia|]. unfold k, e1. rewrite fexp_eq. lia. }
  assert (Hq52 : -1074 < e1 -> 2 ^ 52 <= q).
  { intros Hn. assert (HkM : k = Zdigits2 M - 53) by (unfold k, e1 in *; rewrite fexp_eq in *; lia).
    destruct (Z.eq_dec M 0) as [HM0|HM0].
    { exfalso. subst M. cbn in HkM. lia. }
    pose proof (Zdigits2_bounds M ltac:(lia)) as [Hlo _].
    rewrite Hq. apply Z.div_le_lower_bound; [lia|].
    rewrite <- Z.pow_add_r by lia. replace (k + 52) with (Zdigits2 M - 1) by lia. exact Hlo. }
  (* the rounded mantissa on the grid of B *)
  assert (Hupper : m2 * 2 ^ (e1 + 1074) <= scaled B).
  { assert (Hqle : q * 2 ^ (e1 + 1074) <= M * 2 ^ (e + 1074)).
    { rewrite Hw, Z.pow_add_r by lia.
      assert (q * 2 ^ k <= M) by (rewrite Hq, Z.mul_comm; apply Z.mul_div_le; lia).
      nia. }
    destruct (Z.eq_dec m2 q) as [->|Hne].
    { pose proof (Zle_0_pos 1). destruct l; cbn [loc_excess] in Hup; nia. }
    assert (Hm2q : m2 = q + 1) by lia. rewrite Hm2q.
    assert (Hstrict : q * 2 ^ (e1 + 1074) < scaled B).
    { destruct (Z.eq_dec (loc_excess l) 0) as [Hl0|Hl1].
      - assert (M <> 2 ^ k * q).
        { intros HMq. apply Hne, Hm2ex, Hex. split; assumption. }
        assert (q * 2 ^ k < M).
        { pose proof (Z.mul_div_le M (2 ^ k) HK). rewrite <- Hq in *. lia. }
        rewrite Hl0 in Hup. rewrite Hw, Z.pow_add_r by lia. nia.
      - assert (loc_excess l = 1) by (destruct l; cbn in *; lia). nia. }
    destruct (wf_inv B HB) as [->|(mB & eB & -> & HbB)].
    { cbn in Hstrict. pose proof (pow2_pos (e1 + 1074) ltac:(lia)). nia. }
    apply bounded_inv in HbB. destruct HbB as (HeB & HmB & _).
    unfold scaled in *; cbn [cond_Zopp] in *. apply above_grid; try lia. }
  assert (Hlower : forall A, wf A = true -> scaled A <= M * 2 ^ (e + 1074) ->
                             scaled A <= q * 2 ^ (e1 + 1074)).
  { intros A HA HAle.
    destruct (wf_inv A HA) as [->|(mA & eA & -> & HbA)].
    { cbn. pose proof (pow2_pos (e1 + 1074) ltac:(lia)). nia. }
    apply bounded_inv in HbA. destruct HbA as (HeA & HmA & _).
    unfold scaled in *; cbn [cond_Zopp] in *. rewrite Hw.
    apply below_grid with (M := M); try lia. }
  assert (Hm2W : forall A, wf A = true -> scaled A <= M * 2 ^ (e + 1074) ->
                             scaled A <= m2 * 2 ^ (e1 + 1074)).
  { intros A HA HAle. specialize (Hlower A HA HAle).
    pose proof (pow2_pos (e1 + 1074) ltac:(lia)). nia. }
  assert (Htop : forall m'' e'', 0 < m'' -> 2 ^ 52 <= m'' -> -1074 <= e'' ->
                 m'' * 2 ^ (e'' + 1074) <= scaled B -> e'' <= 971).
  { intros m'' e'' Hpos Hm'' He'' Hle.
    destruct (wf_inv B HB) as [->|(mB & eB & -> & HbB)].
    { cbn [scaled] in Hle. pose proof (pow2_pos (e'' + 1074) ltac:(lia)). nia. }
    apply bounded_inv in HbB. destruct HbB as (HeB & HmB & _).
    unfold scaled in Hle; cbn [cond_Zopp] in Hle.
    destruct (Z_le_gt_dec e'' eB) as [Hc|Hc]; [lia|].
    pose proof (grid_lt (Zpos mB) eB m'' e'' ltac:(lia) ltac:(lia) ltac:(lia) Hm''). lia. }
  (* assembling the result *)
  destruct (Z.eq_dec m2 (2 ^ 53)) as [Hc|Hc].
  - rewrite Hc in *. rewrite shr_fexp_carry by lia. cbn [shr_m].
    change (2 ^ 52) with (Zpos (Pos.pow 2 52)).
    assert (Hval : Zpos (2 ^ 52) * 2 ^ (e1 + 1 + 1074) = 2 ^ 53 * 2 ^ (e1 + 1074)).
    { replace (e1 + 1 + 1074) with (Z.succ (e1 + 1074)) by lia.
      rewrite Z.pow_succ_r by lia. change (2 ^ 53) with (2 * Zpos (2 ^ 52)). ring. }
    assert (He971 : e1 + 1 <= 971).
    { apply (Htop (Zpos (2 ^ 52))); [lia|reflexivity|lia|]. rewrite Hval. exact Hupper. }
    replace (e1 + 1 <=? emax - prec) with true by (symmetry; apply Z.leb_le; change (emax - prec) with 971; lia).
    split; [|split].
    + cbn [wf]. apply bounded_intro; [lia|reflexivity|intros _; reflexivity].
    + unfold scaled at 1; cbn [cond_Zopp]. rewrite Hval. exact Hupper.
    + intros A HA HAle. unfold scaled at 2; cbn [cond_Zopp]. rewrite Hval. apply Hm2W; assumption.
  - rewrite shr_fexp_small by lia. cbn [shr_m].
    destruct m2 as [|p|p] eqn:Em2; [| |lia].
    + split; [reflexivity|]. split; [apply wf_scaled_nonneg; exact HB|].
      intros A HA HAle. specialize (Hm2W A HA HAle). cbn. lia.
    + assert (He971 : e1 <= 971).
      { destruct (Z.eq_dec e1 (-1074)); [lia|].
        apply (Htop (Zpos p)); [lia| |lia|exact Hupper].
        specialize (Hq52 ltac:(lia)). lia. }
      replace (e1 <=? emax - prec) with true by (symmetry; apply Z.leb_le; change (emax - prec) with 971; lia).
      split; [|split].
      * cbn [wf]. apply bounded_intro; [lia|lia|]. intros Hn. specialize (Hq52 Hn). lia.
      * exact Hupper.
      * exact Hm2W.
Qed.

(** ** Order and conversions on well-formed floats *)

Lemma canonical_lt m1 e1 m2 e2 :
  bounded prec emax m1 e1 = true -> bounded prec emax m2 e2 = true ->
  e1 < e2 -> Zpos m1 * 2 ^ (e1 + 1074) < Zpos m2 * 2 ^ (e2 + 1074).
Proof.
  intros H1 H2 Hlt.
  apply bounded_inv in H1. destruct H1 as (He1 & Hm1 & _).
  apply bounded_inv in H2. destruct H2 as (He2 & _ & Hm2).
  specialize (Hm2 ltac:(lia)). apply grid_lt; lia.
Qed.

Lemma SFcompare_scaled x y :
  wf x = true -> wf y = true ->
  SFcompare x y = Some (scaled x ?= scaled y).
Proof.
  intros Hx Hy.
  destruct (wf_inv x Hx) as [->|(m1 & e1 & -> & H1)];
    destruct (wf_inv y Hy) as [->|(m2 & e2 & -> & H2)];
    unfold scaled; cbn [SFcompare cond_Zopp].
  - reflexivity.
  - pose proof (bounded_inv _ _ H2) as (He & _ & _).
    pose proof (pow2_pos (e2 + 1074) ltac:(lia)).
    f_equal. symmetry. apply Z.compare_lt_iff. nia.
  - pose proof (bounded_inv _ _ H1) as (He & _ & _).
    pose proof (pow2_pos (e1 + 1074) ltac:(lia)).
    f_equal. symmetry. apply Z.compare_gt_iff. nia.
  - f_equal. destruct (Z.compare_spec e1 e2) as [->|Hlt|Hgt].
    + pose proof (bounded_inv _ _ H1) as (He & _ & _).
      pose proof (pow2_pos (e2 + 1074) ltac:(lia)).
      change (Pos.compare_cont Eq m1 m2) with (Zpos m1 ?= Zpos m2).
      symmetry. destruct (Z.compare_spec (Zpos m1) (Zpos m2)) as [E|E|E].
      * rewrite E. apply Z.compare_refl.
      * apply Z.compare_lt_iff. apply Z.mul_lt_mono_pos_r; lia.
      * apply Z.compare_gt_iff. apply Z.mul_lt_mono_pos_r; lia.
    + symmetry. apply Z.compare_lt_iff. apply canonical_lt; assumption.
    + symmetry. apply Z.compare_gt_iff. apply canonical_lt; assumption.
Qed.

Lemma fltb_scaled x y :
  wf x = true -> wf y = true -> fltb x y = (scaled x <? scaled y).
Proof.
  intros Hx Hy. unfold fltb, SFltb, Z.ltb. rewrite (SFcompare_scaled x y Hx Hy).
  reflexivity.
Qed.

Lemma fleb_scaled x y :
  wf x = true -> wf y = true -> fleb x y = (scaled x <=? scaled y).
Proof.
  intros Hx Hy. unfold fleb, SFleb, Z.leb. rewrite (SFcompare_scaled x y Hx Hy).
  destruct (scaled x ?= scaled y); reflexivity.
Qed.

Lemma scaled_inj x y :
  wf x = true -> wf y = true -> scaled x = scaled y -> x = y.
Proof.
  intros Hx Hy E.
  pose proof (SFcompare_scaled x y Hx Hy) as Hc.
  rewrite E, Z.compare_refl in Hc.
  destruct (wf_inv x Hx) as [->|(m1 & e1 & -> & H1)];
    destruct (wf_inv y Hy) as [->|(m2 & e2 & -> & H2)];
    cbn [SFcompare] in Hc; try discriminate; try reflexivity.
  destruct (Z.compare_spec e1 e2) as [->|Hlt|Hgt]; try discriminate.
  injection Hc as Hc. apply Pos.compare_eq in Hc. subst. reflexivity.
Qed.

Lemma int_of_float_scaled x :
  wf x = true -> int_of_float x = Return (scaled x / 2 ^ 1074).
Proof.
  intros Hx. destruct (wf_inv x Hx) as [->|(m & e & -> & Hb)]; [reflexivity|].
  apply bounded_inv in Hb. destruct Hb as (He & _ & _).
  unfold int_of_float, scaled. cbn [cond_Zopp]. f_equal.
  destruct e as [|p|p].
  - rewrite Z.shiftl_0_r. change (0 + 1074) with 1074.
    rewrite Z.div_mul by (apply Z.pow_nonzero; lia). reflexivity.
  - rewrite Z.shiftl_mul_pow2 by lia. rewrite Z.pow_add_r by lia.
    rewrite Z.mul_assoc, Z.div_mul by (apply Z.pow_nonzero; lia). reflexivity.
  - rewrite Z.shiftr_div_pow2 by lia.
    rewrite (pow2_split 1074 (Zneg p + 1074)) by lia.
    replace (1074 - (Zneg p + 1074)) with (Zpos p) by lia.
    rewrite Z.div_mul_cancel_r; [reflexivity| |]; apply Z.pow_nonzero; lia.
Qed.

(** A value that is a float already is not changed by rounding. *)
Lemma round_exact M e B :
  0 <= M -> -1074 <= e -> e <= fexp prec emax (Zdigits2 M + e) ->
  wf B = true -> M * 2 ^ (e + 1074) = scaled B ->
  binary_round_aux prec emax false M e loc_Exact = B.
Proof.
  intros HM He Hf HB Hv.
  destruct (round_between M e loc_Exact B HM He Hf HB) as (Hw & Hle & Hge).
  { cbn [loc_excess]. rewrite Z.add_0_r. lia. }
  apply scaled_inj; [exact Hw|exact HB|].
  specialize (Hge B HB ltac:(lia)). lia.
Qed.

Lemma Pos_iter_xO m d : Zpos (Pos.iter xO m d) = Zpos m * 2 ^ Zpos d.
Proof.
  induction d as [|d IH] using Pos.peano_ind.
  - cbn [Pos.iter]. change (2 ^ 1) with 2. lia.
  - rewrite Pos.iter_succ, Pos2Z.inj_xO, IH, Pos2Z.inj_succ, Z.pow_succ_r by lia. ring.
Qed.

(** [float(n)] is exact below [2^53]. *)
Lemma of_int_exact n :
  0 <= n < 2 ^ 53 ->
  wf (of_int n) = true /\ scaled (of_int n) = n * 2 ^ 1074.
Proof.
  intros Hn. unfold of_int, binary_normalize.
  destruct n as [|p|p]; [split; reflexivity| |lia].
  unfold binary_round.
  pose proof (digits2_pos_bounds p) as [Hlo Hhi].
  set (d := Zpos (digits2_pos p)) in *.
  assert (Hd : 0 < d <= 53).
  { split; [unfold d; lia|]. assert (d - 1 < 53); [|lia].
    apply (Z.pow_lt_mono_r_iff 2); lia. }
  rewrite fexp_eq. replace (Z.max (d + 0 - 53) (-1074)) with (d - 53) by lia.
  unfold shl_align. replace (d - 53 - 0) with (d - 53) by lia.
  assert (Hcase : exists mz ez, (match d - 53 with
                     | Zneg k => (Pos.iter xO p k, d - 53)
                     | _ => (p, 0) end) = (mz, ez) /\
                  ez = d - 53 /\ Zpos mz * 2 ^ (53 - d) = Zpos p * 2 ^ (53 - d) * 2 ^ (53 - d) /\
                  Zpos mz = Zpos p * 2 ^ (53 - d)).
  { destruct (d - 53) as [|k|k] eqn:E; try lia.
    - exists p, 0. replace (53 - d) with 0 by lia. change (2 ^ 0) with 1.
      repeat split; lia.
    - exists (Pos.iter xO p k), (Zneg k). rewrite Pos_iter_xO.
      replace (53 - d) with (Zpos k) by lia. repeat split; lia. }
  destruct Hcase as (mz & ez & -> & Hez & _ & Hmz).
  pose proof (pow2_pos (53 - d) ltac:(lia)) as HP.
  assert (Hmz52 : 2 ^ 52 <= Zpos mz < 2 ^ 53).
  { rewrite Hmz. split.
    - replace 52 with ((d - 1) + (53 - d)) by lia. rewrite Z.pow_add_r by lia.
      apply Z.mul_le_mono_nonneg_r; lia.
    - replace 53 with (d + (53 - d)) at 2 by lia. rewrite Z.pow_add_r by lia.
      apply Z.mul_lt_mono_pos_r; lia. }
  assert (HwB : wf (S754_finite false mz ez) = true).
  { cbn [wf]. apply bounded_intro; lia. }
  assert (HsB : scaled (S754_finite false mz ez) = Zpos p * 2 ^ 1074).
  { unfold scaled; cbn [cond_Zopp]. rewrite Hmz, Hez.
    rewrite <- Z.mul_assoc, <- Z.pow_add_r by lia. do 2 f_equal. lia. }
  rewrite (round_exact (Zpos mz) ez (S754_finite false mz ez)); try assumption; try lia.
  - split; assumption.
  - rewrite fexp_eq. rewrite (Zdigits2_unique (Zpos mz) 53); lia.
  - reflexivity.
Qed.

Lemma of_int_finite n :
  0 < n < 2 ^ 53 ->
  exists mz ez, of_int n = S754_finite false mz ez /\
    bounded prec emax mz ez = true /\ -52 <= ez /\ 2 ^ 52 <= Zpos mz /\
    Zpos mz * 2 ^ (ez + 1021) = n * 2 ^ 1021.
Proof.
  intros Hn. destruct (of_int_exact n ltac:(lia)) as [Hw Hs].
  destruct (wf_inv _ Hw) as [E|(mz & ez & E & Hb)]; rewrite E in Hs.
  { cbn in Hs. pose proof (pow2_pos 1074 ltac:(lia)). nia. }
  exists mz, ez. split; [exact E|]. split; [exact Hb|].
  apply bounded_inv in Hb. destruct Hb as (He & Hm & Hm52).
  unfold scaled in Hs; cbn [cond_Zopp] in Hs.
  assert (Hez : -52 <= ez).
  { assert (1021 < ez + 1074); [|lia].
    apply (Z.pow_lt_mono_r_iff 2); [lia|lia|].
    pose proof (pow2_pos (ez + 1074) ltac:(lia)).
    change (2 ^ 1074) with (2 ^ 53 * 2 ^ 1021) in Hs.
    pose proof (pow2_pos 1021 ltac:(lia)). nia. }
  split; [exact Hez|]. split; [apply Hm52; lia|].
  replace (ez + 1074) with ((ez + 1021) + 53) in Hs by lia.
  rewrite Z.pow_add_r in Hs by lia.
  change (2 ^ 1074) with (2 ^ 1021 * 2 ^ 53) in Hs.
  rewrite !Z.mul_assoc in Hs. apply Z.mul_cancel_r in Hs; [exact Hs|lia].
Qed.

(** The product [n * c] of the percentile index lies between any two floats
    that enclose the exact product. *)
Lemma fmul_of_int_between n mc lo hi :
  0 < n < 2 ^ 53 -> 2 ^ 52 <= Zpos mc < 2 ^ 53 ->
  wf lo = true -> wf hi = true ->
  scaled lo <= n * Zpos mc * 2 ^ 1021 <= scaled hi ->
  wf (fmul (of_int n) (S754_finite false mc (-53))) = true /\
  scaled lo <= scaled (fmul (of_int n) (S754_finite false mc (-53))) <= scaled hi.
Proof.
  intros Hn Hmc Hlo Hhi [Hl Hh].
  destruct (of_int_finite n Hn) as (mz & ez & -> & Hb & Hez & Hmz & Hval).
  unfold fmul, SFmul. cbn [xorb].
  assert (HM : Zpos (mz * mc) * 2 ^ (ez + -53 + 1074) = n * Zpos mc * 2 ^ 1021).
  { rewrite Pos2Z.inj_mul. replace (ez + -53 + 1074) with (ez + 1021) by lia.
    transitivity (Zpos mc * (Zpos mz * 2 ^ (ez + 1021))); [ring|].
    rewrite Hval. ring. }
  destruct (round_between (Zpos (mz * mc)) (ez + -53) loc_Exact hi) as (Hw & Hle & Hge);
    try lia; try assumption.
  - rewrite fexp_eq.
    pose proof (Zdigits2_bounds (Zpos (mz * mc)) ltac:(lia)) as [_ Hd].
    assert (104 < Zdigits2 (Zpos (mz * mc))); [|lia].
    apply (Z.pow_lt_mono_r_iff 2); [lia|apply Zdigits2_nonneg|].
    rewrite Pos2Z.inj_mul in *. change (2 ^ 104) with (2 ^ 52 * 2 ^ 52). nia.
  - cbn [loc_excess]. rewrite Z.add_0_r, HM. exact Hh.
  - split; [exact Hw|]. split; [|exact Hle].
    apply Hge; [exact Hlo|]. rewrite HM. exact Hl.
Qed.

Lemma percentile_index_between n mc lo hi :
  0 < n < 2 ^ 53 -> 2 ^ 52 <= Zpos mc < 2 ^ 53 ->
  0 <= lo -> hi < 2 ^ 53 ->
  lo * 2 ^ 53 <= n * Zpos mc <= hi * 2 ^ 53 ->
  exists i, int_of_float (fmul (of_int n) (S754_finite false mc (-53))) = Return i /\
            lo <= i <= hi.
Proof.
  intros Hn Hmc Hlo Hhi [Hl Hh].
  assert (lo <= hi) by nia.
  destruct (of_int_exact lo ltac:(lia)) as [Hwl Hsl].
  destruct (of_int_exact hi ltac:(lia)) as [Hwh Hsh].
  pose proof (pow2_pos 1021 ltac:(lia)) as HP.
  destruct (fmul_of_int_between n mc (of_int lo) (of_int hi) Hn Hmc Hwl Hwh)
    as (Hw & Hge & Hle).
  { rewrite Hsl, Hsh. change (2 ^ 1074) with (2 ^ 53 * 2 ^ 1021).
    rewrite !Z.mul_assoc. split; apply Z.mul_le_mono_nonneg_r; lia. }
  rewrite (int_of_float_scaled _ Hw). eexists; split; [reflexivity|].
  rewrite Hsl in Hge. rewrite Hsh in Hle.
  pose proof (pow2_pos 1074 ltac:(lia)).
  split.
  - apply Z.div_le_lower_bound; lia.
  - apply Z.div_le_upper_bound; [lia|]. lia.
Qed.

(** The rounded quotient of [statistics.mean] stays between any two floats
    that enclose the exact quotient. *)
Lemma round_quotient_between t n lo hi :
  wf lo = true -> wf hi = true ->
  scaled lo * Zpos n <= t <= scaled hi * Zpos n ->
  wf (round_quotient t n) = true /\
  scaled lo <= scaled (round_quotient t n) <= scaled hi.
Proof.
  intros Hlo Hhi [Hl Hh].
  pose proof (wf_scaled_nonneg lo Hlo) as Hl0.
  pose proof (wf_scaled_nonneg hi Hhi) as Hh0.
  destruct t as [|p|p]; cbn [round_quotient].
  - split; [reflexivity|]. cbn [pzero scaled]. nia.
  - unfold fdiv, SFdiv, SFdiv_core_binary. cbn [xorb].
    rewrite fexp_eq.
    replace (Z.min (Z.max (Zdigits2 (Zpos p) + -1074 - (Zdigits2 (Zpos n) + 0) - 53) (-1074))
                   (-1074 - 0)) with (-1074) by lia.
    change (-1074 - 0 - -1074) with 0. cbv iota.
    pose proof (Z_div_mod (Zpos p) (Zpos n) ltac:(lia)) as Hdm.
    destruct (Z.div_eucl (Zpos p) (Zpos n)) as [q r]. destruct Hdm as [Hqr Hr].
    assert (Hq0 : 0 <= q) by nia.
    assert (Hloc : loc_excess (new_location (Zpos n) r) = 0 <-> r = 0).
    { unfold new_location, new_location_even, new_location_odd.
      destruct (Z.even (Zpos n)); destruct (Z.eqb_spec r 0); cbn [loc_excess];
        split; intros; try lia; try assumption; try reflexivity. }
    assert (Hex : 0 <= loc_excess (new_location (Zpos n) r) <= 1).
    { destruct (new_location (Zpos n) r); cbn; lia. }
    destruct (round_between q (-1074) (new_location (Zpos n) r) hi) as (Hw & Hle & Hge);
      try lia; try assumption.
    + rewrite fexp_eq. lia.
    + change (2 ^ (-1074 + 1074)) with 1. rewrite Z.mul_1_r.
      destruct (Z.eq_dec r 0) as [Hr0|Hr0].
      * assert (loc_excess (new_location (Zpos n) r) = 0) by (apply Hloc; exact Hr0). nia.
      * assert (q < scaled hi) by nia. lia.
    + split; [exact Hw|]. split; [|exact Hle].
      apply Hge; [exact Hlo|]. change (2 ^ (-1074 + 1074)) with 1. nia.
  - exfalso. pose proof (Pos2Z.neg_is_neg p). nia.
Qed.

(** ** Lists: [sorted], [min], [max], indexing *)

Lemma len_nonneg {A : Type} (l : list A) : 0 <= len l.
Proof. unfold len. lia. Qed.

Lemma len_cons {A : Type} (x : A) (l : list A) : len (x :: l) = len l + 1.
Proof. unfold len. cbn [List.length]. lia. Qed.

Lemma len_app {A : Type} (l1 l2 : list A) : len (l1 ++ l2) = len l1 + len l2.
Proof. unfold len. rewrite length_app. lia. Qed.

Lemma insert_perm x l : Permutation (insert x l) (x :: l).
Proof.
  induction l as [|y l IH]; cbn [insert]; [reflexivity|].
  destruct (fltb y x); [|reflexivity].
  rewrite IH. apply perm_swap.
Qed.

Lemma sorted_perm l : Permutation (sorted l) l.
Proof.
  induction l as [|x l IH]; cbn [sorted fold_right]; [reflexivity|].
  rewrite insert_perm. apply perm_skip. exact IH.
Qed.

Lemma sorted_len l : len (sorted l) = len l.
Proof. unfold len. rewrite (Permutation_length (sorted_perm l)). reflexivity. Qed.

Lemma sorted_wf l :
  Forall (fun x => wf x = true) l -> Forall (fun x => wf x = true) (sorted l).
Proof. intros H. eapply Permutation_Forall; [symmetry; apply sorted_perm|exact H]. Qed.

Lemma insert_ascending x l :
  wf x = true -> Forall (fun y => wf y = true) l ->
  StronglySorted (fun a b => scaled a <= scaled b) l ->
  StronglySorted (fun a b => scaled a <= scaled b) (insert x l).
Proof.
  intros Hx Hl Hs. induction Hs as [|y l Hs IH Hy]; cbn [insert].
  - constructor; constructor.
  - inversion Hl as [|? ? Hwy Hwl]; subst.
    rewrite (fltb_scaled y x Hwy Hx). destruct (Z.ltb_spec (scaled y) (scaled x)) as [Hlt|Hge].
    + constructor; [apply IH; exact Hwl|].
      eapply Permutation_Forall; [symmetry; apply insert_perm|].
      constructor; [lia|exact Hy].
    + constructor; [constructor; assumption|].
      constructor; [exact Hge|].
      eapply Forall_impl; [|exact Hy]. cbn; intros; lia.
Qed.

Lemma sorted_ascending l :
  Forall (fun x => wf x = true) l ->
  StronglySorted (fun a b => scaled a <= scaled b) (sorted l).
Proof.
  induction l as [|x l IH]; intros H; cbn [sorted fold_right]; [constructor|].
  inversion H; subst. apply insert_ascending; auto. apply sorted_wf; assumption.
Qed.

Lemma ascending_nth l :
  StronglySorted (fun a b => scaled a <= scaled b) l ->
  forall i j a b, (i <= j)%nat ->
    nth_error l i = Some a -> nth_error l j = Some b -> scaled a <= scaled b.
Proof.
  induction 1 as [|x l Hs IH Hx]; intros i j a b Hij Ha Hb.
  - destruct i; discriminate.
  - destruct i as [|i], j as [|j]; cbn [nth_error] in *; try lia.
    + injection Ha as <-. injection Hb as <-. lia.
    + injection Ha as <-. apply nth_error_In in Hb.
      rewrite Forall_forall in Hx. apply Hx; exact Hb.
    + eapply IH; [|exact Ha|exact Hb]. lia.
Qed.

Lemma getitem_nonneg {A : Type} (l : list A) i :
  0 <= i < len l ->
  exists x, getitem l i = Return x /\ nth_error l (Z.to_nat i) = Some x.
Proof.
  intros Hi. unfold getitem.
  destruct (Z.ltb_spec i 0); [lia|].
  destruct (Z.ltb_spec i 0); [lia|].
  destruct (Z.leb_spec (len l) i); [lia|]. cbn [orb].
  destruct (nth_error l (Z.to_nat i)) as [x|] eqn:E; [eauto|].
  apply nth_error_None in E. unfold len in *. lia.
Qed.

Lemma getitem_last {A : Type} (l : list A) :
  l <> [] ->
  exists x, getitem l (-1) = Return x /\ nth_error l (List.length l - 1) = Some x.
Proof.
  intros Hne. unfold getitem. cbn [Z.ltb Z.compare].
  assert (0 < len l) by (destruct l; [congruence|rewrite len_cons; pose proof (len_nonneg l); lia]).
  destruct (Z.ltb_spec (-1 + len l) 0); [lia|].
  destruct (Z.leb_spec (len l) (-1 + len l)); [lia|]. cbn [orb].
  replace (Z.to_nat (-1 + len l)) with (List.length l - 1)%nat by (unfold len in *; lia).
  destruct (nth_error l (List.length l - 1)) as [x|] eqn:E; [eauto|].
  apply nth_error_None in E. unfold len in *. lia.
Qed.

Lemma fold_min_spec l : forall m,
  wf m = true -> Forall (fun x => wf x = true) l ->
  let r := fold_left (fun m y => if fltb y m then y else m) l m in
  In r (m :: l) /\ forall x, In x (m :: l) -> scaled r <= scaled x.
Proof.
  induction l as [|y l IH]; intros m Hm Hl; cbn [fold_left].
  - split; [left; reflexivity|]. intros x [<-|[]]. lia.
  - inversion Hl as [|? ? Hy Hl']; subst.
    rewrite (fltb_scaled y m Hy Hm).
    destruct (Z.ltb_spec (scaled y) (scaled m)) as [Hlt|Hge].
    + destruct (IH y Hy Hl') as [Hin Hle]. split.
      * destruct Hin as [<-|Hin]; [right; left; reflexivity|right; right; exact Hin].
      * intros x [<-|[<-|Hx]].
        -- specialize (Hle y (or_introl eq_refl)). lia.
        -- apply Hle. left; reflexivity.
        -- apply Hle. right; exact Hx.
    + destruct (IH m Hm Hl') as [Hin Hle]. split.
      * destruct Hin as [<-|Hin]; [left; reflexivity|right; right; exact Hin].
      * intros x [<-|[<-|Hx]].
        -- apply Hle. left; reflexivity.
        -- specialize (Hle m (or_introl eq_refl)). lia.
        -- apply Hle. right; exact Hx.
Qed.

Lemma fold_max_spec l : forall m,
  wf m = true -> Forall (fun x => wf x = true) l ->
  let r := fold_left (fun m y => if fltb m y then y else m) l m in
  In r (m :: l) /\ forall x, In x (m :: l) -> scaled x <= scaled r.
Proof.
  induction l as [|y l IH]; intros m Hm Hl; cbn [fold_left].
  - split; [left; reflexivity|]. intros x [<-|[]]. lia.
  - inversion Hl as [|? ? Hy Hl']; subst.
    rewrite (fltb_scaled m y Hm Hy).
    destruct (Z.ltb_spec (scaled m) (scaled y)) as [Hlt|Hge].
    + destruct (IH y Hy Hl') as [Hin Hle]. split.
      * destruct Hin as [<-|Hin]; [right; left; reflexivity|right; right; exact Hin].
      * intros x [<-|[<-|Hx]].
        -- specialize (Hle y (or_introl eq_refl)). lia.
        -- apply Hle. left; reflexivity.
        -- apply Hle. right; exact Hx.
    + destruct (IH m Hm Hl') as [Hin Hle]. split.
      * destruct Hin as [<-|Hin]; [left; reflexivity|right; right; exact Hin].
      * intros x [<-|[<-|Hx]].
        -- apply Hle. left; reflexivity.
        -- specialize (Hle m (or_introl eq_refl)). lia.
        -- apply Hle. right; exact Hx.
Qed.

Lemma py_min_spec l :
  l <> [] -> Forall (fun x => wf x = true) l ->
  exists m, py_min l = Return m /\ In m l /\ forall x, In x l -> scaled m <= scaled x.
Proof.
  intros Hne Hl. destruct l as [|x l]; [congruence|].
  inversion Hl; subst. eexists; split; [reflexivity|].
  apply fold_min_spec; assumption.
Qed.

Lemma py_max_spec l :
  l <> [] -> Forall (fun x => wf x = true) l ->
  exists m, py_max l = Return m /\ In m l /\ forall x, In x l -> scaled x <= scaled m.
Proof.
  intros Hne Hl. destruct l as [|x l]; [congruence|].
  inversion Hl; subst. eexists; split; [reflexivity|].
  apply fold_max_spec; assumption.
Qed.

Lemma In_wf l x : Forall (fun x => wf x = true) l -> In x l -> wf x = true.
Proof. intros H Hin. rewrite Forall_forall in H. apply H; exact Hin. Qed.

(** The last element of the sorted list is [max(l)], the first is [min(l)]. *)
Lemma sorted_last_is_max l m :
  Forall (fun x => wf x = true) l -> py_max l = Return m ->
  getitem (sorted l) (-1) = Return m.
Proof.
  intros Hl Hm.
  assert (Hne : l <> []) by (intros ->; discriminate).
  destruct (py_max_spec l Hne Hl) as (m' & Hm' & Hin & Hmax).
  rewrite Hm in Hm'. injection Hm' as <-.
  assert (Hsne : sorted l <> []).
  { intros E. apply Hne. apply Permutation_nil. rewrite <- E. apply sorted_perm. }
  destruct (getitem_last (sorted l) Hsne) as (b & -> & Hb). f_equal.
  pose proof (sorted_perm l) as Hp.
  assert (Hbl : In b l) by (eapply Permutation_in; [exact Hp|eapply nth_error_In; exact Hb]).
  apply scaled_inj; [eapply In_wf; eassumption|eapply In_wf; eassumption|].
  apply Z.le_antisymm; [apply Hmax; exact Hbl|].
  assert (Hms : In m (sorted l)) by (eapply Permutation_in; [symmetry; exact Hp|exact Hin]).
  apply In_nth_error in Hms. destruct Hms as [i Hi].
  eapply (ascending_nth (sorted l) (sorted_ascending l Hl) i (List.length (sorted l) - 1));
    [|exact Hi|exact Hb].
  assert (i < List.length (sorted l))%nat by (apply nth_error_Some; congruence). lia.
Qed.

(** Two sorted lists with the same elements are the same list. *)
Lemma ascending_unique l1 : forall l2,
  Forall (fun x => wf x = true) l1 ->
  StronglySorted (fun a b => scaled a <= scaled b) l1 ->
  StronglySorted (fun a b => scaled a <= scaled b) l2 ->
  Permutation l1 l2 -> l1 = l2.
Proof.
  induction l1 as [|a l1 IH]; intros l2 Hw H1 H2 Hp.
  - apply Permutation_nil in Hp. congruence.
  - destruct l2 as [|b l2]; [symmetry in Hp; apply Permutation_nil in Hp; discriminate|].
    inversion H1 as [|? ? Hs1 Ha]; subst. inversion H2 as [|? ? Hs2 Hb]; subst.
    inversion Hw as [|? ? Hwa Hw1]; subst.
    assert (Hw2 : Forall (fun x => wf x = true) (b :: l2)) by (eapply Permutation_Forall; eassumption).
    inversion Hw2 as [|? ? Hwb _]; subst.
    rewrite Forall_forall in Ha, Hb.
    assert (Hab : a = b).
    { apply scaled_inj; try assumption. apply Z.le_antisymm.
      - assert (Hin : In b (a :: l1)) by (eapply Permutation_in; [symmetry; exact Hp|left; reflexivity]).
        destruct Hin as [->|Hin]; [lia|apply Ha; exact Hin].
      - assert (Hin : In a (b :: l2)) by (eapply Permutation_in; [exact Hp|left; reflexivity]).
        destruct Hin as [->|Hin]; [lia|apply Hb; exact Hin]. }
    subst b. f_equal. apply IH; try assumption.
    eapply Permutation_cons_inv; exact Hp.
Qed.

Lemma sorted_permutation_invariant l1 l2 :
  Forall (fun x => wf x = true) l1 -> Permutation l1 l2 -> sorted l1 = sorted l2.
Proof.
  intros Hw Hp.
  assert (Hw2 : Forall (fun x => wf x = true) l2) by (eapply Permutation_Forall; eassumption).
  apply ascending_unique.
  - apply sorted_wf; exact Hw.
  - apply sorted_ascending; exact Hw.
  - apply sorted_ascending; exact Hw2.
  - rewrite (sorted_perm l1), (sorted_perm l2). exact Hp.
Qed.

Lemma exact_sum_permutation l1 l2 :
  Permutation l1 l2 -> exact_sum l1 = exact_sum l2.
Proof.
  unfold exact_sum. induction 1; cbn [fold_right]; lia.
Qed.

(** ** The percentile indices [int(n * c)] *)

Ltac pow53 :=
  change (2 ^ 53) with 9007199254740992 in *;
  change (2 ^ 52) with 4503599627370496 in *.

Ltac div53 := pow53; Z.to_euclidean_division_equations; lia.

Lemma index50_exact n :
  0 < n < 2 ^ 53 -> int_of_float (fmul (of_int n) c050) = Return (n / 2).
Proof.
  intros Hn.
  destruct (of_int_finite n Hn) as (mz & ez & E & Hb & Hez & Hmz & Hval).
  set (h := S754_finite false mz (ez - 1)).
  apply bounded_inv in Hb. destruct Hb as (He & Hm53 & _).
  assert (Hwh : wf h = true) by (cbn [wf h]; apply bounded_intro; lia).
  assert (Hsh : scaled h = n * 2 ^ 1073).
  { unfold h, scaled; cbn [cond_Zopp].
    replace (ez - 1 + 1074) with ((ez + 1021) + 52) by lia.
    rewrite Z.pow_add_r, Z.mul_assoc, Hval by lia.
    change (2 ^ 1073) with (2 ^ 1021 * 2 ^ 52). ring. }
  assert (Hmc : 2 ^ 52 <= Zpos 4503599627370496 < 2 ^ 53) by (pow53; lia).
  destruct (fmul_of_int_between n 4503599627370496 h h Hn Hmc Hwh Hwh) as (Hw & Hge & Hle).
  { rewrite Hsh. change (2 ^ 1073) with (4503599627370496 * 2 ^ 1021). lia. }
  change (S754_finite false 4503599627370496 (-53)) with c050 in *.
  rewrite (int_of_float_scaled _ Hw). f_equal.
  replace (scaled (fmul (of_int n) c050)) with (n * 2 ^ 1073) by lia.
  change (2 ^ 1074) with (2 * 2 ^ 1073).
  rewrite Z.div_mul_cancel_r; [reflexivity|lia|]. apply Z.pow_nonzero; lia.
Qed.

Lemma index95_bounds n :
  20 <= n < 2 ^ 53 ->
  exists i, int_of_float (fmul (of_int n) c095) = Return i /\
            n / 2 <= i <= n - 1 /\ i <= n * 8556839292003942 / 2 ^ 53 + 1.
Proof.
  intros Hn.
  assert (Hmc : 2 ^ 52 <= Zpos 8556839292003942 < 2 ^ 53) by (pow53; lia).
  destruct (percentile_index_between n 8556839292003942
              (n * 8556839292003942 / 2 ^ 53) (n - 1)) as (i & Hi & Hlo & Hhi);
    try exact Hmc; try div53.
  destruct (percentile_index_between n 8556839292003942
              (n * 8556839292003942 / 2 ^ 53) (n * 8556839292003942 / 2 ^ 53 + 1))
    as (i' & Hi' & Hlo' & Hhi'); try exact Hmc; try div53.
  change (S754_finite false 8556839292003942 (-53)) with c095 in *.
  rewrite Hi in Hi'. injection Hi' as <-.
  exists i. split; [exact Hi|]. div53.
Qed.

Lemma index99_bounds n :
  100 <= n < 2 ^ 53 ->
  exists i, int_of_float (fmul (of_int n) c099) = Return i /\
            n * 8556839292003942 / 2 ^ 53 + 1 <= i <= n - 1.
Proof.
  intros Hn.
  assert (Hmc : 2 ^ 52 <= Zpos 8917127262193582 < 2 ^ 53) by (pow53; lia).
  destruct (percentile_index_between n 8917127262193582
              (n * 8917127262193582 / 2 ^ 53) (n - 1)) as (i & Hi & Hlo & Hhi);
    try exact Hmc; try div53.
  change (S754_finite false 8917127262193582 (-53)) with c099 in *.
  exists i. split; [exact Hi|]. div53.
Qed.

(** ** [statistics.mean] *)

Lemma exact_sum_between l lo hi :
  (forall x, In x l -> lo <= scaled x <= hi) ->
  lo * len l <= exact_sum l <= hi * len l.
Proof.
  induction l as [|x l IH]; intros H; cbn [exact_sum fold_right].
  - unfold len; cbn. lia.
  - rewrite len_cons. fold (exact_sum l).
    specialize (IH (fun y Hy => H y (or_intror Hy))).
    specialize (H x (or_introl eq_refl)). lia.
Qed.

Lemma wf_is_finite l :
  Forall (fun x => wf x = true) l -> filter (fun x => negb (is_finite x)) l = [].
Proof.
  induction 1 as [|x l Hx _ IH]; [reflexivity|]. cbn [filter].
  destruct x as [[|]|[|]| |[|] m e]; cbn in Hx |- *; try discriminate; exact IH.
Qed.

Lemma mean_returns l : l <> [] -> exists a, mean l = Return a.
Proof.
  intros Hne. destruct l as [|x l]; [congruence|]. unfold mean.
  destruct (filter _ (x :: l)); eauto.
Qed.

Lemma mean_wf l :
  l <> [] -> Forall (fun x => wf x = true) l ->
  mean l = Return (round_quotient (exact_sum l) (Pos.of_nat (List.length l))).
Proof.
  intros Hne Hl. destruct l as [|x l]; [congruence|]. unfold mean.
  rewrite (wf_is_finite _ Hl). reflexivity.
Qed.

Lemma mean_between l lo hi :
  l <> [] -> Forall (fun x => wf x = true) l ->
  wf lo = true -> wf hi = true ->
  (forall x, In x l -> scaled lo <= scaled x <= scaled hi) ->
  exists a, mean l = Return a /\ wf a = true /\ scaled lo <= scaled a <= scaled hi.
Proof.
  intros Hne Hl Hlo Hhi Hb. rewrite (mean_wf l Hne Hl). eexists; split; [reflexivity|].
  apply round_quotient_between; try assumption.
  assert (Hlen : Zpos (Pos.of_nat (List.length l)) = len l).
  { unfold len. destruct l as [|x l]; [congruence|]. cbn [List.length]. lia. }
  rewrite Hlen. apply exact_sum_between. exact Hb.
Qed.

(** ** [calculate_stats] on a non-empty successful subset *)

Lemma successful_latencies_len results :
  len (successful_latencies results) = len (filter success results).
Proof. unfold successful_latencies, len. rewrite length_map. reflexivity. Qed.

Lemma nth_error_lt {A : Type} (l : list A) i :
  0 <= i < len l -> exists x, nth_error l (Z.to_nat i) = Some x.
Proof.
  intros Hi. destruct (nth_error l (Z.to_nat i)) as [x|] eqn:E; [eauto|].
  apply nth_error_None in E. unfold len in *. lia.
Qed.

Lemma percentile_at l n c i :
  int_of_float (fmul (of_int n) c) = Return i -> 0 <= i < len l ->
  exists p, percentile l n c = Return p /\ nth_error l (Z.to_nat i) = Some p.
Proof.
  intros Hi Hr. unfold percentile. rewrite Hi. cbn [bind].
  apply getitem_nonneg. exact Hr.
Qed.

Lemma calculate_stats_nonempty alg results :
  let latencies := successful_latencies results in
  let n := len latencies in
  latencies <> [] -> n < 2 ^ 53 ->
  exists v_min v_max v_avg v_p50 v_p95 v_p99,
    py_min latencies = Return v_min /\
    py_max latencies = Return v_max /\
    mean latencies = Return v_avg /\
    nth_error (sorted latencies) (Z.to_nat (n / 2)) = Some v_p50 /\
    (20 <= n -> exists i, int_of_float (fmul (of_int n) c095) = Return i /\
                n / 2 <= i <= n - 1 /\ i <= n * 8556839292003942 / 2 ^ 53 + 1 /\
                nth_error (sorted latencies) (Z.to_nat i) = Some v_p95) /\
    (n < 20 -> getitem (sorted latencies) (-1) = Return v_p95) /\
    (100 <= n -> exists i, int_of_float (fmul (of_int n) c099) = Return i /\
                n * 8556839292003942 / 2 ^ 53 + 1 <= i <= n - 1 /\
                nth_error (sorted latencies) (Z.to_nat i) = Some v_p99) /\
    (n < 100 -> getitem (sorted latencies) (-1) = Return v_p99) /\
    calculate_stats alg results =
      (v_throughput <- throughput alg (filter success results) latencies ;;
       Return [ ("total", VInt (len results));
                ("success", VInt (len (filter success results)));
                ("errors", VInt (len results - len (filter success results)));
                ("min", VFloat v_min);
                ("max", VFloat v_max);
                ("avg", VFloat v_avg);
                ("p50", VFloat v_p50);
                ("p95", VFloat v_p95);
                ("p99", VFloat v_p99);
                ("throughput", v_throughput) ]%string).
Proof.
  intros latencies n Hne Hn.
  assert (Hn0 : 0 < n).
  { unfold n. destruct latencies; [congruence|]. rewrite len_cons.
    pose proof (len_nonneg latencies). lia. }
  assert (Hsn : len (sorted latencies) = n) by apply sorted_len.
  assert (Hsne : sorted latencies <> []).
  { intros E. rewrite E in Hsn. cbn in Hsn. lia. }
  destruct (mean_returns latencies Hne) as (v_avg & Havg).
  destruct (percentile_at (sorted latencies) n c050 (n / 2)) as (v_p50 & Hp50 & Hn50).
  { apply index50_exact. lia. }
  { rewrite Hsn. Z.to_euclidean_division_equations; lia. }
  destruct (getitem_last (sorted latencies) Hsne) as (v_last & Hlast & _).
  assert (H95 : exists v_p95,
            (if 20 <=? n then percentile (sorted latencies) n c095
             else getitem (sorted latencies) (-1)) = Return v_p95 /\
            (20 <= n -> exists i, int_of_float (fmul (of_int n) c095) = Return i /\
                n / 2 <= i <= n - 1 /\ i <= n * 8556839292003942 / 2 ^ 53 + 1 /\
                nth_error (sorted latencies) (Z.to_nat i) = Some v_p95) /\
            (n < 20 -> getitem (sorted latencies) (-1) = Return v_p95)).
  { destruct (Z.leb_spec 20 n) as [H20|H20].
    - destruct (index95_bounds n ltac:(lia)) as (i & Hi & Hr & Hk).
      destruct (percentile_at (sorted latencies) n c095 i Hi) as (p & Hp & Hnth).
      { rewrite Hsn. Z.to_euclidean_division_equations; lia. }
      exists p. split; [exact Hp|]. split; [|lia]. intros _. exists i. auto.
    - exists v_last. split; [exact Hlast|]. split; [lia|auto]. }
  assert (H99 : exists v_p99,
            (if 100 <=? n then percentile (sorted latencies) n c099
             else getitem (sorted latencies) (-1)) = Return v_p99 /\
            (100 <= n -> exists i, int_of_float (fmul (of_int n) c099) = Return i /\
                n * 8556839292003942 / 2 ^ 53 + 1 <= i <= n - 1 /\
                nth_error (sorted latencies) (Z.to_nat i) = Some v_p99) /\
            (n < 100 -> getitem (sorted latencies) (-1) = Return v_p99)).
  { destruct (Z.leb_spec 100 n) as [H100|H100].
    - destruct (index99_bounds n ltac:(lia)) as (i & Hi & Hr).
      destruct (percentile_at (sorted latencies) n c099 i Hi) as (p & Hp & Hnth).
      { rewrite Hsn. pow53. Z.to_euclidean_division_equations; lia. }
      exists p. split; [exact Hp|]. split; [|lia]. intros _. exists i. auto.
    - exists v_last. split; [exact Hlast|]. split; [lia|auto]. }
  destruct H95 as (v_p95 & E95 & H95a & H95b).
  destruct H99 as (v_p99 & E99 & H99a & H99b).
  unfold calculate_stats. fold (successful_latencies results). fold latencies.
  rewrite Hsn. fold n.
  destruct latencies as [|x0 l0] eqn:El; [congruence|].
  rewrite <- El in *.
  assert (Hmin : exists v, py_min latencies = Return v) by (rewrite El; cbn; eauto).
  assert (Hmax : exists v, py_max latencies = Return v) by (rewrite El; cbn; eauto).
  destruct Hmin as (v_min & Hmin). destruct Hmax as (v_max & Hmax).
  exists v_min, v_max, v_avg, v_p50, v_p95, v_p99.
  rewrite Hmin, Hmax, Havg, Hp50, E95, E99. cbn [bind].
  repeat (split; [first [assumption | reflexivity]|]). reflexivity.
Qed.

Lemma ascending_of_scaled l :
  Forall (fun x => wf x = true) l ->
  StronglySorted (fun a b => scaled a <= scaled b) l -> ascending l.
Proof.
  unfold ascending. intros Hw Hs. induction Hs as [|x l Hs IH Hx].
  - constructor.
  - inversion Hw as [|? ? Hwx Hwl]; subst. constructor; [apply IH; exact Hwl|].
    rewrite Forall_forall in *. intros y Hy.
    rewrite (fleb_scaled x y Hwx (Hwl y Hy)). apply Z.leb_le. apply Hx; exact Hy.
Qed.

Lemma nth_error_sorted_In l i x :
  nth_error (sorted l) i = Some x -> In x l.
Proof.
  intros H. eapply Permutation_in; [apply sorted_perm|]. eapply nth_error_In; exact H.
Qed.

Lemma calculate_stats_wf alg results v_throughput :
  let latencies := successful_latencies results in
  let n := len latencies in
  Forall (fun x => wf x = true) latencies ->
  0 < n < 2 ^ 53 ->
  throughput alg (filter success results) latencies = Return v_throughput ->
  exists v_min v_max v_avg v_p50 v_p95 v_p99 (i50 i95 i99 : nat),
    calculate_stats alg results =
      Return [ ("total", VInt (len results));
               ("success", VInt (len (filter success results)));
               ("errors", VInt (len results - len (filter success results)));
               ("min", VFloat v_min);
               ("max", VFloat v_max);
               ("avg", VFloat v_avg);
               ("p50", VFloat v_p50);
               ("p95", VFloat v_p95);
               ("p99", VFloat v_p99);
               ("throughput", v_throughput) ]%string /\
    py_min latencies = Return v_min /\
    py_max latencies = Return v_max /\
    mean latencies = Return v_avg /\
    nth_error (sorted latencies) i50 = Some v_p50 /\
    nth_error (sorted latencies) i95 = Some v_p95 /\
    nth_error (sorted latencies) i99 = Some v_p99 /\
    (i50 <= i95 <= i99)%nat /\
    Z.of_nat i50 = n / 2 /\
    int_of_float (fmul (of_int n) c050) = Return (Z.of_nat i50) /\
    (20 <= n -> int_of_float (fmul (of_int n) c095) = Return (Z.of_nat i95)) /\
    (n < 20 -> Z.of_nat i95 = n - 1 /\ v_p95 = v_max) /\
    (100 <= n -> int_of_float (fmul (of_int n) c099) = Return (Z.of_nat i99)) /\
    (n < 100 -> Z.of_nat i99 = n - 1 /\ v_p99 = v_max) /\
    wf v_avg = true /\ scaled v_min <= scaled v_avg <= scaled v_max.
Proof.
  intros latencies n Hw Hn Hthr.
  assert (Hne : latencies <> []).
  { intros E. unfold n in Hn. rewrite E in Hn. cbn in Hn. lia. }
  destruct (calculate_stats_nonempty alg results Hne ltac:(fold latencies; fold n; lia))
    as (v_min & v_max & v_avg & v_p50 & v_p95 & v_p99 & Hmin & Hmax & Havg & H50 &
        H95a & H95b & H99a & H99b & Heq).
  fold latencies in Hmin, Hmax, Havg, H50, H95a, H95b, H99a, H99b, Heq.
  fold n in H50, H95a, H95b, H99a, H99b.
  rewrite Hthr in Heq. cbn [bind] in Heq.
  pose proof (sorted_last_is_max latencies v_max Hw Hmax) as Hlastmax.
  assert (Hsne : sorted latencies <> []).
  { intros E. pose proof (sorted_len latencies) as L. rewrite E in L. fold n in L. cbn in L. lia. }
  destruct (getitem_last (sorted latencies) Hsne) as (v_last & Hlast & Hlastn).
  rewrite Hlastmax in Hlast. injection Hlast as <-.
  assert (Hslen : Z.of_nat (List.length (sorted latencies)) = n) by apply sorted_len.
  destruct (py_min_spec latencies Hne Hw) as (m1 & Hm1 & Hminin & Hminle).
  rewrite Hmin in Hm1. injection Hm1 as <-.
  destruct (py_max_spec latencies Hne Hw) as (m2 & Hm2 & Hmaxin & Hmaxle).
  rewrite Hmax in Hm2. injection Hm2 as <-.
  destruct (mean_between latencies v_min v_max Hne Hw) as (a & Ha & Hwa & Hab).
  { eapply In_wf; eassumption. }
  { eapply In_wf; eassumption. }
  { intros x Hx. split; [apply Hminle|apply Hmaxle]; exact Hx. }
  rewrite Havg in Ha. injection Ha as <-.
  (* the positions of p95 and p99 *)
  assert (P95 : exists i95 : nat,
            nth_error (sorted latencies) i95 = Some v_p95 /\
            n / 2 <= Z.of_nat i95 <= n - 1 /\
            (20 <= n -> int_of_float (fmul (of_int n) c095) = Return (Z.of_nat i95) /\
                        Z.of_nat i95 <= n * 8556839292003942 / 2 ^ 53 + 1) /\
            (n < 20 -> Z.of_nat i95 = n - 1 /\ v_p95 = v_max)).
  { destruct (Z_le_gt_dec 20 n) as [H20|H20].
    - destruct (H95a H20) as (i & Hi & Hr & Hk & Hnth).
      exists (Z.to_nat i). rewrite Z2Nat.id by (Z.to_euclidean_division_equations; lia).
      repeat split; try assumption; try lia.
    - specialize (H95b ltac:(lia)). rewrite Hlastmax in H95b. injection H95b as <-.
      exists (List.length (sorted latencies) - 1)%nat.
      split; [exact Hlastn|]. split; [Z.to_euclidean_division_equations; lia|].
      split; [lia|]. intros _. split; [lia|reflexivity]. }
  assert (P99 : exists i99 : nat,
            nth_error (sorted latencies) i99 = Some v_p99 /\
            Z.of_nat i99 <= n - 1 /\
            (100 <= n -> int_of_float (fmul (of_int n) c099) = Return (Z.of_nat i99) /\
                         n * 8556839292003942 / 2 ^ 53 + 1 <= Z.of_nat i99) /\
            (n < 100 -> Z.of_nat i99 = n - 1 /\ v_p99 = v_max)).
  { destruct (Z_le_gt_dec 100 n) as [H100|H100].
    - destruct (H99a H100) as (i & Hi & Hr & Hnth).
      exists (Z.to_nat i). rewrite Z2Nat.id by (pow53; Z.to_euclidean_division_equations; lia).
      repeat split; try assumption; try lia.
    - specialize (H99b ltac:(lia)). rewrite Hlastmax in H99b. injection H99b as <-.
      exists (List.length (sorted latencies) - 1)%nat.
      split; [exact Hlastn|]. split; [lia|].
      split; [lia|]. intros _. split; [lia|reflexivity]. }
  destruct P95 as (i95 & N95 & R95 & A95 & B95).
  destruct P99 as (i99 & N99 & R99 & A99 & B99).
  exists v_min, v_max, v_avg, v_p50, v_p95, v_p99, (Z.to_nat (n / 2)), i95, i99.
  assert (Hhalf : Z.of_nat (Z.to_nat (n / 2)) = n / 2)
    by (apply Z2Nat.id; Z.to_euclidean_division_equations; lia).
  rewrite Hhalf.
  split; [exact Heq|]. do 3 (split; [assumption|]).
  split; [exact H50|]. split; [exact N95|]. split; [exact N99|].
  split.
  { split; [lia|]. destruct (Z_le_gt_dec 100 n) as [H100|H100].
    - destruct (A99 H100) as [_ Hlo]. destruct (A95 ltac:(lia)) as [_ Hhi]. lia.
    - destruct (B99 ltac:(lia)) as [E _]. lia. }
  split; [reflexivity|].
  split; [apply index50_exact; lia|].
  split; [intros H; apply A95; exact H|].
  split; [exact B95|].
  split; [intros H; apply A99; exact H|].
  split; [exact B99|].
  split; assumption.
Qed.

(** * The claims about [calculate_stats] *)

Lemma index_agrees_small :
  forallb (fun n => index_agrees c050 50 n && index_agrees c095 95 n && index_agrees c099 99 n)
          (seq 1 1000) = true.
Proof. vm_compute. reflexivity. Qed.

Lemma index_exact_small n c p :
  0 < n <= 1000 -> In (c, p) [(c050, 50); (c095, 95); (c099, 99)] ->
  int_of_float (fmul (of_int n) c) = Return (n * p / 100).
Proof.
  intros Hn Hc.
  pose proof index_agrees_small as H. rewrite forallb_forall in H.
  specialize (H (Z.to_nat n)). rewrite in_seq in H. specialize (H ltac:(lia)).
  rewrite !andb_true_iff in H. destruct H as [[H50 H95] H99].
  unfold index_agrees in *. rewrite Z2Nat.id in * by lia.
  destruct Hc as [E|[E|[E|[]]]]; injection E as <- <-.
  - destruct (int_of_float (fmul (of_int n) c050));
      [apply Z.eqb_eq in H50; congruence|discriminate].
  - destruct (int_of_float (fmul (of_int n) c095));
      [apply Z.eqb_eq in H95; congruence|discriminate].
  - destruct (int_of_float (fmul (of_int n) c099));
      [apply Z.eqb_eq in H99; congruence|discriminate].
Qed.

Lemma field_lookup d k x : lookup k d = Some (VFloat x) -> field d k = Some x.
Proof. unfold field. intros ->. reflexivity. Qed.

(** X22.  Whenever the statistics are returned -- well-formed latencies,
    fewer than 2^53 of them, and a throughput division that is defined -- they
    sort the [n] successful latencies ascending; p50 is the element at index
    [int(n * 0.50)]; p95 is the element at index [int(n * 0.95)] when
    [n >= 20] and the maximum (the last sorted value) otherwise; p99 is the
    element at index [int(n * 0.99)] when [n >= 100] and the maximum
    otherwise.  With 19 latencies p95 is the maximum, with 20 it is the
    element at sorted index 19; with 99 latencies p99 is the maximum, with
    100 it is the element at sorted index 99.  Up to 1000 latencies the
    indices are the integer quotients [n * 50 / 100], [n * 95 / 100] and
    [n * 99 / 100]. *)
Theorem calculate_stats_percentiles alg results v_throughput :
  let latencies := successful_latencies results in
  let n := len latencies in
  Forall (fun x => wf x = true) latencies ->
  0 < n < 2 ^ 53 ->
  throughput alg (filter success results) latencies = Return v_throughput ->
  exists d p50 p95 p99 v_max (i50 i95 i99 : Z),
    calculate_stats alg results = Return d /\
    field d "p50" = Some p50 /\ field d "p95" = Some p95 /\
    field d "p99" = Some p99 /\ field d "max" = Some v_max /\
    ascending (sorted latencies) /\ Permutation (sorted latencies) latencies /\
    py_max latencies = Return v_max /\
    getitem (sorted latencies) (-1) = Return v_max /\
    int_of_float (fmul (of_int n) c050) = Return i50 /\
    getitem (sorted latencies) i50 = Return p50 /\
    (20 <= n -> int_of_float (fmul (of_int n) c095) = Return i95 /\
                getitem (sorted latencies) i95 = Return p95) /\
    (n < 20 -> p95 = v_max) /\
    (100 <= n -> int_of_float (fmul (of_int n) c099) = Return i99 /\
                 getitem (sorted latencies) i99 = Return p99) /\
    (n < 100 -> p99 = v_max) /\
    (n = 19 -> p95 = v_max) /\
    (n = 20 -> getitem (sorted latencies) 19 = Return p95) /\
    (n = 99 -> p99 = v_max) /\
    (n = 100 -> getitem (sorted latencies) 99 = Return p99) /\
    (n <= 1000 -> i50 = n * 50 / 100 /\ (20 <= n -> i95 = n * 95 / 100) /\
                  (100 <= n -> i99 = n * 99 / 100)).
Proof.
  intros latencies n Hw Hn Hthr.
  destruct (calculate_stats_wf alg results v_throughput Hw Hn Hthr)
    as (v_min & v_max & v_avg & v_p50 & v_p95 & v_p99 & i50 & i95 & i99 &
        Heq & Hmin & Hmax & Havg & N50 & N95 & N99 & Hord & E50 & I50 &
        A95 & B95 & A99 & B99 & _).
  fold latencies in Heq, Hmin, Hmax, Havg, N50, N95, N99, I50, A95, B95, A99, B99.
  fold n in E50, I50, A95, B95, A99, B99.
  assert (Hslen : len (sorted latencies) = n) by apply sorted_len.
  assert (G : forall (i : nat) p, nth_error (sorted latencies) i = Some p ->
                getitem (sorted latencies) (Z.of_nat i) = Return p).
  { intros i p Hp.
    assert (i < List.length (sorted latencies))%nat by (apply nth_error_Some; congruence).
    destruct (getitem_nonneg (sorted latencies) (Z.of_nat i)) as (x & Hx & Hnth).
    { unfold len. lia. }
    rewrite Nat2Z.id in Hnth. congruence. }
  exists [ ("total", VInt (len results));
           ("success", VInt (len (filter success results)));
           ("errors", VInt (len results - len (filter success results)));
           ("min", VFloat v_min); ("max", VFloat v_max); ("avg", VFloat v_avg);
           ("p50", VFloat v_p50); ("p95", VFloat v_p95); ("p99", VFloat v_p99);
           ("throughput", v_throughput) ]%string.
  exists v_p50, v_p95, v_p99, v_max, (Z.of_nat i50), (Z.of_nat i95), (Z.of_nat i99).
  split; [exact Heq|].
  do 4 (split; [reflexivity|]).
  split; [apply ascending_of_scaled; [apply sorted_wf; exact Hw|apply sorted_ascending; exact Hw]|].
  split; [apply sorted_perm|].
  split; [exact Hmax|].
  split; [apply sorted_last_is_max; assumption|].
  split; [exact I50|].
  split; [apply G; exact N50|].
  split; [intros H; split; [apply A95; exact H|apply G; exact N95]|].
  split; [intros H; apply B95; exact H|].
  split; [intros H; split; [apply A99; exact H|apply G; exact N99]|].
  split; [intros H; apply B99; exact H|].
  split; [intros H; apply B95; lia|].
  split.
  { intros H. pose proof (A95 ltac:(lia)) as Hi. rewrite H in Hi.
    assert (C : int_of_float (fmul (of_int 20) c095) = Return 19) by (vm_compute; reflexivity).
    assert (E : Z.of_nat i95 = 19) by congruence.
    rewrite <- E. apply G; exact N95. }
  split; [intros H; apply B99; lia|].
  split.
  { intros H. pose proof (A99 ltac:(lia)) as Hi. rewrite H in Hi.
    assert (C : int_of_float (fmul (of_int 100) c099) = Return 99) by (vm_compute; reflexivity).
    assert (E : Z.of_nat i99 = 99) by congruence.
    rewrite <- E. apply G; exact N99. }
  intros Hsmall. split; [|split].
  - rewrite (index_exact_small n c050 50) in I50 by (cbn [In]; auto; lia). congruence.
  - intros H. pose proof (A95 H) as Hi.
    rewrite (index_exact_small n c095 95) in Hi by (cbn [In]; auto; lia). congruence.
  - intros H. pose proof (A99 H) as Hi.
    rewrite (index_exact_small n c099 99) in Hi by (cbn [In]; auto; lia). congruence.
Qed.

Lemma calculate_stats_percentiles_witness :
  exists d, calculate_stats PlainSum sample_results = Return d /\
            field d "p50" = Some (of_int 200) /\ field d "p95" = Some (of_int 300).
Proof.
  destruct (calculate_stats_percentiles PlainSum sample_results (VFloat (of_int 5)))
    as (d & p50 & p95 & p99 & v_max & i50 & i95 & i99 & Heq & F50 & F95 & _ & _ & _ & _ &
        Hmax & _ & I50 & G50 & _ & B95 & _).
  - vm_compute. repeat constructor.
  - vm_compute. split; reflexivity.
  - vm_compute. reflexivity.
  - exists d. split; [exact Heq|]. split.
    + rewrite F50. vm_compute in I50. injection I50 as <-.
      vm_compute in G50. injection G50 as <-. vm_compute. reflexivity.
    + rewrite F95, B95 by (vm_compute; reflexivity).
      vm_compute in Hmax. injection Hmax as <-. vm_compute. reflexivity.
Defined.

Lemma truediv_1000 x : truediv x (of_int 1000) = Return (fdiv x (of_int 1000)).
Proof. reflexivity. Qed.



(** C3.  For every result collection whose successful subset is empty (an
    all-failed collection, or none at all) the statistics return the
    dictionary that holds the message "No successful requests" under "error"
    and nothing else: no exception is raised and no numeric field exists. *)
Theorem calculate_stats_no_success alg results :
  filter success results = [] ->
  calculate_stats alg results = Return no_successful_requests /\
  lookup "error" no_successful_requests = Some (VStr "No successful requests") /\
  (forall k v, lookup k no_successful_requests = Some v ->
               k = "error"%string /\ v = VStr "No successful requests") /\
  (forall k, field no_successful_requests k = None).
Proof.
  intros H. split; [|split; [reflexivity|split]].
  - unfold calculate_stats. rewrite H. reflexivity.
  - intros k v. unfold no_successful_requests. cbn [lookup].
    destruct (String.eqb_spec k "error"); [|discriminate].
    intros E. injection E as <-. split; [assumption|reflexivity].
  - intros k. unfold field, no_successful_requests. cbn [lookup].
    destruct (String.eqb k "error"); reflexivity.
Qed.

Lemma calculate_stats_no_success_witness :
  calculate_stats PlainSum all_failed_results = Return no_successful_requests /\
  calculate_stats NeumaierSum [] = Return no_successful_requests.
Proof.
  split.
  - apply (calculate_stats_no_success PlainSum all_failed_results). reflexivity.
  - apply (calculate_stats_no_success NeumaierSum []). reflexivity.
Defined.

(** X23.  Whenever the statistics are returned -- well-formed latencies,
    fewer than 2^53 of them, and a throughput division that is defined --
    "min" is the least and "max" the greatest of the successful latencies
    ([min] and [max] of the list, both elements of it), "avg" is their
    [statistics.mean], and the percentiles are elements of the sorted list
    at ascending indices; so min <= avg <= max and
    min <= p50 <= p95 <= p99 <= max, no entry exceeds the greatest latency,
    and below 20 successes p95, below 100 successes p99, is that greatest
    latency, the last of the sorted list. *)
Theorem calculate_stats_ordering alg results v_throughput :
  let latencies := successful_latencies results in
  let n := len latencies in
  Forall (fun x => wf x = true) latencies ->
  0 < n < 2 ^ 53 ->
  throughput alg (filter success results) latencies = Return v_throughput ->
  exists d v_min v_avg v_max p50 p95 p99,
    calculate_stats alg results = Return d /\
    field d "min" = Some v_min /\ field d "avg" = Some v_avg /\
    field d "max" = Some v_max /\ field d "p50" = Some p50 /\
    field d "p95" = Some p95 /\ field d "p99" = Some p99 /\
    fleb v_min v_avg = true /\ fleb v_avg v_max = true /\
    fleb v_min p50 = true /\ fleb p50 p95 = true /\
    fleb p95 p99 = true /\ fleb p99 v_max = true /\
    In p50 latencies /\ In p95 latencies /\ In p99 latencies /\
    (n < 20 -> p95 = v_max) /\ (n < 100 -> p99 = v_max) /\
    py_min latencies = Return v_min /\ py_max latencies = Return v_max /\
    mean latencies = Return v_avg /\
    In v_min latencies /\ In v_max latencies /\
    (forall x, In x latencies -> fleb v_min x = true /\ fleb x v_max = true) /\
    getitem (sorted latencies) (-1) = Return v_max /\
    exists i50 i95 i99 : nat,
      (i50 <= i95 <= i99)%nat /\
      nth_error (sorted latencies) i50 = Some p50 /\
      nth_error (sorted latencies) i95 = Some p95 /\
      nth_error (sorted latencies) i99 = Some p99.
Proof.
  intros latencies n Hw Hn Hthr.
  destruct (calculate_stats_wf alg results v_throughput Hw Hn Hthr)
    as (v_min & v_max & v_avg & v_p50 & v_p95 & v_p99 & i50 & i95 & i99 &
        Heq & Hmin & Hmax & Havg & N50 & N95 & N99 & Hord & E50 & I50 &
        A95 & B95 & A99 & B99 & Hwa & Hab).
  fold latencies in Heq, Hmin, Hmax, Havg, N50, N95, N99.
  fold n in B95, B99.
  assert (Hne : latencies <> []).
  { intros E. unfold n in Hn. rewrite E in Hn. cbn in Hn. lia. }
  destruct (py_min_spec latencies Hne Hw) as (m1 & Hm1 & Hminin & Hminle).
  rewrite Hmin in Hm1. injection Hm1 as <-.
  destruct (py_max_spec latencies Hne Hw) as (m2 & Hm2 & Hmaxin & Hmaxle).
  rewrite Hmax in Hm2. injection Hm2 as <-.
  pose proof (nth_error_sorted_In _ _ _ N50) as In50.
  pose proof (nth_error_sorted_In _ _ _ N95) as In95.
  pose proof (nth_error_sorted_In _ _ _ N99) as In99.
  pose proof (sorted_ascending latencies Hw) as Hs.
  assert (W : forall x, In x latencies -> wf x = true) by (intros x; apply In_wf; exact Hw).
  exists [ ("total", VInt (len results));
           ("success", VInt (len (filter success results)));
           ("errors", VInt (len results - len (filter success results)));
           ("min", VFloat v_min); ("max", VFloat v_max); ("avg", VFloat v_avg);
           ("p50", VFloat v_p50); ("p95", VFloat v_p95); ("p99", VFloat v_p99);
           ("throughput", v_throughput) ]%string.
  exists v_min, v_avg, v_max, v_p50, v_p95, v_p99.
  split; [exact Heq|]. do 6 (split; [reflexivity|]).
  split; [rewrite fleb_scaled by auto; apply Z.leb_le; lia|].
  split; [rewrite fleb_scaled by auto; apply Z.leb_le; lia|].
  split; [rewrite fleb_scaled by auto; apply Z.leb_le; apply Hminle; exact In50|].
  split.
  { rewrite fleb_scaled by auto. apply Z.leb_le.
    eapply (ascending_nth _ Hs i50 i95); [lia|exact N50|exact N95]. }
  split.
  { rewrite fleb_scaled by auto. apply Z.leb_le.
    eapply (ascending_nth _ Hs i95 i99); [lia|exact N95|exact N99]. }
  split; [rewrite fleb_scaled by auto; apply Z.leb_le; apply Hmaxle; exact In99|].
  do 3 (split; [assumption|]).
  split; [intros H; apply B95; exact H|].
  split; [intros H; apply B99; exact H|].
  do 5 (split; [assumption|]).
  split.
  { intros x Hx. split; rewrite fleb_scaled by auto; apply Z.leb_le;
      [apply Hminle|apply Hmaxle]; exact Hx. }
  split; [apply sorted_last_is_max; assumption|].
  exists i50, i95, i99. repeat split; try assumption; lia.
Qed.

Lemma calculate_stats_ordering_witness :
  exists d v_min v_avg v_max,
    calculate_stats PlainSum sample_results = Return d /\
    field d "min" = Some v_min /\ field d "avg" = Some v_avg /\
    field d "max" = Some v_max /\
    fleb v_min v_avg = true /\ fleb v_avg v_max = true /\
    v_min = of_int 100 /\ v_max = of_int 300.
Proof.
  destruct (calculate_stats_ordering PlainSum sample_results (VFloat (of_int 5)))
    as (d & v_min & v_avg & v_max & p50 & p95 & p99 & Heq & Fmin & Favg & Fmax &
        _ & _ & _ & L1 & L2 & _ & _ & _ & _ & _ & _ & _ & _ & _ & Pmin & Pmax & _).
  - vm_compute. repeat constructor.
  - vm_compute. split; reflexivity.
  - vm_compute. reflexivity.
  - exists d, v_min, v_avg, v_max. repeat (split; [assumption|]).
    vm_compute in Pmin, Pmax. injection Pmin as <-. injection Pmax as <-.
    split; vm_compute; reflexivity.
Defined.

(** ** Reordering the results *)

Lemma filter_permutation {A : Type} (f : A -> bool) l1 l2 :
  Permutation l1 l2 -> Permutation (filter f l1) (filter f l2).
Proof.
  induction 1 as [|x l1 l2 _ IH|x y l|l1 l2 l3 _ IH1 _ IH2]; cbn [filter].
  - constructor.
  - destruct (f x); [apply perm_skip|]; exact IH.
  - destruct (f x), (f y); try reflexivity. apply perm_swap.
  - etransitivity; eassumption.
Qed.

Lemma successful_latencies_permutation r1 r2 :
  Permutation r1 r2 ->
  Permutation (successful_latencies r1) (successful_latencies r2).
Proof.
  intros H. unfold successful_latencies. apply Permutation_map, filter_permutation, H.
Qed.

Lemma py_min_permutation l1 l2 :
  Forall (fun x => wf x = true) l1 -> Permutation l1 l2 -> py_min l1 = py_min l2.
Proof.
  intros Hw Hp. destruct l1 as [|x l1].
  { apply Permutation_nil in Hp. subst. reflexivity. }
  assert (Hw2 : Forall (fun x => wf x = true) l2) by (eapply Permutation_Forall; eassumption).
  assert (Hne2 : l2 <> []).
  { intros ->. symmetry in Hp. apply Permutation_nil in Hp. discriminate. }
  destruct (py_min_spec (x :: l1) ltac:(discriminate) Hw) as (m1 & -> & In1 & Le1).
  destruct (py_min_spec l2 Hne2 Hw2) as (m2 & -> & In2 & Le2).
  f_equal. apply scaled_inj; [exact (In_wf _ _ Hw In1)|exact (In_wf _ _ Hw2 In2)|].
  apply Z.le_antisymm.
  - apply Le1. eapply Permutation_in; [symmetry; exact Hp|exact In2].
  - apply Le2. eapply Permutation_in; [exact Hp|exact In1].
Qed.

Lemma py_max_permutation l1 l2 :
  Forall (fun x => wf x = true) l1 -> Permutation l1 l2 -> py_max l1 = py_max l2.
Proof.
  intros Hw Hp. destruct l1 as [|x l1].
  { apply Permutation_nil in Hp. subst. reflexivity. }
  assert (Hw2 : Forall (fun x => wf x = true) l2) by (eapply Permutation_Forall; eassumption).
  assert (Hne2 : l2 <> []).
  { intros ->. symmetry in Hp. apply Permutation_nil in Hp. discriminate. }
  destruct (py_max_spec (x :: l1) ltac:(discriminate) Hw) as (m1 & -> & In1 & Le1).
  destruct (py_max_spec l2 Hne2 Hw2) as (m2 & -> & In2 & Le2).
  f_equal. apply scaled_inj; [exact (In_wf _ _ Hw In1)|exact (In_wf _ _ Hw2 In2)|].
  apply Z.le_antisymm.
  - apply Le2. eapply Permutation_in; [exact Hp|exact In1].
  - apply Le1. eapply Permutation_in; [symmetry; exact Hp|exact In2].
Qed.

Lemma mean_permutation l1 l2 :
  Forall (fun x => wf x = true) l1 -> Permutation l1 l2 -> mean l1 = mean l2.
Proof.
  intros Hw Hp. destruct l1 as [|x l1].
  { apply Permutation_nil in Hp. subst. reflexivity. }
  assert (Hw2 : Forall (fun x => wf x = true) l2) by (eapply Permutation_Forall; eassumption).
  assert (Hne2 : l2 <> []).
  { intros ->. symmetry in Hp. apply Permutation_nil in Hp. discriminate. }
  rewrite (mean_wf (x :: l1)) by (assumption || discriminate).
  rewrite (mean_wf l2) by assumption.
  rewrite (exact_sum_permutation _ _ Hp), (Permutation_length Hp). reflexivity.
Qed.

Lemma lookup_stats_throughput (a b c : Z) (x1 x2 x3 x4 x5 x6 : float) (t : value) :
  lookup "throughput"
    [ ("total", VInt a); ("success", VInt b); ("errors", VInt c);
      ("min", VFloat x1); ("max", VFloat x2); ("avg", VFloat x3);
      ("p50", VFloat x4); ("p95", VFloat x5); ("p99", VFloat x6);
      ("throughput", t) ]%string = Some t.
Proof. reflexivity. Qed.

Lemma lookup_stats_other (a b c : Z) (x1 x2 x3 x4 x5 x6 : float) (t t' : value) k :
  k <> "throughput"%string ->
  lookup k
    [ ("total", VInt a); ("success", VInt b); ("errors", VInt c);
      ("min", VFloat x1); ("max", VFloat x2); ("avg", VFloat x3);
      ("p50", VFloat x4); ("p95", VFloat x5); ("p99", VFloat x6);
      ("throughput", t) ]%string =
  lookup k
    [ ("total", VInt a); ("success", VInt b); ("errors", VInt c);
      ("min", VFloat x1); ("max", VFloat x2); ("avg", VFloat x3);
      ("p50", VFloat x4); ("p95", VFloat x5); ("p99", VFloat x6);
      ("throughput", t') ]%string.
Proof.
  intros Hk. cbn [lookup].
  repeat match goal with
         | |- context [String.eqb k ?s] =>
             destruct (String.eqb_spec k s); [try reflexivity; congruence|]
         end.
  reflexivity.
Qed.

Lemma calculate_stats_permutation_form alg r1 r2 :
  Permutation r1 r2 ->
  Forall (fun x => wf x = true) (successful_latencies r1) ->
  successful_latencies r1 <> [] ->
  len (successful_latencies r1) < 2 ^ 53 ->
  exists body : value -> dict,
    (forall t, lookup "throughput" (body t) = Some t) /\
    (forall t t' k, k <> "throughput"%string -> lookup k (body t) = lookup k (body t')) /\
    calculate_stats alg r1 =
      (t <- throughput alg (filter success r1) (successful_latencies r1) ;; Return (body t)) /\
    calculate_stats alg r2 =
      (t <- throughput alg (filter success r2) (successful_latencies r2) ;; Return (body t)).
Proof.
  intros Hp Hw Hne Hn.
  pose proof (successful_latencies_permutation r1 r2 Hp) as Hpl.
  set (l1 := successful_latencies r1) in *. set (l2 := successful_latencies r2) in *.
  assert (Hlen : len l2 = len l1).
  { unfold len. rewrite (Permutation_length Hpl). reflexivity. }
  assert (Hne2 : l2 <> []).
  { intros E. rewrite E in Hpl. apply Hne. apply Permutation_nil. symmetry. exact Hpl. }
  assert (Hsort : sorted l2 = sorted l1)
    by (symmetry; apply sorted_permutation_invariant; assumption).
  destruct (calculate_stats_nonempty alg r1 Hne Hn)
    as (a1 & a2 & a3 & a4 & a5 & a6 & Hmin & Hmax & Havg & H50 & H95a & H95b & H99a & H99b & Heq).
  destruct (calculate_stats_nonempty alg r2 Hne2 ltac:(fold l2; rewrite Hlen; exact Hn))
    as (b1 & b2 & b3 & b4 & b5 & b6 & Hmin' & Hmax' & Havg' & H50' & H95a' & H95b' & H99a' & H99b' & Heq').
  fold l1 in Hmin, Hmax, Havg, H50, H95a, H95b, H99a, H99b, Heq.
  fold l2 in Hmin', Hmax', Havg', H50', H95a', H95b', H99a', H99b', Heq'.
  rewrite Hlen, Hsort in *.
  rewrite <- (py_min_permutation l1 l2 Hw Hpl), Hmin in Hmin'. injection Hmin' as <-.
  rewrite <- (py_max_permutation l1 l2 Hw Hpl), Hmax in Hmax'. injection Hmax' as <-.
  rewrite <- (mean_permutation l1 l2 Hw Hpl), Havg in Havg'. injection Havg' as <-.
  rewrite H50 in H50'. injection H50' as <-.
  assert (E5 : b5 = a5).
  { destruct (Z_le_gt_dec 20 (len l1)) as [H|H].
    - destruct (H95a H) as (i & Hi & _ & _ & Hnth).
      destruct (H95a' H) as (i' & Hi' & _ & _ & Hnth').
      rewrite Hi in Hi'. injection Hi' as <-. congruence.
    - specialize (H95b ltac:(lia)). specialize (H95b' ltac:(lia)). congruence. }
  assert (E6 : b6 = a6).
  { destruct (Z_le_gt_dec 100 (len l1)) as [H|H].
    - destruct (H99a H) as (i & Hi & _ & Hnth).
      destruct (H99a' H) as (i' & Hi' & _ & Hnth').
      rewrite Hi in Hi'. injection Hi' as <-. congruence.
    - specialize (H99b ltac:(lia)). specialize (H99b' ltac:(lia)). congruence. }
  subst b5 b6.
  assert (Ht : len r2 = len r1).
  { unfold len. rewrite (Permutation_length Hp). reflexivity. }
  assert (Hs : len (filter success r2) = len (filter success r1)).
  { unfold len. rewrite (Permutation_length (filter_permutation success r1 r2 Hp)). reflexivity. }
  rewrite Ht, Hs in Heq'.
  eexists (fun t => _). split; [|split; [|split; [exact Heq|exact Heq']]].
  - intros t. apply lookup_stats_throughput.
  - intros t t' k Hk. apply lookup_stats_other. exact Hk.
Qed.

(** C9, as the code has it.  Reordering a result collection leaves the
    statistics unchanged up to the throughput entry: the no-data dictionary is
    returned for both orders or for neither; whenever both orders yield
    statistics, every entry other than "throughput" is the same; and the whole
    outcome is the same as soon as Python's float sum of the latencies is the
    same in both orders. *)
Theorem calculate_stats_reordering alg r1 r2 :
  Permutation r1 r2 ->
  Forall (fun x => wf x = true) (successful_latencies r1) ->
  len (successful_latencies r1) < 2 ^ 53 ->
  (successful_latencies r1 = [] ->
     calculate_stats alg r1 = Return no_successful_requests /\
     calculate_stats alg r2 = Return no_successful_requests) /\
  (successful_latencies r1 <> [] ->
   forall t1 t2,
     throughput alg (filter success r1) (successful_latencies r1) = Return t1 ->
     throughput alg (filter success r2) (successful_latencies r2) = Return t2 ->
     exists d1 d2,
       calculate_stats alg r1 = Return d1 /\ calculate_stats alg r2 = Return d2 /\
       lookup "throughput" d1 = Some t1 /\ lookup "throughput" d2 = Some t2 /\
       forall k, k <> "throughput"%string -> lookup k d1 = lookup k d2) /\
  (py_sum alg (successful_latencies r1) = py_sum alg (successful_latencies r2) ->
     calculate_stats alg r1 = calculate_stats alg r2).
Proof.
  intros Hp Hw Hn.
  pose proof (successful_latencies_permutation r1 r2 Hp) as Hpl.
  destruct (successful_latencies r1) as [|x l] eqn:E1.
  - assert (E2 : successful_latencies r2 = []) by (apply Permutation_nil; exact Hpl).
    assert (C1 : calculate_stats alg r1 = Return no_successful_requests).
    { unfold calculate_stats. fold (successful_latencies r1). rewrite E1. reflexivity. }
    assert (C2 : calculate_stats alg r2 = Return no_successful_requests).
    { unfold calculate_stats. fold (successful_latencies r2). rewrite E2. reflexivity. }
    split; [intros _; split; assumption|].
    split; [intros H; congruence|]. intros _. congruence.
  - rewrite <- E1 in *.
    assert (Hne : successful_latencies r1 <> []) by (rewrite E1; discriminate).
    destruct (calculate_stats_permutation_form alg r1 r2 Hp Hw Hne Hn)
      as (body & Bt & Bk & Q1 & Q2).
    split; [intros H; congruence|]. split.
    + intros _ t1 t2 T1 T2. rewrite T1 in Q1. rewrite T2 in Q2. cbn [bind] in Q1, Q2.
      exists (body t1), (body t2).
      split; [exact Q1|]. split; [exact Q2|]. split; [apply Bt|]. split; [apply Bt|].
      intros k Hk. apply Bk. exact Hk.
    + intros Hsum. rewrite Q1, Q2.
      assert (Hs : len (filter success r2) = len (filter success r1)).
      { unfold len. rewrite (Permutation_length (filter_permutation success r1 r2 Hp)). reflexivity. }
      assert (T : throughput alg (filter success r1) (successful_latencies r1) =
                  throughput alg (filter success r2) (successful_latencies r2)).
      { unfold throughput. rewrite Hs, <- Hsum.
        destruct (successful_latencies r1); [congruence|].
        destruct (successful_latencies r2) as [|y l']; [|reflexivity].
        exfalso. symmetry in Hpl. exact (Permutation_nil_cons Hpl). }
      rewrite T. reflexivity.
Qed.

Lemma wf_of_int_sample :
  Forall (fun x => wf x = true) (successful_latencies sample_results).
Proof. vm_compute. repeat constructor. Qed.

Lemma calculate_stats_reordering_witness :
  calculate_stats PlainSum sample_results = calculate_stats PlainSum (rev sample_results).
Proof.
  apply (calculate_stats_reordering PlainSum sample_results (rev sample_results)).
  - apply Permutation_rev.
  - exact wf_of_int_sample.
  - vm_compute. reflexivity.
  - vm_compute. reflexivity.
Defined.

(** C9, as stated, fails: the latencies [2^53], [1], [2^-53], [2^-53] ms and
    the same four in the opposite order yield different throughput entries,
    with plain left-to-right summation and with the compensated one. *)
Lemma calculate_stats_order_dependent :
  Permutation order_a order_b /\
  Forall (fun x => wf x = true) (successful_latencies order_a) /\
  forall alg, exists d1 d2,
    calculate_stats alg order_a = Return d1 /\
    calculate_stats alg order_b = Return d2 /\
    lookup "throughput" d1 <> lookup "throughput" d2.
Proof.
  split; [apply Permutation_rev|]. split; [vm_compute; repeat constructor|].
  intros [|]; eexists; eexists; (split; [vm_compute; reflexivity|]);
    (split; [vm_compute; reflexivity|]); vm_compute; discriminate.
Qed.

(** With plain summation the entries differ already for 0.1, 0.2, 0.3 ms. *)
Lemma plain_sum_order_dependent :
  Permutation tenths_a tenths_b /\
  exists d1 d2,
    calculate_stats PlainSum tenths_a = Return d1 /\
    calculate_stats PlainSum tenths_b = Return d2 /\
    lookup "throughput" d1 <> lookup "throughput" d2.
Proof.
  split; [apply Permutation_rev|].
  eexists; eexists; (split; [vm_compute; reflexivity|]);
    (split; [vm_compute; reflexivity|]); vm_compute; discriminate.
Qed.

(** * The claims about [make_request] *)

(** C5, as the code has it.  A response with status 200 yields a result with
    [success = true] and no error; a response with any other status code [S],
    other 2xx codes included, yields [success = false] and the error
    "HTTP S". *)
Theorem make_request_status start now status_code :
  (status_code = 200 ->
     make_request start now (Responded status_code) =
       Return {| latency_ms := elapsed_ms start now; success := true; error := None |}) /\
  (status_code <> 200 ->
     make_request start now (Responded status_code) =
       Return {| latency_ms := elapsed_ms start now; success := false;
                 error := Some ("HTTP " ++ str_of_int status_code)%string |}) /\
  str_of_int 500 = "500"%string.
Proof.
  split; [|split; [|reflexivity]].
  - intros ->. reflexivity.
  - intros H. unfold make_request.
    destruct (Z.eqb_spec status_code 200); [contradiction|reflexivity].
Qed.

(** C5, as stated, fails on the success status 204: the result is a failure
    with error "HTTP 204". *)
Lemma make_request_204_fails :
  is_2xx 204 = true /\
  forall start now,
    make_request start now (Responded 204) =
      Return {| latency_ms := elapsed_ms start now; success := false;
                error := Some "HTTP 204"%string |}.
Proof. split; [reflexivity|]. intros start now. reflexivity. Qed.

(** C6.  Every failure of a request (a transport error, a timeout, a
    protocol error, any other [Exception], a status other than 200) ends in
    exactly one returned result with [success = false] and an error string;
    no such failure is raised to the caller. *)
Theorem make_request_absorbs_failures start now o :
  is_failure o ->
  (exists r, make_request start now o = Return r /\
             success r = false /\ error r <> None /\
             forall r', make_request start now o = Return r' -> r' = r) /\
  (forall c, make_request start now o <> Raise c) /\
  (forall msg, is_failure (Failed NetworkError msg) /\
               is_failure (Failed TimeoutException msg) /\
               is_failure (Failed ProtocolError msg) /\
               is_failure (Failed OtherException msg)).
Proof.
  intros Hf. split; [|split].
  - destruct o as [s|cls msg]; cbn [is_failure] in Hf; unfold make_request.
    + destruct (Z.eqb_spec s 200); [contradiction|].
      eexists; split; [reflexivity|]. cbn. split; [reflexivity|]. split; [discriminate|].
      intros r' E. injection E as <-. reflexivity.
    + rewrite Hf. eexists; split; [reflexivity|]. cbn. split; [reflexivity|].
      split; [discriminate|]. intros r' E. injection E as <-. reflexivity.
  - intros c. destruct o as [s|cls msg]; cbn [is_failure] in Hf; unfold make_request.
    + destruct (s =? 200); discriminate.
    + rewrite Hf. discriminate.
  - intros msg. repeat split.
Qed.

Lemma make_request_absorbs_failures_witness :
  exists r, make_request (of_int 1) (of_int 31) (Failed TimeoutException EmptyString) = Return r /\
            success r = false /\ error r = Some EmptyString.
Proof.
  destruct (make_request_absorbs_failures (of_int 1) (of_int 31)
              (Failed TimeoutException EmptyString))
    as [(r & Hr & Hs & He & _) _].
  - reflexivity.
  - exists r. split; [exact Hr|]. split; [exact Hs|].
    cbn in Hr. injection Hr as <-. reflexivity.
Defined.

(** * The claims about [run_ramp_test] *)

Lemma calculate_stats_return_shape alg results d :
  calculate_stats alg results = Return d ->
  d = no_successful_requests \/
  exists a b c x1 x2 x3 x4 x5 x6 t,
    d = [ ("total", VInt a); ("success", VInt b); ("errors", VInt c);
          ("min", VFloat x1); ("max", VFloat x2); ("avg", VFloat x3);
          ("p50", VFloat x4); ("p95", VFloat x5); ("p99", VFloat x6);
          ("throughput", t) ]%string.
Proof.
  unfold calculate_stats.
  destruct (map latency_ms (filter success results)) as [|x l].
  { intros E. injection E as <-. left. reflexivity. }
  destruct (py_min (x :: l)); cbn [bind]; [|discriminate].
  destruct (py_max (x :: l)); cbn [bind]; [|discriminate].
  destruct (mean (x :: l)); cbn [bind]; [|discriminate].
  destruct (percentile _ _ c050); cbn [bind]; [|discriminate].
  destruct (if 20 <=? _ then _ else _); cbn [bind]; [|discriminate].
  destruct (if 100 <=? _ then _ else _); cbn [bind]; [|discriminate].
  destruct (throughput alg _ _); cbn [bind]; [|discriminate].
  intros E. injection E as <-. right. repeat eexists.
Qed.

Lemma stage_ok_setitem alg results d c :
  calculate_stats alg results = Return d ->
  stage_ok (setitem d "concurrency" (VInt c)) /\
  level (setitem d "concurrency" (VInt c)) = c.
Proof.
  intros H. apply calculate_stats_return_shape in H.
  destruct H as [->|(a & b & c' & x1 & x2 & x3 & x4 & x5 & x6 & t & ->)].
  - split; [split; [left; reflexivity|exists c; reflexivity]|reflexivity].
  - split; [split; [right; exists x6; reflexivity|exists c; reflexivity]|reflexivity].
Qed.

Lemma ramp_stats_stages alg stage_results levels : forall ds,
  ramp_stats alg stage_results levels = Return ds ->
  Forall stage_ok ds /\ map level ds = levels.
Proof.
  induction levels as [|c levels IH]; intros ds; cbn [ramp_stats].
  - intros E. injection E as <-. split; [constructor|reflexivity].
  - destruct (calculate_stats alg (stage_results c)) as [d|] eqn:Hd; cbn [bind]; [|discriminate].
    destruct (ramp_stats alg stage_results levels) as [rest|]; cbn [bind]; [|discriminate].
    intros E. injection E as <-.
    destruct (IH rest eq_refl) as [Hok Hlev].
    destruct (stage_ok_setitem alg (stage_results c) d c Hd) as [Hs Hl].
    split; [constructor; assumption|]. cbn [map]. rewrite Hl, Hlev. reflexivity.
Qed.

Lemma breaking_test s :
  stage_ok s ->
  (if negb (contains "error" s) then p99 <- getkey s "p99" ;; value_ge p99 800
   else Return false) = Return (breaking s).
Proof.
  intros [[He|(x & Hx)] _]; unfold breaking.
  - rewrite He. reflexivity.
  - destruct (contains "error" s); [reflexivity|]. cbn [negb andb].
    unfold getkey. rewrite Hx. reflexivity.
Qed.

Lemma find_breaking_point_cons s rest :
  stage_ok s ->
  find_breaking_point (s :: rest) =
    if breaking s
    then Return [BreakingPoint (VInt (level s)); RecommendedMax (VInt (level s - 10))]
    else find_breaking_point rest.
Proof.
  intros Hs. cbn [find_breaking_point]. rewrite (breaking_test s Hs). cbn [bind].
  destruct (breaking s); [|reflexivity].
  destruct Hs as [_ (c & Hc)]. unfold getkey, level. rewrite Hc. reflexivity.
Qed.

(** C4.  For every sequence of stage statistics the summary reports as the
    breaking point the concurrency level of the first stage whose p99 is at
    least 800 ms -- the lowest such level when the levels ascend -- and as
    recommendation that level minus 10; when no stage's p99 reaches 800 ms
    it reports that all levels were sustained.  The stages of the sweep are
    such a sequence, at the levels 10, 20, 30, 40, 50.  For p99 values 200,
    300, 400, 850, 900 ms at these levels the breaking point is 40 and the
    recommendation 30. *)
Theorem ramp_breaking_point all_stats :
  Forall stage_ok all_stats ->
  (forall pre s post,
     all_stats = pre ++ s :: post ->
     Forall (fun s' => breaking s' = false) pre -> breaking s = true ->
     find_breaking_point all_stats =
       Return [BreakingPoint (VInt (level s)); RecommendedMax (VInt (level s - 10))] /\
     (StronglySorted (fun a b => level a < level b) all_stats ->
      forall s', In s' all_stats -> breaking s' = true -> level s <= level s')) /\
  (Forall (fun s => breaking s = false) all_stats ->
     find_breaking_point all_stats = Return [AllPassed]) /\
  (forall alg stage_results ds,
     ramp_stats alg stage_results ramp_levels = Return ds ->
     Forall stage_ok ds /\ map level ds = [10; 20; 30; 40; 50]) /\
  (forall alg, run_ramp_test alg example_stage_results =
                 Return [BreakingPoint (VInt 40); RecommendedMax (VInt 30)]) /\
  (forall alg, run_ramp_test alg calm_stage_results = Return [AllPassed]).
Proof.
  intros Hok. split; [|split; [|split; [|split]]].
  - intros pre s post -> Hpre Hs. split.
    + induction pre as [|p pre IH]; cbn [app].
      * rewrite find_breaking_point_cons by (inversion Hok; assumption).
        rewrite Hs. reflexivity.
      * inversion Hok as [|? ? Hp Hrest]; subst. inversion Hpre as [|? ? Bp Bpre]; subst.
        rewrite find_breaking_point_cons by assumption. rewrite Bp.
        apply IH; assumption.
    + intros Hsorted s' Hin Hb.
      apply in_app_or in Hin. destruct Hin as [Hin|[<-|Hin]].
      * rewrite Forall_forall in Hpre. rewrite (Hpre s' Hin) in Hb. discriminate.
      * lia.
      * clear Hok Hpre. induction pre as [|p pre IH]; cbn [app] in Hsorted.
        -- inversion Hsorted as [|? ? _ Hall]; subst.
           rewrite Forall_forall in Hall. specialize (Hall s' Hin). lia.
        -- inversion Hsorted; subst. apply IH; assumption.
  - intros Hnone. induction all_stats as [|s rest IH]; [reflexivity|].
    inversion Hok; subst. inversion Hnone as [|? ? Bs Brest]; subst.
    rewrite find_breaking_point_cons by assumption. rewrite Bs. apply IH; assumption.
  - intros alg stage_results ds H. apply (ramp_stats_stages alg stage_results ramp_levels ds H).
  - intros [|]; vm_compute; reflexivity.
  - intros [|]; vm_compute; reflexivity.
Qed.

Lemma ramp_breaking_point_witness :
  find_breaking_point synthetic_stages =
    Return [BreakingPoint (VInt 40); RecommendedMax (VInt 30)].
Proof.
  assert (Hok : Forall stage_ok synthetic_stages).
  { repeat (constructor; [split; [right; eexists; reflexivity|eexists; reflexivity]|]).
    constructor. }
  destruct (ramp_breaking_point synthetic_stages Hok) as [H _].
  destruct (H [synthetic_stage 10 200; synthetic_stage 20 300; synthetic_stage 30 400]
              (synthetic_stage 40 850) [synthetic_stage 50 900]) as [E _].
  - reflexivity.
  - repeat constructor.
  - reflexivity.
  - exact E.
Defined.

(** * The claims about [test_concurrent] *)

Module LimiterFacts.
Import Limiter.

Lemma count_phase_cons p t ts :
  count_phase p (t :: ts) = b2z (in_phase p (stage t)) + count_phase p ts.
Proof.
  unfold count_phase. cbn [filter]. destruct (in_phase p (stage t)); cbn [b2z].
  - rewrite len_cons. lia.
  - lia.
Qed.

Lemma count_phase_nonneg p ts : 0 <= count_phase p ts.
Proof. unfold count_phase. apply len_nonneg. Qed.

Lemma count_phase_total ts :
  count_phase Pending ts + count_phase Holding ts + count_phase Finished ts = len ts.
Proof.
  induction ts as [|t ts IH]; [reflexivity|].
  rewrite !count_phase_cons, len_cons. destruct (stage t); cbn [in_phase b2z]; lia.
Qed.

Lemma set_stage_count i : forall ts t p q,
  nth_error ts i = Some t ->
  count_phase q (set_stage i p ts) =
    count_phase q ts - b2z (in_phase q (stage t)) + b2z (in_phase q p).
Proof.
  induction i as [|i IH]; intros [|t0 ts] t p q H; try discriminate; cbn [nth_error] in H.
  - injection H as <-. cbn [set_stage]. rewrite !count_phase_cons. cbn [stage]. lia.
  - cbn [set_stage]. rewrite !count_phase_cons. rewrite (IH ts t p q H). lia.
Qed.

Lemma set_stage_len i : forall ts p, len (set_stage i p ts) = len ts.
Proof.
  induction i as [|i IH]; intros [|t0 ts] p; cbn [set_stage]; try reflexivity.
  rewrite !len_cons, IH. reflexivity.
Qed.

Lemma count_phase_exists p ts :
  0 < count_phase p ts -> exists i t, nth_error ts i = Some t /\ stage t = p.
Proof.
  induction ts as [|t ts IH]; [unfold count_phase; cbn; lia|].
  rewrite count_phase_cons. intros H.
  destruct (in_phase p (stage t)) eqn:E.
  - exists 0%nat, t. split; [reflexivity|]. destruct p, (stage t); try discriminate; reflexivity.
  - cbn [b2z] in H. destruct (IH ltac:(lia)) as (i & t' & Hi & Ht').
    exists (S i), t'. split; assumption.
Qed.

Lemma pending_tasks_count (f : nat -> string) (l : list nat) q :
  count_phase q (map (fun i => {| sentence := f i; stage := Pending |}) l) =
    b2z (in_phase q Pending) * len l.
Proof.
  induction l as [|i l IH]; cbn [map].
  - unfold count_phase, len. cbn. lia.
  - rewrite count_phase_cons, IH, len_cons. cbn [stage]. lia.
Qed.

Lemma test_concurrent_tasks c n :
  0 <= n ->
  len (tasks (test_concurrent c (Some n))) = n /\
  count_phase Pending (tasks (test_concurrent c (Some n))) = n /\
  count_phase Holding (tasks (test_concurrent c (Some n))) = 0 /\
  count_phase Finished (tasks (test_concurrent c (Some n))) = 0.
Proof.
  intros Hn. unfold test_concurrent. cbn [tasks total_requests_or_default].
  rewrite !pending_tasks_count. cbn [in_phase b2z].
  assert (L : len (seq 0 (Z.to_nat n)) = n) by (unfold len; rewrite length_seq; lia).
  rewrite L. unfold len. rewrite length_map, length_seq. lia.
Qed.

Lemma invariant_init c n :
  0 <= n -> 0 <= c -> invariant c n (test_concurrent c (Some n)).
Proof.
  intros Hn Hc. destruct (test_concurrent_tasks c n Hn) as (L & P & H & F).
  unfold invariant, outstanding. rewrite L, H, F.
  unfold test_concurrent. cbn. lia.
Qed.

Lemma invariant_step c n s s' :
  invariant c n s -> step s s' ->
  invariant c n s' /\ weight s' = weight s - 1.
Proof.
  intros (Hv & Hc & Hl & Hr) Hs. unfold invariant, outstanding, weight in *.
  destruct Hs as [s i t Hi Ht Hpos|s i t start now o r Hi Ht Hm]; cbn [value tasks results].
  - repeat rewrite (set_stage_count i (tasks s) t Holding) by exact Hi.
    rewrite set_stage_len, Ht.
    cbn [in_phase b2z]. lia.
  - repeat rewrite (set_stage_count i (tasks s) t Finished) by exact Hi.
    rewrite set_stage_len, Ht, len_app.
    cbn [in_phase b2z]. change (len [r]) with 1. lia.
Qed.

Lemma invariant_steps c n s0 : forall k s,
  invariant c n s0 -> steps k s0 s ->
  invariant c n s /\ Z.of_nat k + weight s = weight s0.
Proof.
  intros k s H0 Hk. induction Hk as [s|k s s' s'' _ IH Hs].
  - split; [exact H0|lia].
  - destruct (IH H0) as [Hinv Hw].
    destruct (invariant_step c n s' s'' Hinv Hs) as [Hinv' Hw'].
    split; [exact Hinv'|lia].
Qed.

Lemma progress c n s :
  0 < c -> invariant c n s -> count_phase Finished (tasks s) < n ->
  exists s', step s s'.
Proof.
  intros Hc (Hv & Hval & Hl & Hr) Hf. unfold outstanding in Hval.
  pose proof (count_phase_total (tasks s)) as Ht.
  pose proof (count_phase_nonneg Pending (tasks s)).
  pose proof (count_phase_nonneg Holding (tasks s)).
  destruct (Z_lt_le_dec 0 (count_phase Holding (tasks s))) as [Hh|Hh].
  - destruct (count_phase_exists Holding (tasks s) Hh) as (i & t & Hi & Hst).
    eexists. eapply (step_complete s i t pzero pzero (Responded 200)); [exact Hi|exact Hst|reflexivity].
  - destruct (count_phase_exists Pending (tasks s) ltac:(lia)) as (i & t & Hi & Hst).
    eexists. apply (step_acquire s i t Hi Hst). lia.
Qed.

End LimiterFacts.

(** C7.  For all positive [N] and [C] with [C <= N], a fixed-concurrency run
    launches exactly [N] invocations; at every point of the run the number of
    outstanding invocations is at most [C]; the run can always go on until
    all [N] invocations have finished, never takes more than [2 * N] steps
    (one acquisition and one completion each), and where it stops every
    invocation has acquired a slot and finished and exactly [N] results were
    collected. *)
Theorem fixed_concurrency_run C N :
  0 < N -> 0 < C -> C <= N ->
  let s0 := Limiter.test_concurrent C (Some N) in
  len (Limiter.tasks s0) = N /\ Limiter.outstanding s0 = 0 /\
  forall k s, Limiter.steps k s0 s ->
    len (Limiter.tasks s) = N /\
    0 <= Limiter.outstanding s <= C /\
    Z.of_nat k <= 2 * N /\
    (Limiter.count_phase Limiter.Finished (Limiter.tasks s) < N ->
       exists s', Limiter.step s s') /\
    (Limiter.quiescent s ->
       Limiter.count_phase Limiter.Finished (Limiter.tasks s) = N /\
       Limiter.count_phase Limiter.Pending (Limiter.tasks s) = 0 /\
       Limiter.outstanding s = 0 /\
       len (Limiter.results s) = N /\ Z.of_nat k = 2 * N).
Proof.
  intros HN HC HCN s0.
  destruct (LimiterFacts.test_concurrent_tasks C N ltac:(lia)) as (L & P & H & F).
  fold s0 in L, P, H, F.
  split; [exact L|]. split; [exact H|].
  intros k s Hk.
  pose proof (LimiterFacts.invariant_init C N ltac:(lia) ltac:(lia)) as H0. fold s0 in H0.
  destruct (LimiterFacts.invariant_steps C N s0 k s H0 Hk) as [Hinv Hw].
  assert (W0 : Limiter.weight s0 = 2 * N) by (unfold Limiter.weight; rewrite P, H; lia).
  pose proof Hinv as (Hv & Hval & Hl & Hr).
  pose proof (LimiterFacts.count_phase_total (Limiter.tasks s)) as Ht.
  pose proof (LimiterFacts.count_phase_nonneg Limiter.Pending (Limiter.tasks s)).
  pose proof (LimiterFacts.count_phase_nonneg Limiter.Holding (Limiter.tasks s)).
  pose proof (LimiterFacts.count_phase_nonneg Limiter.Finished (Limiter.tasks s)).
  unfold Limiter.outstanding in *. unfold Limiter.weight in Hw.
  split; [exact Hl|]. split; [lia|]. split; [lia|]. split.
  - intros Hf. apply (LimiterFacts.progress C N s HC Hinv Hf).
  - intros Hq.
    assert (Hfin : Limiter.count_phase Limiter.Finished (Limiter.tasks s) = N).
    { destruct (Z_lt_le_dec (Limiter.count_phase Limiter.Finished (Limiter.tasks s)) N) as [Hlt|Hge];
        [|lia].
      destruct (LimiterFacts.progress C N s HC Hinv Hlt) as (s' & Hs').
      exfalso. exact (Hq s' Hs'). }
    repeat split; lia.
Qed.

Lemma fixed_concurrency_run_witness :
  len (Limiter.tasks (Limiter.test_concurrent 2 (Some 3))) = 3 /\
  Limiter.outstanding (Limiter.test_concurrent 2 (Some 3)) = 0.
Proof.
  destruct (fixed_concurrency_run 2 3 ltac:(lia) ltac:(lia) ltac:(lia)) as (L & O & _).
  split; assumption.
Defined.

(** C8, as the code has it.  When the caller gives no total, the number of
    requests is 50 whatever the concurrency level; the callers in the
    program ([main] and the ramp sweep) pass the level times 5 themselves. *)
Theorem test_concurrent_default_total C :
  Limiter.total_requests_or_default None = 50 /\
  len (Limiter.tasks (Limiter.test_concurrent C None)) = 50 /\
  (0 <= C -> len (Limiter.tasks (Limiter.call_from_main C)) = C * 5).
Proof.
  split; [reflexivity|]. split.
  - unfold Limiter.test_concurrent. cbn [Limiter.tasks Limiter.total_requests_or_default].
    unfold len. rewrite length_map, length_seq. reflexivity.
  - intros HC. unfold Limiter.call_from_main.
    apply (LimiterFacts.test_concurrent_tasks C (C * 5) ltac:(lia)).
Qed.

(** C8, as stated, fails: a call with concurrency 20 and no total launches
    50 requests, not 100. *)
Lemma test_concurrent_default_is_50 :
  len (Limiter.tasks (Limiter.test_concurrent 20 None)) = 50 /\ 50 <> 20 * 5.
Proof. split; [reflexivity|lia]. Qed.

(** * Further facts *)

(** A lone success measured at 0.0 ms: the latency sum is zero seconds and
    the throughput division raises, with either summation. *)
Lemma calculate_stats_zero_latency alg :
  calculate_stats alg [succeeded pzero] = Raise ZeroDivisionError.
Proof. destruct alg; vm_compute; reflexivity. Qed.

(** C1.  The code on one success measured at 0.0 ms, a non-empty list of
    successful latencies: the expressions of the three percentiles all
    select that latency, yet [calculate_stats] returns no dictionary and so no
    p50, p95 or p99, because the throughput entry divides by a latency sum of
    zero seconds and raises [ZeroDivisionError], with either summation. *)
Theorem calculate_stats_percentiles_absent alg :
  successful_latencies zero_latency_results = [pzero] /\
  percentile (sorted [pzero]) 1 c050 = Return pzero /\
  getitem (sorted [pzero]) (-1) = Return pzero /\
  is_zero (fdiv (py_sum alg [pzero]) (of_int 1000)) = true /\
  calculate_stats alg zero_latency_results = Raise ZeroDivisionError /\
  forall d, calculate_stats alg zero_latency_results <> Return d.
Proof.
  assert (E : calculate_stats alg zero_latency_results = Raise ZeroDivisionError)
    by (destruct alg; vm_compute; reflexivity).
  split; [reflexivity|]. split; [vm_compute; reflexivity|].
  split; [vm_compute; reflexivity|].
  split; [destruct alg; vm_compute; reflexivity|].
  split; [exact E|]. intros d H. rewrite E in H. discriminate H.
Qed.

(** C10.  The code on a collection whose successful subset is not empty, two
    successes of 5e-324 ms beside a failure: the latencies are well-formed
    and positive, but their sum in seconds rounds to zero, the throughput
    entry raises [ZeroDivisionError], and [calculate_stats] returns no
    statistics at all, ordered or not.  It is the defect met at a latency of
    0.0 ms. *)
Theorem calculate_stats_ordering_absent alg :
  successful_latencies tiny_latency_results =
    [smallest_positive; smallest_positive] /\
  wf smallest_positive = true /\ fltb pzero smallest_positive = true /\
  py_min [smallest_positive; smallest_positive] = Return smallest_positive /\
  py_max [smallest_positive; smallest_positive] = Return smallest_positive /\
  is_zero (fdiv (py_sum alg [smallest_positive; smallest_positive]) (of_int 1000))
    = true /\
  calculate_stats alg tiny_latency_results = Raise ZeroDivisionError /\
  forall d, calculate_stats alg tiny_latency_results <> Return d.
Proof.
  assert (E : calculate_stats alg tiny_latency_results = Raise ZeroDivisionError)
    by (destruct alg; vm_compute; reflexivity).
  do 5 (split; [vm_compute; reflexivity|]).
  split; [destruct alg; vm_compute; reflexivity|].
  split; [exact E|]. intros d H. rewrite E in H. discriminate H.
Qed.

(** * Further properties of [calculate_stats] *)

Lemma calculate_stats_entries alg results d :
  let latencies := successful_latencies results in
  let s := sorted latencies in
  calculate_stats alg results = Return d ->
  (latencies = [] /\ d = no_successful_requests) \/
  (latencies <> [] /\
   exists x1 x2 x3 x4 x5 x6 t,
     d = [ ("total", VInt (len results));
           ("success", VInt (len (filter success results)));
           ("errors", VInt (len results - len (filter success results)));
           ("min", VFloat x1); ("max", VFloat x2); ("avg", VFloat x3);
           ("p50", VFloat x4); ("p95", VFloat x5); ("p99", VFloat x6);
           ("throughput", t) ]%string /\
     py_min latencies = Return x1 /\ py_max latencies = Return x2 /\
     mean latencies = Return x3 /\
     percentile s (len s) c050 = Return x4 /\
     (if 20 <=? len s then percentile s (len s) c095 else getitem s (-1)) = Return x5 /\
     (if 100 <=? len s then percentile s (len s) c099 else getitem s (-1)) = Return x6 /\
     throughput alg (filter success results) latencies = Return t).
Proof.
  intros latencies s. unfold calculate_stats.
  fold (successful_latencies results). fold latencies. fold s.
  destruct latencies as [|x l] eqn:El.
  { intros E. injection E as <-. left. split; reflexivity. }
  destruct (py_min (x :: l)) as [x1|]; cbn [bind]; [|discriminate].
  destruct (py_max (x :: l)) as [x2|]; cbn [bind]; [|discriminate].
  destruct (mean (x :: l)) as [x3|]; cbn [bind]; [|discriminate].
  destruct (percentile s (len s) c050) as [x4|]; cbn [bind]; [|discriminate].
  destruct (if 20 <=? len s then _ else _) as [x5|]; cbn [bind]; [|discriminate].
  destruct (if 100 <=? len s then _ else _) as [x6|]; cbn [bind]; [|discriminate].
  destruct (throughput alg _ _) as [t|]; cbn [bind]; [|discriminate].
  intros E. injection E as <-. right. split; [discriminate|].
  exists x1, x2, x3, x4, x5, x6, t. repeat split; reflexivity.
Qed.

Lemma filter_idem {A : Type} (f : A -> bool) (l : list A) :
  filter f (filter f l) = filter f l.
Proof.
  induction l as [|a l IH]; [reflexivity|]. cbn [filter].
  destruct (f a) eqn:E; [|exact IH]. cbn [filter]. rewrite E, IH. reflexivity.
Qed.

Lemma filter_split_len {A : Type} (f : A -> bool) (l : list A) :
  len (filter f l) + len (filter (fun a => negb (f a)) l) = len l.
Proof.
  induction l as [|a l IH]; [reflexivity|]. cbn [filter].
  destruct (f a); cbn [negb]; rewrite !len_cons; lia.
Qed.

Lemma zero_cases x : is_zero x = true -> x = S754_zero false \/ x = S754_zero true.
Proof. destruct x as [[|]| | |]; cbn; auto; discriminate. Qed.

Lemma plain_sum_zeros l : forall acc,
  is_zero acc = true -> Forall (fun x => is_zero x = true) l ->
  is_zero (fold_left fadd l acc) = true.
Proof.
  induction l as [|x l IH]; intros acc Ha Hl; [exact Ha|].
  inversion Hl as [|? ? Hx Hl']; subst. cbn [fold_left]. apply IH; [|exact Hl'].
  destruct (zero_cases _ Ha) as [-> | ->], (zero_cases _ Hx) as [-> | ->]; reflexivity.
Qed.

Lemma neumaier_zeros l : forall f c,
  is_zero f = true -> is_zero c = true -> Forall (fun x => is_zero x = true) l ->
  is_zero (fst (fold_left neumaier_step l (f, c))) = true /\
  is_zero (snd (fold_left neumaier_step l (f, c))) = true.
Proof.
  induction l as [|x l IH]; intros f c Hf Hc Hl; [split; assumption|].
  inversion Hl as [|? ? Hx Hl']; subst. cbn [fold_left].
  destruct (zero_cases _ Hf) as [-> | ->], (zero_cases _ Hc) as [-> | ->],
           (zero_cases _ Hx) as [-> | ->];
    (apply IH; [reflexivity | reflexivity | exact Hl']).
Qed.

Lemma py_sum_zeros alg l :
  Forall (fun x => is_zero x = true) l -> is_zero (py_sum alg l) = true.
Proof.
  intros Hl. destruct alg; unfold py_sum.
  - apply plain_sum_zeros; [reflexivity|exact Hl].
  - destruct (neumaier_zeros l pzero pzero eq_refl eq_refl Hl) as [Hf Hc].
    destruct (fold_left neumaier_step l (pzero, pzero)) as [f c].
    cbn [fst snd] in Hf, Hc. rewrite Hc. cbn [negb andb]. exact Hf.
Qed.

Lemma getitem_last_index {A : Type} (l : list A) :
  0 < len l -> getitem l (len l - 1) = getitem l (-1).
Proof.
  intros H. unfold getitem.
  replace (-1 <? 0) with true by reflexivity.
  replace (len l - 1 <? 0) with false by (symmetry; apply Z.ltb_ge; lia).
  replace (-1 + len l) with (len l - 1) by lia. reflexivity.
Qed.

(** X1.  When every successful latency is zero (0.0 or -0.0 ms, as many of
    them as there are), their sum is zero seconds and the throughput
    division raises [ZeroDivisionError]: no statistics are returned, with
    either summation. *)
Theorem calculate_stats_zero_latencies alg results :
  successful_latencies results <> [] ->
  len (successful_latencies results) < 2 ^ 53 ->
  Forall (fun x => is_zero x = true) (successful_latencies results) ->
  calculate_stats alg results = Raise ZeroDivisionError.
Proof.
  intros Hne Hn Hz.
  destruct (calculate_stats_nonempty alg results Hne Hn)
    as (v_min & v_max & v_avg & v_p50 & v_p95 & v_p99 & _ & _ & _ & _ & _ & _ & _ & _ & ->).
  unfold throughput.
  destruct (successful_latencies results) as [|x l] eqn:El; [congruence|].
  rewrite truediv_1000. cbn [bind].
  pose proof (py_sum_zeros alg (x :: l) Hz) as Hs.
  destruct (zero_cases _ Hs) as [-> | ->]; reflexivity.
Qed.

Lemma calculate_stats_zero_latencies_witness :
  calculate_stats NeumaierSum
    [ succeeded pzero; failed (of_int 7) "HTTP 500"; succeeded (S754_zero true) ]
  = Raise ZeroDivisionError.
Proof.
  apply calculate_stats_zero_latencies.
  - discriminate.
  - vm_compute. reflexivity.
  - repeat constructor.
Defined.

(** X2.  Whenever statistics are returned, the three counts are consistent:
    "total" is the number of results, "success" the number of successful
    ones and at least 1, "errors" the number of failed ones, and
    success + errors = total. *)
Theorem calculate_stats_counts alg results d :
  calculate_stats alg results = Return d ->
  contains "error" d = false ->
  exists total successes errors,
    lookup "total" d = Some (VInt total) /\
    lookup "success" d = Some (VInt successes) /\
    lookup "errors" d = Some (VInt errors) /\
    total = len results /\
    successes = len (filter success results) /\
    errors = len (filter (fun r => negb (success r)) results) /\
    1 <= successes <= total /\ 0 <= errors /\ successes + errors = total.
Proof.
  intros H He. apply calculate_stats_entries in H.
  destruct H as [[_ ->]|(Hne & x1 & x2 & x3 & x4 & x5 & x6 & t & -> & _)];
    [discriminate He|].
  pose proof (filter_split_len success results) as Hsplit.
  pose proof (len_nonneg (filter (fun r => negb (success r)) results)) as Hneg.
  assert (Hpos : 1 <= len (filter success results)).
  { rewrite <- successful_latencies_len.
    destruct (successful_latencies results); [congruence|].
    rewrite len_cons. pose proof (len_nonneg l). lia. }
  exists (len results), (len (filter success results)),
         (len results - len (filter success results)).
  repeat split; try reflexivity; lia.
Qed.

Lemma calculate_stats_counts_witness :
  exists d, calculate_stats PlainSum sample_results = Return d /\
            lookup "total" d = Some (VInt 5) /\
            lookup "success" d = Some (VInt 3) /\
            lookup "errors" d = Some (VInt 2).
Proof.
  destruct (calculate_stats PlainSum sample_results) as [d|] eqn:E;
    [|vm_compute in E; discriminate E].
  destruct (calculate_stats_counts PlainSum sample_results d E)
    as (a & b & c & Ha & Hb & Hc & -> & -> & -> & _).
  - vm_compute in E. injection E as <-. reflexivity.
  - exists d. repeat split; assumption.
Defined.

(** X3.  The failed results only count: the statistics of a collection and
    those of its successful results alone have the same outcome, and when
    they are returned every entry other than "total" and "errors" is the
    same, so that no latency or message of a failed result reaches min, max,
    avg, a percentile or the throughput. *)
Theorem calculate_stats_ignores_failures alg results :
  match calculate_stats alg results,
        calculate_stats alg (filter success results) with
  | Return d, Return d' =>
      forall k, k <> "total"%string -> k <> "errors"%string ->
                lookup k d = lookup k d'
  | Raise c, Raise c' => c = c'
  | _, _ => False
  end.
Proof.
  unfold calculate_stats. rewrite filter_idem.
  destruct (map latency_ms (filter success results)) as [|x l].
  { intros k _ _. reflexivity. }
  destruct (py_min (x :: l)); cbn [bind]; [|reflexivity].
  destruct (py_max (x :: l)); cbn [bind]; [|reflexivity].
  destruct (mean (x :: l)); cbn [bind]; [|reflexivity].
  destruct (percentile _ _ c050); cbn [bind]; [|reflexivity].
  destruct (if 20 <=? _ then _ else _); cbn [bind]; [|reflexivity].
  destruct (if 100 <=? _ then _ else _); cbn [bind]; [|reflexivity].
  destruct (throughput alg _ _); cbn [bind]; [|reflexivity].
  intros k Ht He. cbn [lookup].
  destruct (String.eqb_spec k "total"); [contradiction|].
  destruct (String.eqb_spec k "success"); [reflexivity|].
  destruct (String.eqb_spec k "errors"); [contradiction|].
  reflexivity.
Qed.

(** X4.  The median entry is the element at index [n // 2] of the sorted
    successful latencies for every number [n] of them below 2^53: the float
    product [n * 0.50] never lands on another index.  For an even [n] this
    is the upper one of the two middle elements. *)
Theorem calculate_stats_median alg results d :
  let latencies := successful_latencies results in
  let n := len latencies in
  calculate_stats alg results = Return d ->
  latencies <> [] -> n < 2 ^ 53 ->
  exists p50, field d "p50" = Some p50 /\
              nth_error (sorted latencies) (Z.to_nat (n / 2)) = Some p50 /\
              getitem (sorted latencies) (n / 2) = Return p50.
Proof.
  intros latencies n H Hne Hn.
  destruct (calculate_stats_nonempty alg results Hne Hn)
    as (v_min & v_max & v_avg & v_p50 & v_p95 & v_p99 & _ & _ & _ & H50 & _ & _ & _ & _ & E).
  rewrite E in H.
  destruct (throughput alg _ _) as [t|]; cbn [bind] in H; [|discriminate].
  injection H as <-. exists v_p50. split; [reflexivity|]. split; [exact H50|].
  assert (Hn0 : 0 < n).
  { unfold n. destruct latencies; [congruence|]. rewrite len_cons.
    pose proof (len_nonneg latencies). lia. }
  destruct (getitem_nonneg (sorted latencies) (n / 2)) as (y & Hy & Hy').
  { rewrite sorted_len. fold n. Z.to_euclidean_division_equations; lia. }
  rewrite Hy. fold latencies n in H50. congruence.
Qed.

Lemma calculate_stats_median_witness :
  exists d, calculate_stats PlainSum
              [ succeeded (of_int 100); succeeded (of_int 300) ] = Return d /\
            field d "p50" = Some (of_int 300).
Proof.
  destruct (calculate_stats PlainSum [succeeded (of_int 100); succeeded (of_int 300)])
    as [d|] eqn:E; [|vm_compute in E; discriminate E].
  destruct (calculate_stats_median PlainSum
              [succeeded (of_int 100); succeeded (of_int 300)] d E)
    as (p50 & F & N & _).
  - discriminate.
  - vm_compute. reflexivity.
  - exists d. split; [reflexivity|]. rewrite F.
    vm_compute in N. injection N as <-. vm_compute. reflexivity.
Defined.

Lemma index95_last n :
  0 < n <= 20 -> int_of_float (fmul (of_int n) c095) = Return (n - 1).
Proof.
  intros Hn. rewrite (index_exact_small n c095 95) by (cbn; auto || lia).
  f_equal. Z.to_euclidean_division_equations; lia.
Qed.

Lemma index99_last n :
  0 < n <= 100 -> int_of_float (fmul (of_int n) c099) = Return (n - 1).
Proof.
  intros Hn. rewrite (index_exact_small n c099 99) by (cbn; auto || lia).
  f_equal. Z.to_euclidean_division_equations; lia.
Qed.

Lemma sorted_len_pos l : l <> [] -> 0 < len (sorted l).
Proof.
  intros Hne. rewrite sorted_len. destruct l; [congruence|].
  rewrite len_cons. pose proof (len_nonneg l). lia.
Qed.

(** X5.  The guards [n >= 20] and [n >= 100] never change a result: for up
    to 20 latencies the indexed expression [sorted_latencies[int(n * 0.95)]]
    is the last element of the sorted list, and for up to 100 latencies so
    is [sorted_latencies[int(n * 0.99)]]; the fallback returns what the
    index would. *)
Theorem percentile_guard_redundant (latencies : list float) :
  let s := sorted latencies in
  let n := len s in
  latencies <> [] ->
  (n <= 20 -> percentile s n c095 = getitem s (-1)) /\
  (n <= 100 -> percentile s n c099 = getitem s (-1)).
Proof.
  intros s n Hne. pose proof (sorted_len_pos latencies Hne) as Hn0. fold s n in Hn0.
  split; intros Hn; unfold percentile.
  - rewrite index95_last by lia. cbn [bind]. apply getitem_last_index. exact Hn0.
  - rewrite index99_last by lia. cbn [bind]. apply getitem_last_index. exact Hn0.
Qed.

Lemma percentile_guard_redundant_witness :
  percentile (sorted [of_int 30; of_int 10; of_int 20]) 3 c095 = Return (of_int 30).
Proof.
  destruct (percentile_guard_redundant [of_int 30; of_int 10; of_int 20]) as [H _].
  - discriminate.
  - change (len (sorted [of_int 30; of_int 10; of_int 20])) with 3 in H.
    rewrite H by lia. vm_compute. reflexivity.
Defined.

(** * [print_results] and the report of [run_ramp_test] *)

Lemma getitem_In {A : Type} (l : list A) i x : getitem l i = Return x -> In x l.
Proof.
  unfold getitem. destruct (_ || _); [discriminate|].
  destruct (nth_error l _) as [y|] eqn:E; [|discriminate].
  intros H. injection H as <-. eapply nth_error_In. exact E.
Qed.

Lemma percentile_In l n c x : percentile l n c = Return x -> In x l.
Proof.
  unfold percentile. destruct (int_of_float _) as [i|]; cbn [bind]; [|discriminate].
  apply getitem_In.
Qed.

Lemma sorted_In l x : In x (sorted l) -> In x l.
Proof. apply Permutation_in. apply sorted_perm. Qed.

Lemma throughput_float alg successful latencies t :
  latencies <> [] -> throughput alg successful latencies = Return t ->
  exists q, t = VFloat q.
Proof.
  intros Hne. unfold throughput. destruct latencies; [congruence|].
  destruct (truediv _ _) as [s|]; cbn [bind]; [|discriminate].
  destruct (truediv _ s) as [q|]; cbn [bind]; [|discriminate].
  intros H. injection H as <-. exists q. reflexivity.
Qed.

Lemma calculate_stats_form alg results d :
  calculate_stats alg results = Return d ->
  (successful_latencies results = [] /\ d = no_successful_requests) \/
  (successful_latencies results <> [] /\
   exists x1 x2 x3 x4 x5 x6 q,
     d = stats_dict (len results) (len (filter success results))
           (len results - len (filter success results)) x1 x2 x3 x4 x5 x6 (VFloat q) /\
     In x6 (successful_latencies results) /\
     py_max (successful_latencies results) = Return x2 /\
     (if 100 <=? len (sorted (successful_latencies results))
      then percentile (sorted (successful_latencies results))
             (len (sorted (successful_latencies results))) c099
      else getitem (sorted (successful_latencies results)) (-1)) = Return x6).
Proof.
  intros H. apply calculate_stats_entries in H.
  destruct H as [H|(Hne & x1 & x2 & x3 & x4 & x5 & x6 & t & -> & _ & Hmax & _ & _ & _ & H99 & Ht)];
    [left; exact H|right].
  split; [exact Hne|].
  destruct (throughput_float _ _ _ _ Hne Ht) as (q & ->).
  exists x1, x2, x3, x4, x5, x6, q. split; [reflexivity|]. split; [|split; assumption].
  apply sorted_In.
  destruct (100 <=? _); [eapply percentile_In|eapply getitem_In]; exact H99.
Qed.

Lemma wf_800 : wf (of_int 800) = true.
Proof. reflexivity. Qed.

Lemma below_800 x :
  wf x = true -> fltb x (of_int 800) = negb (fleb (of_int 800) x).
Proof.
  intros Hx. rewrite (fltb_scaled x _ Hx wf_800), (fleb_scaled _ x wf_800 Hx).
  destruct (Z.ltb_spec (scaled x) (scaled (of_int 800)));
    destruct (Z.leb_spec (scaled (of_int 800)) (scaled x)); try reflexivity; lia.
Qed.

Lemma exactly_800 x :
  wf x = true ->
  (fleb x (of_int 800) = true /\ fleb (of_int 800) x = true) <-> x = of_int 800.
Proof.
  intros Hx. rewrite (fleb_scaled x _ Hx wf_800), (fleb_scaled _ x wf_800 Hx).
  split.
  - intros [H1 H2]. apply Z.leb_le in H1, H2. apply scaled_inj; [assumption|exact wf_800|lia].
  - intros ->. split; apply Z.leb_le; lia.
Qed.

Lemma print_results_stats title a b e x1 x2 x3 x4 x5 x6 q :
  print_results title (stats_dict a b e x1 x2 x3 x4 x5 x6 (VFloat q)) =
    Return (table_of title a b e x1 x2 x3 x4 x5 x6 q).
Proof. reflexivity. Qed.

Lemma print_results_stage title a b e x1 x2 x3 x4 x5 x6 q c :
  print_results title
    (with_concurrency (stats_dict a b e x1 x2 x3 x4 x5 x6 (VFloat q)) c) =
    Return (table_of title a b e x1 x2 x3 x4 x5 x6 q).
Proof. reflexivity. Qed.

Lemma no_success_iff results :
  successful_latencies results = [] <-> existsb success results = false.
Proof.
  unfold successful_latencies. induction results as [|r rs IH]; [split; reflexivity|].
  cbn [filter existsb]. destruct (success r); cbn [map orb]; [|exact IH].
  split; discriminate.
Qed.

Lemma no_success_filter results :
  successful_latencies results = [] <-> filter success results = [].
Proof.
  unfold successful_latencies. destruct (filter success results); split; (reflexivity || discriminate).
Qed.

Lemma filter_none_rejected {A : Type} (f : A -> bool) (l : list A) :
  filter (fun a => negb (f a)) l = [] -> filter f l = l.
Proof.
  induction l as [|a l IH]; [reflexivity|]. cbn [filter].
  destruct (f a); cbn [negb]; [|discriminate]. intros H. f_equal. apply IH. exact H.
Qed.

Lemma errors_zero_iff results :
  len results - len (filter success results) = 0 <->
  filter success results = results.
Proof.
  split.
  - intros E. pose proof (filter_split_len success results) as Hs.
    apply filter_none_rejected.
    destruct (filter (fun r => negb (success r)) results); [reflexivity|].
    rewrite len_cons in Hs. pose proof (len_nonneg l). lia.
  - intros ->. lia.
Qed.

(** X6.  [print_results] never raises on what [calculate_stats] returns,
    with or without the concurrency level the sweep adds to it: for a
    collection without success it prints the one line with the message "No
    successful requests", otherwise the table of the ten metrics in their
    order, whose Errors row shows OK exactly when every result succeeded. *)
Theorem print_results_of_stats alg results d title c :
  calculate_stats alg results = Return d ->
  exists p,
    print_results title d = Return p /\
    print_results title (with_concurrency d c) = Return p /\
    match p with
    | ErrorLine t m =>
        filter success results = [] /\ t = title /\
        m = VStr "No successful requests"
    | ResultTable t rows =>
        filter success results <> [] /\ t = title /\
        map metric rows =
          [ "Total Requests"; "Successful"; "Errors"; "Min Latency";
            "Avg Latency"; "P50 Latency"; "P95 Latency"; "P99 Latency";
            "Max Latency"; "Throughput" ]%string /\
        (verdict_of p "Errors" = Some OK <-> filter success results = results) /\
        (verdict_of p "Errors" = Some ALARM <-> filter success results <> results)
    end.
Proof.
  intros H. apply calculate_stats_form in H.
  destruct H as [[Hn ->]|(Hne & x1 & x2 & x3 & x4 & x5 & x6 & q & -> & _)].
  - exists (ErrorLine title (VStr "No successful requests")).
    split; [reflexivity|]. split; [reflexivity|].
    split; [apply no_success_filter; exact Hn|split; reflexivity].
  - eexists. split; [apply print_results_stats|]. split; [apply print_results_stage|].
    split; [intros E; apply Hne; apply no_success_filter; exact E|].
    split; [reflexivity|]. split; [reflexivity|].
    pose proof (errors_zero_iff results) as Hiff.
    unfold table_of, verdict_of. cbn [find metric String.eqb Ascii.eqb Bool.eqb andb verdict].
    destruct (Z.eqb_spec (len results - len (filter success results)) 0) as [E|E].
    + split; split; intros; try reflexivity; try discriminate.
      * apply Hiff; exact E.
      * exfalso. apply Hiff in E. contradiction.
    + split; split; intros; try reflexivity; try discriminate.
      * exfalso. apply E. apply Hiff. assumption.
      * intros E'. apply E. apply Hiff. exact E'.
Qed.

Lemma print_results_of_stats_witness :
  exists d p, calculate_stats PlainSum sample_results = Return d /\
              print_results "Single Request (5 runs)" d = Return p /\
              verdict_of p "Errors" = Some ALARM.
Proof.
  destruct (calculate_stats PlainSum sample_results) as [d|] eqn:E;
    [|vm_compute in E; discriminate E].
  destruct (print_results_of_stats PlainSum sample_results d
              "Single Request (5 runs)" 10 E) as (p & Hp & _ & Hm).
  exists d, p. split; [reflexivity|]. split; [exact Hp|].
  destruct p as [t m|t rows].
  - destruct Hm as [Hm _]. vm_compute in Hm. discriminate Hm.
  - destruct Hm as (_ & _ & _ & _ & Ha). apply Ha. vm_compute. discriminate.
Defined.

Lemma In_wf_latency (l : list float) x :
  Forall (fun y => wf y = true) l -> In x l -> wf x = true.
Proof. intros H Hin. rewrite Forall_forall in H. apply H. exact Hin. Qed.

Lemma breaking_stage a b e x1 x2 x3 x4 x5 x6 t c :
  breaking (with_concurrency (stats_dict a b e x1 x2 x3 x4 x5 x6 t) c) =
    fleb (of_int 800) x6.
Proof. reflexivity. Qed.

(** X7.  The table of a stage and the search for the breaking point set the
    same 800 ms against p99 with overlapping tests: the row "P99 Latency"
    shows PASS when p99 <= 800, the stage counts as breaking point when
    p99 >= 800.  A stage whose p99 is exactly 800 ms is both: PASS in its
    table and the breaking point of the sweep; for no other p99 the two
    hold together. *)
Theorem p99_pass_and_breaking alg results d title c :
  calculate_stats alg results = Return d ->
  successful_latencies results <> [] ->
  Forall (fun x => wf x = true) (successful_latencies results) ->
  let stage := with_concurrency d c in
  exists p p99,
    print_results title stage = Return p /\ field d "p99" = Some p99 /\
    (verdict_of p "P99 Latency" = Some PASS <-> fleb p99 (of_int 800) = true) /\
    (breaking stage = true <-> fleb (of_int 800) p99 = true) /\
    (verdict_of p "P99 Latency" = Some PASS /\ breaking stage = true
     <-> p99 = of_int 800) /\
    (p99 = of_int 800 ->
       forall rest, find_breaking_point (stage :: rest) =
         Return [BreakingPoint (VInt c); RecommendedMax (VInt (c - 10))]).
Proof.
  intros H Hne Hwf stage. apply calculate_stats_form in H.
  destruct H as [[Hn _]|(_ & x1 & x2 & x3 & x4 & x5 & x6 & q & -> & Hin & _)];
    [congruence|].
  pose proof (In_wf_latency _ _ Hwf Hin) as Hx.
  exists (table_of title (len results) (len (filter success results))
            (len results - len (filter success results)) x1 x2 x3 x4 x5 x6 q), x6.
  unfold stage. split; [apply print_results_stage|]. split; [reflexivity|].
  rewrite breaking_stage.
  assert (Hv : verdict_of (table_of title (len results) (len (filter success results))
                 (len results - len (filter success results)) x1 x2 x3 x4 x5 x6 q)
                 "P99 Latency" = Some (if fleb x6 (of_int 800) then PASS else FAIL))
    by reflexivity.
  rewrite Hv.
  assert (Hp : Some (if fleb x6 (of_int 800) then PASS else FAIL) = Some PASS <->
               fleb x6 (of_int 800) = true).
  { destruct (fleb x6 (of_int 800)); split; intros; try reflexivity; discriminate. }
  split; [exact Hp|]. split; [reflexivity|]. split.
  - rewrite Hp. apply exactly_800. exact Hx.
  - intros -> rest. reflexivity.
Qed.

Lemma p99_pass_and_breaking_witness :
  exists d p,
    calculate_stats PlainSum [succeeded (of_int 800)] = Return d /\
    print_results "Concurrency: 10" (with_concurrency d 10) = Return p /\
    verdict_of p "P99 Latency" = Some PASS /\
    breaking (with_concurrency d 10) = true.
Proof.
  destruct (calculate_stats PlainSum [succeeded (of_int 800)]) as [d|] eqn:E;
    [|vm_compute in E; discriminate E].
  destruct (p99_pass_and_breaking PlainSum [succeeded (of_int 800)] d
              "Concurrency: 10" 10 E) as (p & p99 & Hp & F & _ & _ & Hb & _).
  - discriminate.
  - repeat constructor.
  - exists d, p. split; [reflexivity|]. split; [exact Hp|].
    apply Hb. vm_compute in E. injection E as <-.
    vm_compute in F. injection F as <-. vm_compute. reflexivity.
Defined.

(** ** The sweep *)

Lemma ramp_stats_forms alg stage_results levels : forall ds,
  ramp_stats alg stage_results levels = Return ds ->
  Forall2 (fun c s => stage_form (stage_results c) c s) levels ds.
Proof.
  induction levels as [|c levels IH]; intros ds; cbn [ramp_stats].
  - intros E. injection E as <-. constructor.
  - destruct (calculate_stats alg (stage_results c)) as [d|] eqn:Hd; cbn [bind]; [|discriminate].
    destruct (ramp_stats alg stage_results levels) as [rest|]; cbn [bind]; [|discriminate].
    intros E. injection E as <-. constructor; [|apply IH; reflexivity].
    apply calculate_stats_form in Hd.
    destruct Hd as [[Hn ->]|(Hne & x1 & x2 & x3 & x4 & x5 & x6 & q & -> & Hin & Hmax & H99)].
    + left. split; [exact Hn|reflexivity].
    + right. split; [exact Hne|]. do 10 eexists. split; [reflexivity|].
      split; [exact Hin|]. split; [exact Hmax|exact H99].
Qed.

Lemma stage_form_ok results c s : stage_form results c s -> stage_ok s.
Proof.
  intros [[_ ->]|(_ & a & b & e & x1 & x2 & x3 & x4 & x5 & x6 & q & -> & _)].
  - split; [left; reflexivity|exists c; reflexivity].
  - split; [right; exists x6; reflexivity|exists c; reflexivity].
Qed.

Lemma find_breaking_point_returns ds :
  Forall stage_ok ds -> exists lines, find_breaking_point ds = Return lines.
Proof.
  induction 1 as [|s ds Hs _ IH]; [eexists; reflexivity|].
  rewrite (find_breaking_point_cons s ds Hs).
  destruct (breaking s); [eexists; reflexivity|exact IH].
Qed.

Lemma print_results_stage_form title results c s :
  stage_form results c s -> exists p, print_results title s = Return p.
Proof.
  intros [[_ ->]|(_ & a & b & e & x1 & x2 & x3 & x4 & x5 & x6 & q & -> & _)].
  - eexists. reflexivity.
  - eexists. apply print_results_stage.
Qed.

Lemma ramp_stages_agree alg stage_results levels :
  match ramp_stats alg stage_results levels,
        ramp_stages alg stage_results levels with
  | Return ds, Return stages =>
      map fst stages = ds /\ List.length stages = List.length levels
  | Raise e, Raise e' => e = e'
  | _, _ => False
  end.
Proof.
  induction levels as [|c levels IH]; cbn [ramp_stats ramp_stages].
  - split; reflexivity.
  - destruct (calculate_stats alg (stage_results c)) as [d|] eqn:Hd; cbn [bind];
      [|reflexivity].
    assert (Hf : stage_form (stage_results c) c (with_concurrency d c)).
    { assert (Hr : ramp_stats alg stage_results [c] = Return [with_concurrency d c]).
      { cbn [ramp_stats]. rewrite Hd. reflexivity. }
      apply ramp_stats_forms in Hr. inversion Hr; subst. assumption. }
    destruct (print_results_stage_form
                ("Concurrency: " ++ str_of_int c)%string _ _ _ Hf) as (p & Hp).
    unfold with_concurrency in Hp. rewrite Hp. cbn [bind].
    destruct (ramp_stats alg stage_results levels) as [ds|],
             (ramp_stages alg stage_results levels) as [stages|]; cbn [bind];
      try contradiction; [|exact IH].
    destruct IH as [<- Hl]. split; [reflexivity|]. cbn [List.length]. rewrite Hl. reflexivity.
Qed.

Lemma ramp_summary_no_data c rest :
  ramp_summary (with_concurrency no_successful_requests c :: rest) =
    ramp_summary rest.
Proof. reflexivity. Qed.

Lemma ramp_summary_data a b e x1 x2 x3 x4 x5 x6 q c rest :
  ramp_summary (with_concurrency (stats_dict a b e x1 x2 x3 x4 x5 x6 (VFloat q)) c :: rest) =
    (rows <- ramp_summary rest ;;
     Return ({| row_concurrent := Str (VInt c);
                row_p50 := Fixed 0 (VFloat x4) "ms";
                row_p99 := Fixed 0 (VFloat x6) "ms";
                row_throughput := Fixed 1 (VFloat q) "/s";
                row_status := if fltb x6 (of_int 800) then OK else DEGRADED |}
             :: rows)).
Proof. reflexivity. Qed.

Lemma ramp_summary_forms stage_results levels ds :
  Forall2 (fun c s => stage_form (stage_results c) c s) levels ds ->
  exists rows, ramp_summary ds = Return rows /\
               len rows = stages_with_data stage_results levels.
Proof.
  unfold stages_with_data.
  induction 1 as [|c s levels ds Hs _ (rows & Hr & Hl)]; [exists []; split; reflexivity|].
  cbn [filter].
  destruct Hs as [[Hn ->]|(Hne & a & b & e & x1 & x2 & x3 & x4 & x5 & x6 & q & -> & _)].
  - rewrite ramp_summary_no_data.
    apply no_success_iff in Hn. rewrite Hn. exists rows. split; assumption.
  - rewrite ramp_summary_data, Hr. cbn [bind].
    destruct (existsb success (stage_results c)) eqn:Ex;
      [|apply no_success_iff in Ex; contradiction].
    eexists. split; [reflexivity|]. rewrite !len_cons, Hl. reflexivity.
Qed.

(** X8.  The sweep ends with an exception exactly when the statistics of
    one of its stages raise: then the summary is not printed and the
    exception is that of the first such stage, all earlier stages having
    produced statistics; otherwise the statistics of all five stages are
    computed and the closing lines are printed. *)
Theorem run_ramp_test_outcome alg stage_results :
  match run_ramp_test alg stage_results with
  | Return lines =>
      forall c, In c ramp_levels ->
                exists d, calculate_stats alg (stage_results c) = Return d
  | Raise e =>
      exists before c after,
        ramp_levels = before ++ c :: after /\
        calculate_stats alg (stage_results c) = Raise e /\
        forall c', In c' before ->
                   exists d, calculate_stats alg (stage_results c') = Return d
  end.
Proof.
  unfold run_ramp_test.
  assert (G : forall levels,
    match ramp_stats alg stage_results levels with
    | Return ds =>
        Forall stage_ok ds /\
        forall c, In c levels -> exists d, calculate_stats alg (stage_results c) = Return d
    | Raise e =>
        exists before c after,
          levels = before ++ c :: after /\
          calculate_stats alg (stage_results c) = Raise e /\
          forall c', In c' before ->
                     exists d, calculate_stats alg (stage_results c') = Return d
    end).
  { induction levels as [|c levels IH]; cbn [ramp_stats].
    - split; [constructor|]. intros c [].
    - destruct (calculate_stats alg (stage_results c)) as [d|e] eqn:Hd; cbn [bind].
      + destruct (ramp_stats alg stage_results levels) as [ds|e]; cbn [bind].
        * destruct IH as [Hok Hall]. split.
          -- constructor; [|exact Hok]. apply (stage_ok_setitem alg _ d c Hd).
          -- intros c' [<-|Hin]; [exists d; exact Hd|apply Hall; exact Hin].
        * destruct IH as (before & c' & after & -> & Hc' & Hb).
          exists (c :: before), c', after. split; [reflexivity|]. split; [exact Hc'|].
          intros c'' [<-|Hin]; [exists d; exact Hd|apply Hb; exact Hin].
      + exists [], c, levels. split; [reflexivity|]. split; [exact Hd|]. intros c' []. }
  specialize (G ramp_levels).
  destruct (ramp_stats alg stage_results ramp_levels) as [ds|e]; cbn [bind]; [|exact G].
  destruct G as [Hok Hall].
  destruct (find_breaking_point_returns ds Hok) as (lines & ->). exact Hall.
Qed.

(** X9.  All that the sweep prints.  [run_ramp_test] with the tables of its
    stages and its summary table ends as the search for the breaking point
    alone does: printing never raises, and an exception of a stage's
    statistics is passed on unchanged.  When it returns, it printed one table
    or error line per level, a summary row for each stage that had a
    success and none for the others, and the same closing lines. *)
Theorem run_ramp_report_agrees alg stage_results :
  match run_ramp_test alg stage_results,
        run_ramp_report alg stage_results with
  | Return lines, Return report =>
      closing report = lines /\
      List.length (stage_tables report) = 5%nat /\
      len (summary report) = stages_with_data stage_results ramp_levels
  | Raise e, Raise e' => e = e'
  | _, _ => False
  end.
Proof.
  unfold run_ramp_test, run_ramp_report.
  pose proof (ramp_stages_agree alg stage_results ramp_levels) as Ha.
  destruct (ramp_stats alg stage_results ramp_levels) as [ds|e] eqn:Hs,
           (ramp_stages alg stage_results ramp_levels) as [stages|e']; cbn [bind];
    try contradiction; [|exact Ha].
  destruct Ha as [Hm Hl].
  pose proof (ramp_stats_forms _ _ _ _ Hs) as Hf.
  destruct (ramp_summary_forms _ _ _ Hf) as (rows & Hr & Hn).
  rewrite Hm, Hr. cbn [bind].
  assert (Hok : Forall stage_ok ds).
  { clear - Hf. induction Hf; constructor; [eapply stage_form_ok; eassumption|assumption]. }
  destruct (find_breaking_point_returns ds Hok) as (lines & ->). cbn [bind closing stage_tables summary].
  split; [reflexivity|]. split; [|exact Hn]. rewrite length_map. exact Hl.
Qed.

Lemma ramp_summary_consistent stage_results levels ds :
  Forall2 (fun c s => stage_form (stage_results c) c s) levels ds ->
  (forall c, In c levels ->
             Forall (fun x => wf x = true) (successful_latencies (stage_results c))) ->
  exists rows lines,
    ramp_summary ds = Return rows /\ find_breaking_point ds = Return lines /\
    (lines = [AllPassed] <-> Forall (fun r => row_status r = OK) rows) /\
    (lines <> [AllPassed] <-> Exists (fun r => row_status r = DEGRADED) rows).
Proof.
  induction 1 as [|c s levels ds Hs _ IH]; intros Hwf.
  - exists [], [AllPassed]. split; [reflexivity|]. split; [reflexivity|]. split.
    + split; intros; [constructor|reflexivity].
    + split; [congruence|]. intros Hex. inversion Hex.
  - destruct IH as (rows & lines & Hr & Hl & Hiff & Hex).
    { intros c' Hc'. apply Hwf. right. exact Hc'. }
    destruct Hs as [[Hn ->]|(Hne & a & b & e & x1 & x2 & x3 & x4 & x5 & x6 & q & -> & Hin & _)].
    + exists rows, lines. rewrite ramp_summary_no_data.
      split; [exact Hr|]. split; [exact Hl|]. split; assumption.
    + pose proof (In_wf_latency _ _ (Hwf c (or_introl eq_refl)) Hin) as Hx.
      rewrite ramp_summary_data, Hr. cbn [bind].
      rewrite find_breaking_point_cons
        by (split; [right; exists x6; reflexivity|exists c; reflexivity]).
      rewrite breaking_stage, (below_800 x6 Hx).
      destruct (fleb (of_int 800) x6); cbn [negb].
      * eexists. eexists. split; [reflexivity|]. split; [reflexivity|]. split.
        -- split; [discriminate|]. intros F. inversion F as [|? ? F1 _]. discriminate F1.
        -- split; [|discriminate]. intros _. left. reflexivity.
      * eexists. exists lines. split; [reflexivity|]. split; [exact Hl|]. split.
        -- rewrite Hiff. split.
           ++ intros F. constructor; [reflexivity|exact F].
           ++ intros F. inversion F. assumption.
        -- rewrite Hex. split.
           ++ intros E. right. exact E.
           ++ intros E. inversion E as [? ? E1|? ? E1]; [discriminate E1|exact E1].
Qed.

(** X10.  The summary table and the closing lines agree on well-formed
    latencies: the sweep names a breaking point exactly when a row of the
    summary is marked DEGRADED, and reports that all tests passed exactly
    when every row -- if there is any -- is marked OK. *)
Theorem summary_matches_closing alg stage_results report :
  run_ramp_report alg stage_results = Return report ->
  (forall c, In c ramp_levels ->
             Forall (fun x => wf x = true) (successful_latencies (stage_results c))) ->
  (closing report = [AllPassed] <->
   Forall (fun r => row_status r = OK) (summary report)) /\
  (closing report <> [AllPassed] <->
   Exists (fun r => row_status r = DEGRADED) (summary report)).
Proof.
  unfold run_ramp_report. intros H Hwf.
  pose proof (ramp_stages_agree alg stage_results ramp_levels) as Ha.
  destruct (ramp_stages alg stage_results ramp_levels) as [stages|]; cbn [bind] in H;
    [|discriminate].
  destruct (ramp_stats alg stage_results ramp_levels) as [ds|] eqn:Hs; [|contradiction].
  destruct Ha as [Hm _]. rewrite Hm in H.
  pose proof (ramp_stats_forms _ _ _ _ Hs) as Hf.
  destruct (ramp_summary_consistent _ _ _ Hf Hwf) as (rows & lines & Hr & Hl & Hiff & Hex).
  rewrite Hr, Hl in H. cbn [bind] in H. injection H as <-.
  cbn [closing summary]. split; assumption.
Qed.

Lemma summary_matches_closing_witness :
  exists report,
    run_ramp_report PlainSum example_stage_results = Return report /\
    Exists (fun r => row_status r = DEGRADED) (summary report).
Proof.
  destruct (run_ramp_report PlainSum example_stage_results) as [report|] eqn:E;
    [|vm_compute in E; discriminate E].
  destruct (summary_matches_closing PlainSum example_stage_results report E) as [_ H].
  - intros c Hc. cbn in Hc.
    destruct Hc as [<-|[<-|[<-|[<-|[<-|[]]]]]]; repeat constructor.
  - exists report. split; [reflexivity|]. apply H.
    vm_compute in E. injection E as <-. discriminate.
Defined.

(** X11.  A sweep in which no request succeeds at any level -- the server
    is down -- closes with "All tests passed! Server can handle 50+
    concurrent requests.": the stages without data are skipped by the search
    for the breaking point.  Each stage prints its error line and the summary
    table has no row. *)
Theorem ramp_without_success_passes alg stage_results :
  (forall c, In c ramp_levels -> filter success (stage_results c) = []) ->
  run_ramp_test alg stage_results = Return [AllPassed] /\
  exists report,
    run_ramp_report alg stage_results = Return report /\
    closing report = [AllPassed] /\ summary report = [] /\
    stage_tables report =
      map (fun c => ErrorLine ("Concurrency: " ++ str_of_int c)
                              (VStr "No successful requests"))
          ramp_levels.
Proof.
  intros H.
  assert (Hc : forall c, In c ramp_levels ->
                 calculate_stats alg (stage_results c) = Return no_successful_requests).
  { intros c Hc. unfold calculate_stats. rewrite (H c Hc). reflexivity. }
  unfold run_ramp_test, run_ramp_report, ramp_levels in *.
  cbn [ramp_stats ramp_stages].
  rewrite !Hc by (cbn; tauto). split; [reflexivity|].
  eexists. split; [reflexivity|]. split; [reflexivity|]. split; reflexivity.
Qed.

Lemma ramp_without_success_passes_witness :
  run_ramp_test NeumaierSum (fun _ => all_failed_results) = Return [AllPassed].
Proof.
  apply (ramp_without_success_passes NeumaierSum (fun _ => all_failed_results)).
  intros c _. reflexivity.
Defined.

Lemma p99_is_max_upto_100 l x2 x6 :
  l <> [] -> len l <= 100 -> Forall (fun x => wf x = true) l ->
  py_max l = Return x2 ->
  (if 100 <=? len (sorted l) then percentile (sorted l) (len (sorted l)) c099
   else getitem (sorted l) (-1)) = Return x6 ->
  x6 = x2.
Proof.
  intros Hne Hn Hwf Hmax H.
  pose proof (sorted_last_is_max l x2 Hwf Hmax) as Hlast.
  pose proof (sorted_len_pos l Hne) as Hpos.
  destruct (100 <=? len (sorted l)); [|congruence].
  unfold percentile in H.
  rewrite index99_last in H by (rewrite sorted_len in *; lia).
  cbn [bind] in H. rewrite getitem_last_index in H by exact Hpos. congruence.
Qed.

(** X12.  With at most 100 successes a stage's p99 is its slowest success,
    so at the first level of the sweep (50 requests) a single success of
    800 ms or more makes 10 the breaking point and 0 the recommended
    maximum, whatever the other requests and the later stages did. *)
Theorem ramp_first_stage_outlier alg stage_results ds x :
  ramp_stats alg stage_results ramp_levels = Return ds ->
  len (stage_results 10) <= 100 ->
  Forall (fun y => wf y = true) (successful_latencies (stage_results 10)) ->
  In x (successful_latencies (stage_results 10)) ->
  fleb (of_int 800) x = true ->
  run_ramp_test alg stage_results =
    Return [BreakingPoint (VInt 10); RecommendedMax (VInt 0)].
Proof.
  intros Hs Hn Hwf Hin Hx. unfold run_ramp_test. rewrite Hs. cbn [bind].
  apply ramp_stats_forms in Hs. unfold ramp_levels in Hs.
  inversion Hs as [|c s levels rest Hf _]; subst.
  assert (Hne : successful_latencies (stage_results 10) <> [])
    by (intros E; rewrite E in Hin; exact Hin).
  destruct Hf as [[Hn0 _]|(_ & a & b & e & x1 & x2 & x3 & x4 & x5 & x6 & q & -> & _ & Hmax & H99)];
    [congruence|].
  assert (Hlen : len (successful_latencies (stage_results 10)) <= 100).
  { rewrite successful_latencies_len.
    pose proof (filter_split_len success (stage_results 10)).
    pose proof (len_nonneg (filter (fun r => negb (success r)) (stage_results 10))). lia. }
  rewrite (p99_is_max_upto_100 _ x2 x6 Hne Hlen Hwf Hmax H99) in *.
  destruct (py_max_spec _ Hne Hwf) as (m & Hm & Hmin & Hge).
  rewrite Hmax in Hm. injection Hm as <-.
  rewrite find_breaking_point_cons
    by (split; [right; exists x2; reflexivity|exists 10; reflexivity]).
  rewrite breaking_stage.
  assert (Hb : fleb (of_int 800) x2 = true).
  { pose proof (In_wf_latency _ _ Hwf Hin) as Wx.
    pose proof (In_wf_latency _ _ Hwf Hmin) as W2.
    rewrite (fleb_scaled _ _ wf_800 W2). rewrite (fleb_scaled _ _ wf_800 Wx) in Hx.
    apply Z.leb_le in Hx. apply Z.leb_le. specialize (Hge x Hin). lia. }
  rewrite Hb. reflexivity.
Qed.

Lemma ramp_first_stage_outlier_witness :
  run_ramp_test PlainSum
    (fun c => if c =? 10
              then [ succeeded (of_int 100); failed (of_int 7) "HTTP 500";
                     succeeded (of_int 900) ]
              else all_failed_results) =
    Return [BreakingPoint (VInt 10); RecommendedMax (VInt 0)].
Proof.
  destruct (ramp_stats PlainSum
              (fun c => if c =? 10
                        then [ succeeded (of_int 100); failed (of_int 7) "HTTP 500";
                               succeeded (of_int 900) ]
                        else all_failed_results) ramp_levels) as [ds|] eqn:E;
    [|vm_compute in E; discriminate E].
  apply (ramp_first_stage_outlier PlainSum _ ds (of_int 900) E).
  - vm_compute. discriminate.
  - repeat constructor.
  - right. left. reflexivity.
  - vm_compute. reflexivity.
Defined.

(** * [test_single_request] *)

Lemma single_loop_returns calls indices : forall acc,
  (forall i, In i indices -> exists r, request (calls i) = Return r) ->
  exists rs, single_loop calls indices acc = Return (acc ++ rs) /\
             Forall2 (fun i r => request (calls i) = Return r) indices rs.
Proof.
  induction indices as [|i indices IH]; intros acc H; cbn [single_loop].
  - exists []. rewrite app_nil_r. split; [reflexivity|constructor].
  - destruct (H i (or_introl eq_refl)) as (r & Hr). rewrite Hr. cbn [bind].
    destruct (IH (acc ++ [r])) as (rs & Hrs & Hf).
    { intros j Hj. apply H. right. exact Hj. }
    exists (r :: rs). rewrite Hrs, <- app_assoc. split; [reflexivity|].
    constructor; assumption.
Qed.

Lemma single_loop_raises calls cls : forall indices acc before j after,
  indices = before ++ j :: after ->
  (forall i, In i before -> exists r, request (calls i) = Return r) ->
  request (calls j) = Raise cls ->
  single_loop calls indices acc = Raise cls.
Proof.
  intros indices acc before. revert indices acc.
  induction before as [|i before IH]; intros indices acc j after -> Hb Hj;
    cbn [app single_loop].
  - rewrite Hj. reflexivity.
  - destruct (Hb i (or_introl eq_refl)) as (r & ->). cbn [bind].
    apply (IH _ _ j after eq_refl); [|exact Hj].
    intros i' Hi'. apply Hb. right. exact Hi'.
Qed.

Lemma request_returns c :
  match answer c with
  | Responded _ => True
  | Failed cls _ => is_Exception cls = true
  end ->
  exists r, request c = Return r /\
            (success r = true <-> answer c = Responded 200).
Proof.
  unfold request, make_request. destruct (answer c) as [code|cls msg]; intros H.
  - destruct (Z.eqb_spec code 200) as [->|Hne]; eexists; (split; [reflexivity|]); cbn [success].
    + split; reflexivity.
    + split; [discriminate|]. intros E. injection E as E. contradiction.
  - rewrite H. eexists. split; [reflexivity|]. cbn [success]. split; discriminate.
Qed.

Lemma Forall2_nth {A B : Type} (P : A -> B -> Prop) l1 l2 :
  Forall2 P l1 l2 ->
  List.length l1 = List.length l2 /\
  forall i a, nth_error l1 i = Some a -> exists b, nth_error l2 i = Some b /\ P a b.
Proof.
  induction 1 as [|a b l1 l2 Hab _ [IHl IHn]].
  - split; [reflexivity|]. intros [|i] a H; discriminate H.
  - split; [cbn [List.length]; congruence|]. intros [|i] a' H; cbn [nth_error] in *.
    + injection H as <-. exists b. split; [reflexivity|exact Hab].
    + apply IHn. exact H.
Qed.

(** X13.  The single-request test awaits five requests one after the other.
    When each of them ends with a response or with an exception that
    [except Exception] catches, it returns exactly five results in the order
    of the calls, the [i]-th being the result of the [i]-th request, which is
    a success exactly when that request was answered with status 200. *)
Theorem test_single_request_results calls :
  (forall i, (i < 5)%nat ->
     match answer (calls i) with
     | Responded _ => True
     | Failed cls _ => is_Exception cls = true
     end) ->
  exists rs,
    test_single_request calls = Return rs /\ len rs = 5 /\
    forall i, (i < 5)%nat ->
      exists r, nth_error rs i = Some r /\ request (calls i) = Return r /\
                (success r = true <-> answer (calls i) = Responded 200).
Proof.
  intros H. unfold test_single_request.
  destruct (single_loop_returns calls (seq 0 5) []) as (rs & Hrs & Hf).
  { intros i Hi. apply in_seq in Hi.
    destruct (request_returns (calls i) (H i ltac:(lia))) as (r & Hr & _).
    exists r. exact Hr. }
  exists rs. split; [exact Hrs|].
  destruct (Forall2_nth _ _ _ Hf) as [Hl Hn]. rewrite length_seq in Hl.
  split; [unfold len; lia|].
  intros i Hi. destruct (Hn i i) as (r & Hr & Hreq).
  { rewrite nth_error_nth' with (d := 0%nat) by (rewrite length_seq; exact Hi).
    rewrite seq_nth by exact Hi. reflexivity. }
  exists r. split; [exact Hr|]. split; [exact Hreq|].
  destruct (request_returns (calls i) (H i Hi)) as (r' & Hr' & Hs).
  rewrite Hreq in Hr'. injection Hr' as <-. exact Hs.
Qed.

Lemma test_single_request_results_witness :
  exists rs,
    test_single_request
      (fun i => {| started := of_int 1; ended := of_int 2;
                   answer := if Nat.even i then Responded 200
                             else Failed TimeoutException "timed out" |})
      = Return rs /\ len rs = 5.
Proof.
  destruct (test_single_request_results
              (fun i => {| started := of_int 1; ended := of_int 2;
                           answer := if Nat.even i then Responded 200
                                     else Failed TimeoutException "timed out" |}))
    as (rs & Hrs & Hl & _).
  - intros i _. cbn [answer]. destruct (Nat.even i); [exact I|reflexivity].
  - exists rs. split; assumption.
Defined.

(** X14.  A cancellation or a keyboard interrupt during the [j]-th request
    of the single-request test ends the test with that exception: the
    results collected so far are not returned. *)
Theorem test_single_request_interrupted calls j cls msg :
  (j < 5)%nat ->
  answer (calls j) = Failed cls msg -> is_Exception cls = false ->
  (forall i, (i < j)%nat ->
     match answer (calls i) with
     | Responded _ => True
     | Failed cls' _ => is_Exception cls' = true
     end) ->
  test_single_request calls = Raise cls.
Proof.
  intros Hj Ha Hc Hb. unfold test_single_request.
  apply (single_loop_raises calls cls (seq 0 5) [] (seq 0 j) j (seq (S j) (5 - S j))).
  - replace 5%nat with (j + (5 - j))%nat at 1 by lia.
    rewrite seq_app. cbn [Nat.add]. f_equal.
    replace (5 - j)%nat with (S (5 - S j)) by lia. reflexivity.
  - intros i Hi. apply in_seq in Hi.
    destruct (request_returns (calls i) (Hb i ltac:(lia))) as (r & Hr & _).
    exists r. exact Hr.
  - unfold request, make_request. rewrite Ha, Hc. reflexivity.
Qed.

Lemma test_single_request_interrupted_witness :
  test_single_request
    (fun i => {| started := of_int 1; ended := of_int 2;
                 answer := if (i <? 3)%nat then Responded 200
                           else Failed CancelledError EmptyString |})
    = Raise CancelledError.
Proof.
  apply (test_single_request_interrupted _ 3 CancelledError EmptyString).
  - lia.
  - reflexivity.
  - reflexivity.
  - intros i Hi. cbn [answer]. destruct (Nat.ltb_spec i 3); [exact I|lia].
Defined.

(** X15.  The table of the single-request test: when statistics are
    returned "total" is 5, and with at most five successes the entries
    "p95", "p99" and "max" are one and the same latency. *)
Theorem single_request_stats alg calls rs d :
  test_single_request calls = Return rs ->
  calculate_stats alg rs = Return d ->
  contains "error" d = false ->
  Forall (fun x => wf x = true) (successful_latencies rs) ->
  lookup "total" d = Some (VInt 5) /\
  exists v_max, field d "max" = Some v_max /\ field d "p95" = Some v_max /\
                field d "p99" = Some v_max.
Proof.
  intros Ht Hd He Hwf.
  assert (Hlen : len rs = 5).
  { unfold test_single_request in Ht. cbn [seq single_loop] in Ht.
    repeat (destruct (request _) as [?r|]; cbn [bind] in Ht; [|discriminate Ht]).
    injection Ht as <-. reflexivity. }
  apply calculate_stats_entries in Hd.
  destruct Hd as [[_ ->]|(Hne & x1 & x2 & x3 & x4 & x5 & x6 & t & -> & _ & Hmax & _ & _ & H95 & H99 & _)];
    [discriminate He|].
  rewrite Hlen. split; [reflexivity|].
  pose proof (sorted_last_is_max _ x2 Hwf Hmax) as Hlast.
  assert (Hn : len (sorted (successful_latencies rs)) <= 5).
  { rewrite sorted_len, successful_latencies_len.
    pose proof (filter_split_len success rs).
    pose proof (len_nonneg (filter (fun r => negb (success r)) rs)). lia. }
  replace (20 <=? _) with false in H95 by (symmetry; apply Z.leb_gt; lia).
  replace (100 <=? _) with false in H99 by (symmetry; apply Z.leb_gt; lia).
  exists x2. split; [reflexivity|]. split; unfold field; cbn [lookup String.eqb Ascii.eqb Bool.eqb andb];
    congruence.
Qed.

Lemma single_request_stats_witness :
  exists rs d,
    test_single_request
      (fun i => {| started := of_int 1; ended := of_int (2 + Z.of_nat i);
                   answer := Responded 200 |}) = Return rs /\
    calculate_stats PlainSum rs = Return d /\
    lookup "total" d = Some (VInt 5) /\
    field d "p95" = Some (of_int 5000) /\ field d "p99" = Some (of_int 5000).
Proof.
  destruct (test_single_request
              (fun i => {| started := of_int 1; ended := of_int (2 + Z.of_nat i);
                           answer := Responded 200 |})) as [rs|] eqn:Ers;
    [|vm_compute in Ers; discriminate Ers].
  destruct (calculate_stats PlainSum rs) as [d|] eqn:Ed;
    [|vm_compute in Ers; injection Ers as <-; vm_compute in Ed; discriminate Ed].
  destruct (single_request_stats PlainSum _ rs d Ers Ed) as (Ht & v_max & Hm & H95 & H99).
  - vm_compute in Ers. injection Ers as <-. vm_compute in Ed. injection Ed as <-.
    reflexivity.
  - vm_compute in Ers. injection Ers as <-. repeat constructor.
  - exists rs, d. split; [reflexivity|]. split; [exact Ed|]. split; [exact Ht|].
    rewrite H95, H99, <- Hm.
    vm_compute in Ers. injection Ers as <-. vm_compute in Ed. injection Ed as <-.
    split; vm_compute; reflexivity.
Defined.

(** * Runs of [test_concurrent] outside the frame [0 < C <= N], and [main] *)

Module LimiterRuns.
Import Limiter.
Import LimiterFacts.

Lemma test_concurrent_pending c n : all_pending (tasks (test_concurrent c n)).
Proof.
  unfold test_concurrent, all_pending. cbn [tasks].
  apply Forall_map. apply Forall_forall. intros i _. reflexivity.
Qed.

Lemma all_pending_holding ts : all_pending ts -> count_phase Holding ts = 0.
Proof.
  induction 1 as [|t ts Ht _ IH]; [reflexivity|].
  rewrite count_phase_cons, Ht, IH. reflexivity.
Qed.

Lemma no_step s : value s <= 0 -> all_pending (tasks s) -> quiescent s.
Proof.
  intros Hv Hp s' Hs.
  destruct Hs as [s i t Hi Ht Hpos|s i t start now o r Hi Ht Hm]; [lia|].
  unfold all_pending in Hp. rewrite Forall_forall in Hp.
  specialize (Hp t (nth_error_In _ _ Hi)). congruence.
Qed.

Lemma acquired_zero ts : acquired 0 ts = ts.
Proof. reflexivity. Qed.

Lemma acquired_cons j t ts :
  acquired (S j) (t :: ts) =
    {| sentence := sentence t; stage := Holding |} :: acquired j ts.
Proof. reflexivity. Qed.

Lemma acquired_step j : forall ts,
  (j < List.length ts)%nat ->
  set_stage j Holding (acquired j ts) = acquired (S j) ts.
Proof.
  induction j as [|j IH]; intros [|t ts] H; cbn [List.length] in H; try lia.
  - reflexivity.
  - rewrite !acquired_cons. cbn [set_stage]. rewrite IH by lia. reflexivity.
Qed.

Lemma acquired_nth j : forall ts,
  nth_error (acquired j ts) j = nth_error ts j.
Proof.
  induction j as [|j IH]; intros [|t ts]; try reflexivity.
  rewrite acquired_cons. cbn [nth_error]. apply IH.
Qed.

Lemma acquired_holding j : forall ts,
  all_pending ts -> (j <= List.length ts)%nat ->
  count_phase Holding (acquired j ts) = Z.of_nat j.
Proof.
  induction j as [|j IH]; intros ts Hp Hj.
  - rewrite acquired_zero. apply all_pending_holding. exact Hp.
  - destruct ts as [|t ts]; cbn [List.length] in Hj; [lia|].
    inversion Hp; subst.
    rewrite acquired_cons, count_phase_cons, IH by (assumption || lia).
    cbn [stage in_phase b2z]. lia.
Qed.

Lemma acquire_run c ts j :
  all_pending ts -> (j <= List.length ts)%nat -> Z.of_nat j <= c ->
  steps j {| value := c; tasks := ts; results := [] |}
          {| value := c - Z.of_nat j; tasks := acquired j ts; results := [] |}.
Proof.
  intros Hp. induction j as [|j IH]; intros Hj Hc.
  - rewrite acquired_zero. replace (c - Z.of_nat 0) with c by lia. constructor.
  - destruct (nth_error ts j) as [t|] eqn:Et;
      [|apply nth_error_None in Et; lia].
    eapply steps_snoc; [apply IH; lia|].
    pose proof (step_acquire
                  {| value := c - Z.of_nat j; tasks := acquired j ts; results := [] |}
                  j t) as Hs.
    cbn [value tasks results] in Hs.
    rewrite acquired_step in Hs by lia.
    replace (c - Z.of_nat j - 1) with (c - Z.of_nat (S j)) in Hs by lia.
    apply Hs.
    + rewrite acquired_nth. exact Et.
    + unfold all_pending in Hp. rewrite Forall_forall in Hp.
      apply Hp. eapply nth_error_In. exact Et.
    + lia.
Qed.

Lemma set_stage_sentences i p : forall ts,
  map sentence (set_stage i p ts) = map sentence ts.
Proof.
  induction i as [|i IH]; intros [|t ts]; cbn [set_stage map]; try reflexivity.
  rewrite IH. reflexivity.
Qed.

Lemma steps_sentences k s0 s :
  steps k s0 s -> map sentence (tasks s) = map sentence (tasks s0).
Proof.
  induction 1 as [s|k s s' s'' _ IH Hs]; [reflexivity|].
  rewrite <- IH.
  destruct Hs as [s' i t Hi Ht Hpos|s' i t start now o r Hi Ht Hm]; cbn [tasks];
    apply set_stage_sentences.
Qed.

Lemma nth_error_seq0 n i j : nth_error (seq 0 n) i = Some j -> j = i.
Proof.
  intros H. assert (Hi : (i < n)%nat).
  { rewrite <- (length_seq n 0). apply nth_error_Some. congruence. }
  apply (nth_error_nth _ _ 0%nat) in H. rewrite seq_nth in H by exact Hi. lia.
Qed.

Lemma sentence_for_corpus i : In (sentence_for i) TEST_SENTENCES.
Proof.
  unfold sentence_for. apply nth_In.
  change (List.length TEST_SENTENCES) with 10%nat. apply Nat.mod_upper_bound. lia.
Qed.

Lemma sentence_for_period i : sentence_for (i + 10) = sentence_for i.
Proof.
  unfold sentence_for. change (List.length TEST_SENTENCES) with 10%nat.
  replace (i + 10)%nat with (i + 1 * 10)%nat by lia.
  rewrite Nat.Div0.mod_add. reflexivity.
Qed.

End LimiterRuns.

(** X16.  For every limit [C >= 0] and every number [N >= 0] of requests,
    also when [C] exceeds [N]: the number of outstanding invocations never
    exceeds the smaller of [C] and [N], and there is a run in which it
    reaches it, so the limiter admits as many requests at once as the limit
    and the number of requests allow. *)
Theorem limiter_peak C N :
  0 <= C -> 0 <= N ->
  let s0 := Limiter.test_concurrent C (Some N) in
  (forall k s, Limiter.steps k s0 s -> Limiter.outstanding s <= Z.min C N) /\
  exists k s, Limiter.steps k s0 s /\ Limiter.outstanding s = Z.min C N.
Proof.
  intros HC HN s0. split.
  - intros k s Hk.
    destruct (LimiterFacts.invariant_steps C N s0 k s
                (LimiterFacts.invariant_init C N HN HC) Hk) as [(Hv & Hc & Hl & _) _].
    pose proof (LimiterFacts.count_phase_total (Limiter.tasks s)) as Ht.
    pose proof (LimiterFacts.count_phase_nonneg Limiter.Pending (Limiter.tasks s)).
    pose proof (LimiterFacts.count_phase_nonneg Limiter.Finished (Limiter.tasks s)).
    unfold Limiter.outstanding in *. lia.
  - destruct (LimiterFacts.test_concurrent_tasks C N HN) as (Hl & _).
    pose proof (LimiterRuns.test_concurrent_pending C (Some N)) as Hp.
    fold s0 in Hl, Hp. unfold len in Hl.
    exists (Z.to_nat (Z.min C N)).
    exists {| Limiter.value := C - Z.of_nat (Z.to_nat (Z.min C N));
              Limiter.tasks := acquired (Z.to_nat (Z.min C N)) (Limiter.tasks s0);
              Limiter.results := [] |}.
    split.
    + apply (LimiterRuns.acquire_run C (Limiter.tasks s0)); [exact Hp|lia|lia].
    + unfold Limiter.outstanding. cbn [Limiter.tasks].
      rewrite LimiterRuns.acquired_holding by (assumption || lia). lia.
Qed.

Lemma limiter_peak_witness :
  exists k s, Limiter.steps k (Limiter.test_concurrent 3 (Some 2)) s /\
              Limiter.outstanding s = 2.
Proof.
  destruct (limiter_peak 3 2) as [_ H]; [lia|lia|exact H].
Defined.

(** X17.  With a limit of zero no invocation ever acquires a slot: the
    launched coroutines all wait, no request is issued and no result is
    collected, so a call [test_concurrent(0, N)] with [N > 0] never
    returns. *)
Theorem zero_limit_never_starts N :
  0 < N ->
  let s0 := Limiter.test_concurrent 0 (Some N) in
  Limiter.quiescent s0 /\
  Limiter.count_phase Limiter.Pending (Limiter.tasks s0) = N /\
  Limiter.results s0 = [] /\
  forall k s, Limiter.steps k s0 s -> s = s0.
Proof.
  intros HN s0.
  assert (Hq : Limiter.quiescent s0).
  { apply LimiterRuns.no_step; [cbn; lia|apply LimiterRuns.test_concurrent_pending]. }
  split; [exact Hq|].
  split; [apply (LimiterFacts.test_concurrent_tasks 0 N); lia|].
  split; [reflexivity|].
  intros k s Hk. induction Hk as [s|k s s' s'' _ IH Hs]; [reflexivity|].
  rewrite (IH Hq) in Hs. exfalso. exact (Hq _ Hs).
Qed.

Lemma zero_limit_never_starts_witness :
  Limiter.quiescent (Limiter.test_concurrent 0 (Some 5)).
Proof.
  destruct (zero_limit_never_starts 5) as [H _]; [lia|exact H].
Defined.

(** X18.  The option [--concurrent N] of [main], without [--single]: for
    [N = 0] the option counts as absent and [main] goes on to the ramp test
    or to the full suite; for any other [N] it runs one test of [5 * N]
    requests with limit [N].  That test fails with [ValueError] before any
    request for a negative [N]; for a positive [N] it launches [5 * N]
    invocations of which never more than [N] are outstanding. *)
Theorem main_concurrent_option args c :
  arg_single args = false -> arg_concurrent args = Some c ->
  (c = 0 ->
     run_scenarios (main args) =
       if arg_ramp args then [RampTest]
       else [SingleRequestTest; Sleep 1; RampTest]) /\
  (c <> 0 -> run_scenarios (main args) = [ConcurrentTest c (c * 5)]) /\
  (c < 0 -> start_concurrent c (Some (c * 5)) = Raise ValueError) /\
  (0 < c ->
     exists s0, start_concurrent c (Some (c * 5)) = Return s0 /\
                len (Limiter.tasks s0) = c * 5 /\
                forall k s, Limiter.steps k s0 s ->
                  Limiter.outstanding s <= c /\ len (Limiter.results s) <= c * 5).
Proof.
  intros Hs Hc. unfold main. cbn [run_scenarios]. rewrite Hs, Hc. cbn [truthy_int].
  split; [intros ->; reflexivity|].
  split.
  { intros Hne. destruct (Z.eqb_spec c 0); [contradiction|reflexivity]. }
  split.
  { intros Hneg. unfold start_concurrent, semaphore.
    destruct (Z.ltb_spec c 0); [reflexivity|lia]. }
  intros Hpos. unfold start_concurrent, semaphore.
  destruct (Z.ltb_spec c 0); [lia|]. cbn [bind].
  eexists. split; [reflexivity|].
  split; [apply (LimiterFacts.test_concurrent_tasks c (c * 5)); lia|].
  intros k s Hk.
  destruct (LimiterFacts.invariant_steps c (c * 5) _ k s
              (LimiterFacts.invariant_init c (c * 5) ltac:(lia) ltac:(lia)) Hk)
    as [(Hv & Hval & Hl & Hr) _].
  pose proof (LimiterFacts.count_phase_total (Limiter.tasks s)) as Ht.
  pose proof (LimiterFacts.count_phase_nonneg Limiter.Pending (Limiter.tasks s)).
  pose proof (LimiterFacts.count_phase_nonneg Limiter.Holding (Limiter.tasks s)).
  unfold Limiter.outstanding in *. lia.
Qed.

Lemma main_concurrent_option_witness :
  run_scenarios (main {| arg_single := false; arg_concurrent := Some 0;
                         arg_ramp := false; arg_url := None; arg_model := None |})
  = [SingleRequestTest; Sleep 1; RampTest].
Proof.
  destruct (main_concurrent_option
              {| arg_single := false; arg_concurrent := Some 0;
                 arg_ramp := false; arg_url := None; arg_model := None |} 0
              eq_refl eq_refl) as [H _].
  exact (H eq_refl).
Defined.

(** X21.  Throughout a run the [i]-th invocation carries the sentence at
    index [i mod 10] of the corpus: the index never leaves the corpus, the
    sentences repeat with period 10, and acquiring or releasing the
    semaphore changes no payload. *)
Theorem tasks_keep_sentences C N k s i t :
  Limiter.steps k (Limiter.test_concurrent C N) s ->
  nth_error (Limiter.tasks s) i = Some t ->
  Limiter.sentence t = Limiter.sentence_for i /\
  nth_error TEST_SENTENCES (i mod 10) = Some (Limiter.sentence t) /\
  forall t', nth_error (Limiter.tasks s) (i + 10) = Some t' ->
             Limiter.sentence t' = Limiter.sentence t.
Proof.
  intros Hk Ht.
  pose proof (LimiterRuns.steps_sentences _ _ _ Hk) as Hm.
  unfold Limiter.test_concurrent in Hm. cbn [Limiter.tasks] in Hm.
  rewrite map_map in Hm. cbn [Limiter.sentence] in Hm.
  assert (Hs : forall j u, nth_error (Limiter.tasks s) j = Some u ->
                           Limiter.sentence u = Limiter.sentence_for j).
  { intros j u Hu. apply (map_nth_error Limiter.sentence) in Hu.
    rewrite Hm, nth_error_map in Hu.
    destruct (nth_error (seq 0 _) j) as [j'|] eqn:Ej; [|discriminate Hu].
    apply LimiterRuns.nth_error_seq0 in Ej. subst j'.
    cbn [option_map] in Hu. congruence. }
  split; [apply Hs; exact Ht|]. split.
  - rewrite (Hs i t Ht). unfold Limiter.sentence_for.
    change (List.length TEST_SENTENCES) with 10%nat.
    apply nth_error_nth'. change (List.length TEST_SENTENCES) with 10%nat.
    apply Nat.mod_upper_bound. lia.
  - intros t' Ht'. rewrite (Hs _ _ Ht'), (Hs _ _ Ht).
    apply LimiterRuns.sentence_for_period.
Qed.

Lemma tasks_keep_sentences_witness :
  nth_error TEST_SENTENCES (12 mod 10) =
    Some "I use to make alot of mistakes but now im more confidant."%string.
Proof.
  destruct (tasks_keep_sentences 20 None 0 (Limiter.test_concurrent 20 None) 12
              {| Limiter.sentence := Limiter.sentence_for 12;
                 Limiter.stage := Limiter.Pending |})
    as (_ & H & _).
  - constructor.
  - reflexivity.
  - exact H.
Defined.

(** * The latency [make_request] measures *)

Lemma shl_align_spec mx ex ez :
  ez <= ex -> Zpos (fst (shl_align mx ex ez)) = Zpos mx * 2 ^ (ex - ez).
Proof.
  intros H. unfold shl_align. destruct (ez - ex) as [|d|d] eqn:E; cbn [fst].
  - replace (ex - ez) with 0 by lia. change (2 ^ 0) with 1. lia.
  - lia.
  - rewrite Pos_iter_xO. replace (ex - ez) with (Zpos d) by lia. reflexivity.
Qed.

Lemma shl_align_fexp_spec p e :
  -1074 <= e ->
  exists mz ez,
    shl_align p e (fexp prec emax (Zpos (digits2_pos p) + e)) = (mz, ez) /\
    -1074 <= ez /\ ez <= fexp prec emax (Zdigits2 (Zpos mz) + ez) /\
    Zpos mz * 2 ^ (ez + 1074) = Zpos p * 2 ^ (e + 1074).
Proof.
  intros He. pose proof (digits2_pos_bounds p) as [Hlo Hhi].
  set (d := Zpos (digits2_pos p)) in *.
  assert (Hd : 0 < d) by (unfold d; lia).
  set (f := fexp prec emax (d + e)).
  assert (Hf : f = Z.max (d + e - 53) (-1074)) by apply fexp_eq.
  unfold shl_align. destruct (f - e) as [|k|k] eqn:E.
  - exists p, e. split; [reflexivity|]. split; [exact He|]. split; [|reflexivity].
    change (Zdigits2 (Zpos p)) with d. fold f. lia.
  - exists p, e. split; [reflexivity|]. split; [exact He|]. split; [|reflexivity].
    change (Zdigits2 (Zpos p)) with d. fold f. lia.
  - exists (Pos.iter xO p k), f. split; [reflexivity|].
    assert (Hk : Zpos k = e - f) by lia.
    pose proof (pow2_pos (Zpos k) ltac:(lia)) as Hpk.
    assert (Hdig : Zdigits2 (Zpos (Pos.iter xO p k)) = d + Zpos k).
    { apply Zdigits2_unique; [lia|]. rewrite Pos_iter_xO.
      replace (d + Zpos k - 1) with ((d - 1) + Zpos k) by lia.
      rewrite !Z.pow_add_r by lia. split.
      - apply Z.mul_le_mono_nonneg_r; lia.
      - apply Z.mul_lt_mono_pos_r; lia. }
    split; [lia|]. split.
    + rewrite Hdig. replace (d + Zpos k + f) with (d + e) by lia. fold f. lia.
    + rewrite Pos_iter_xO, Hk.
      rewrite (pow2_split (e + 1074) (f + 1074)) by lia.
      replace (e + 1074 - (f + 1074)) with (e - f) by lia. ring.
Qed.

Lemma binary_round_between p e B :
  -1074 <= e -> wf B = true -> Zpos p * 2 ^ (e + 1074) <= scaled B ->
  wf (binary_round prec emax false p e) = true /\
  scaled (binary_round prec emax false p e) <= scaled B /\
  forall A, wf A = true -> scaled A <= Zpos p * 2 ^ (e + 1074) ->
            scaled A <= scaled (binary_round prec emax false p e).
Proof.
  intros He HB Hle. unfold binary_round.
  destruct (shl_align_fexp_spec p e He) as (mz & ez & -> & Hez & Hfz & Hv).
  rewrite <- Hv in Hle. rewrite <- Hv.
  assert (Hex : (Zpos mz + loc_excess loc_Exact) * 2 ^ (ez + 1074) <= scaled B).
  { cbn [loc_excess]. rewrite Z.add_0_r. exact Hle. }
  destruct (round_between (Zpos mz) ez loc_Exact B ltac:(lia) Hez Hfz HB Hex)
    as (Hw & Hu & Hl).
  split; [exact Hw|]. split; [exact Hu|exact Hl].
Qed.

Lemma scaled_finite_pos m e :
  bounded prec emax m e = true -> 0 < scaled (S754_finite false m e).
Proof.
  intros Hb. apply bounded_inv in Hb. cbn [scaled cond_Zopp].
  pose proof (pow2_pos (e + 1074) ltac:(lia)). lia.
Qed.

Lemma scaled_finite_split mx ex ez :
  -1074 <= ez <= ex ->
  Zpos mx * 2 ^ (ex + 1074) = Zpos mx * 2 ^ (ex - ez) * 2 ^ (ez + 1074).
Proof.
  intros H. rewrite (pow2_split (ex + 1074) (ez + 1074)) by lia.
  replace (ex + 1074 - (ez + 1074)) with (ex - ez) by lia. ring.
Qed.

(** The float difference of two well-formed floats, the larger first, is
    the exact difference rounded: it lies between any two well-formed floats
    that enclose the exact difference. *)
Lemma fsub_between x y :
  wf x = true -> wf y = true -> scaled y <= scaled x ->
  wf (fsub x y) = true /\
  (forall B, wf B = true -> scaled x - scaled y <= scaled B ->
             scaled (fsub x y) <= scaled B) /\
  (forall A, wf A = true -> scaled A <= scaled x - scaled y ->
             scaled A <= scaled (fsub x y)).
Proof.
  intros Hx Hy Hle.
  destruct (wf_inv x Hx) as [->|(mx & ex & -> & Hbx)];
    destruct (wf_inv y Hy) as [->|(my & ey & -> & Hby)].
  - split; [reflexivity|].
    split; intros C HC H; pose proof (wf_scaled_nonneg C HC); cbn in *; lia.
  - pose proof (scaled_finite_pos my ey Hby) as Hp. cbn [scaled cond_Zopp] in Hle, Hp. lia.
  - change (fsub (S754_finite false mx ex) (S754_zero false))
      with (S754_finite false mx ex).
    split; [exact Hx|]. split; intros C HC H; cbn [scaled] in *; lia.
  - unfold fsub, SFsub. cbn [cond_Zopp].
    pose proof (bounded_inv mx ex Hbx) as (Hex & _).
    pose proof (bounded_inv my ey Hby) as (Hey & _).
    set (ez := Z.min ex ey).
    rewrite !shl_align_spec by (unfold ez; lia).
    assert (HD : scaled (S754_finite false mx ex) - scaled (S754_finite false my ey) =
                 (Zpos mx * 2 ^ (ex - ez) - Zpos my * 2 ^ (ey - ez)) * 2 ^ (ez + 1074)).
    { cbn [scaled cond_Zopp].
      rewrite (scaled_finite_split mx ex ez), (scaled_finite_split my ey ez)
        by (unfold ez; lia). ring. }
    pose proof (pow2_pos (ez + 1074) ltac:(unfold ez; lia)) as HP.
    set (D := scaled (S754_finite false mx ex) - scaled (S754_finite false my ey)) in *.
    assert (HD0 : 0 <= D) by (unfold D; lia).
    destruct (Zpos mx * 2 ^ (ex - ez) - Zpos my * 2 ^ (ey - ez)) as [|p|p] eqn:EM;
      unfold binary_normalize.
    + split; [reflexivity|].
      split; intros C HC H; pose proof (wf_scaled_nonneg C HC); cbn [scaled]; lia.
    + destruct (binary_round_between p ez (S754_finite false mx ex))
        as (Hw & _ & Hl); [unfold ez; lia|exact Hx| |].
      { rewrite <- HD. unfold D. pose proof (scaled_finite_pos my ey Hby). lia. }
      split; [exact Hw|]. split.
      * intros B HB H.
        destruct (binary_round_between p ez B) as (_ & Hu & _);
          [unfold ez; lia|exact HB|rewrite <- HD; exact H|exact Hu].
      * intros A HA H. apply Hl; [exact HA|rewrite <- HD; exact H].
    + exfalso. assert (Zneg p * 2 ^ (ez + 1074) < 0) by (apply Z.mul_neg_pos; lia). lia.
Qed.

Lemma of_int_1000 : of_int 1000 = S754_finite false 8796093022208000 (-43).
Proof. reflexivity. Qed.

(** Scaling by 1000 a difference that is zero or not below [2^-979]. *)
Lemma fmul_1000_between r B :
  wf r = true -> wf B = true -> 1000 * scaled r <= scaled B ->
  scaled r = 0 \/ 2 ^ 95 <= scaled r ->
  wf (fmul r (of_int 1000)) = true /\
  scaled r <= scaled (fmul r (of_int 1000)) <= scaled B.
Proof.
  intros Hr HB Hle Hlow. rewrite of_int_1000.
  destruct (wf_inv r Hr) as [->|(m & e & -> & Hb)].
  - split; [reflexivity|]. cbn. pose proof (wf_scaled_nonneg B HB). lia.
  - pose proof (scaled_finite_pos m e Hb) as Hpos.
    destruct Hlow as [H0|Hlow]; [lia|].
    pose proof (bounded_inv m e Hb) as (He & Hm & _).
    assert (He' : -1031 <= e).
    { destruct (Z_lt_le_dec e (-1031)) as [Hlt|]; [|assumption].
      pose proof (grid_lt (Zpos m) e (2 ^ 52) (-1031) ltac:(lia) Hlt ltac:(lia) ltac:(lia)) as G.
      cbn [scaled cond_Zopp] in Hlow.
      change (2 ^ 52 * 2 ^ (-1031 + 1074)) with (2 ^ 95) in G. lia. }
    unfold fmul, SFmul. cbn [xorb].
    assert (HM : Zpos (m * 8796093022208000) * 2 ^ (e + -43 + 1074) =
                 1000 * (Zpos m * 2 ^ (e + 1074))).
    { rewrite Pos2Z.inj_mul, (pow2_split (e + 1074) 43) by lia.
      replace (e + -43 + 1074) with (e + 1074 - 43) by lia.
      change (Zpos 8796093022208000) with (1000 * 2 ^ 43). ring. }
    cbn [scaled cond_Zopp] in Hle, Hpos |- *.
    destruct (round_between (Zpos (m * 8796093022208000)) (e + -43) loc_Exact B)
      as (Hw & Hu & Hl); try lia; try assumption.
    + rewrite fexp_eq.
      assert (52 < Zdigits2 (Zpos (m * 8796093022208000))); [|lia].
      pose proof (Zdigits2_bounds (Zpos (m * 8796093022208000)) ltac:(lia)) as [_ Hd].
      apply (Z.pow_lt_mono_r_iff 2); [lia|apply Zdigits2_nonneg|].
      rewrite Pos2Z.inj_mul in *.
      assert (2 ^ 52 <= Zpos m * 8796093022208000); [|lia].
      change (2 ^ 52) with (1 * 4503599627370496). apply Z.mul_le_mono_nonneg; lia.
    + cbn [loc_excess]. rewrite Z.add_0_r, HM. exact Hle.
    + split; [exact Hw|]. split; [|exact Hu].
      apply (Hl (S754_finite false m e)); [exact Hr|].
      cbn [scaled cond_Zopp]. rewrite HM. lia.
Qed.

Lemma clock_reading_inv x :
  clock_reading x = true ->
  wf x = true /\ (exists k, scaled x = k * 2 ^ 95) /\
  scaled x <= 2 ^ 40 * 2 ^ 1074.
Proof.
  unfold clock_reading. rewrite !andb_true_iff, orb_true_iff.
  intros [[Hw Hz] Hu]. split; [exact Hw|].
  destruct (of_int_exact (2 ^ 40) ltac:(lia)) as [W40 S40].
  rewrite (fleb_scaled x _ Hw W40), S40 in Hu. apply Z.leb_le in Hu.
  split; [|exact Hu].
  destruct (wf_inv x Hw) as [->|(m & e & -> & Hb)]; [exists 0; reflexivity|].
  destruct Hz as [Hz|Hz]; [discriminate Hz|].
  assert (Wf : wf clock_floor = true) by reflexivity.
  rewrite (fleb_scaled _ _ Wf Hw) in Hz. apply Z.leb_le in Hz.
  pose proof (bounded_inv m e Hb) as (He & Hm & _).
  assert (He' : -979 <= e).
  { destruct (Z_lt_le_dec e (-979)) as [Hlt|]; [|assumption].
    pose proof (grid_lt (Zpos m) e (2 ^ 52) (-979) ltac:(lia) Hlt ltac:(lia) ltac:(lia)) as G.
    cbn [scaled cond_Zopp clock_floor] in Hz.
    change (Zpos 4503599627370496) with (2 ^ 52) in Hz. lia. }
  exists (Zpos m * 2 ^ (e + 979)). cbn [scaled cond_Zopp].
  rewrite (pow2_split (e + 1074) 95) by lia.
  replace (e + 1074 - 95) with (e + 979) by lia. ring.
Qed.

Lemma elapsed_ms_wf start now :
  clock_reading start = true -> clock_reading now = true ->
  fleb start now = true ->
  wf (elapsed_ms start now) = true /\
  (is_zero (elapsed_ms start now) = true <-> start = now).
Proof.
  intros Hs Hn Hle.
  destruct (clock_reading_inv _ Hs) as (Ws & (ks & Ks) & Us).
  destruct (clock_reading_inv _ Hn) as (Wn & (kn & Kn) & Un).
  rewrite (fleb_scaled _ _ Ws Wn) in Hle. apply Z.leb_le in Hle.
  destruct (fsub_between now start Wn Ws Hle) as (Wr & Hup & Hlow).
  pose proof (wf_scaled_nonneg _ Ws) as Ns.
  pose proof (wf_scaled_nonneg _ (Wr)) as Nr.
  pose proof (Hup now Wn ltac:(lia)) as Hr_now.
  assert (A95 : wf (S754_finite false 4503599627370496 (-1031)) = true /\
                scaled (S754_finite false 4503599627370496 (-1031)) = 2 ^ 95)
    by (split; reflexivity).
  destruct A95 as [WA SA].
  assert (Hgrid : scaled now - scaled start = 0 \/ 2 ^ 95 <= scaled now - scaled start).
  { rewrite Ks, Kn. replace (kn * 2 ^ 95 - ks * 2 ^ 95) with ((kn - ks) * 2 ^ 95) by ring.
    rewrite Ks, Kn in Hle. assert (0 < 2 ^ 95) by lia.
    destruct (Z.eq_dec kn ks) as [->|Hne]; [left; lia|right].
    assert (1 <= kn - ks) by nia.
    change (2 ^ 95) with (1 * 2 ^ 95) at 1. apply Z.mul_le_mono_nonneg_r; lia. }
  assert (Hrgrid : scaled (fsub now start) = 0 \/ 2 ^ 95 <= scaled (fsub now start)).
  { destruct Hgrid as [H0|H95].
    - left. specialize (Hup pzero eq_refl). cbn [scaled pzero] in Hup. lia.
    - right. rewrite <- SA. apply Hlow; [exact WA|]. rewrite SA. exact H95. }
  destruct (of_int_exact (2 ^ 50) ltac:(lia)) as [W50 S50].
  destruct (fmul_1000_between (fsub now start) (of_int (2 ^ 50)) Wr W50) as (We & Hlo & _).
  { rewrite S50. pose proof (pow2_pos 1074 ltac:(lia)) as HP.
    generalize dependent (2 ^ 1074). intros P. intros. 
    change (2 ^ 50) with (1024 * 2 ^ 40). change (2 ^ 40) with 1099511627776 in *. lia. }
  { exact Hrgrid. }
  unfold elapsed_ms. split; [exact We|]. split.
  - intros Hz.
    assert (Hz0 : scaled (fmul (fsub now start) (of_int 1000)) = 0).
    { destruct (fmul (fsub now start) (of_int 1000)); try discriminate Hz; reflexivity. }
    apply scaled_inj; [exact Ws|exact Wn|].
    destruct Hgrid as [H0|H95]; [lia|].
    destruct Hrgrid as [Hr0|Hr95]; [|lia].
    assert (2 ^ 95 <= scaled (fsub now start)); [|lia].
    rewrite <- SA. apply Hlow; [exact WA|]. rewrite SA. exact H95.
  - intros ->.
    assert (Hr0 : scaled (fsub now now) = 0).
    { specialize (Hup pzero eq_refl). cbn [scaled pzero] in Hup. lia. }
    assert (Er : fsub now now = pzero).
    { apply scaled_inj; [exact Wr|reflexivity|rewrite Hr0; reflexivity]. }
    rewrite Er. reflexivity.
Qed.

(** X19.  The latency of a result is never negative, infinite or NaN: for
    two readings of a monotonic clock, the second not before the first,
    [make_request] records a well-formed latency, whatever the outcome of
    the request, and this latency is zero exactly when the two readings are
    the same. *)
Theorem make_request_latency start now o r :
  clock_reading start = true -> clock_reading now = true ->
  fleb start now = true ->
  make_request start now o = Return r ->
  wf (latency_ms r) = true /\
  fleb pzero (latency_ms r) = true /\
  (is_zero (latency_ms r) = true <-> start = now).
Proof.
  intros Hs Hn Hle Hr.
  destruct (elapsed_ms_wf start now Hs Hn Hle) as [Hw Hz].
  assert (El : latency_ms r = elapsed_ms start now).
  { unfold make_request in Hr. destruct o as [code|cls msg].
    - destruct (code =? 200); injection Hr as <-; reflexivity.
    - destruct (is_Exception cls); [|discriminate Hr]. injection Hr as <-. reflexivity. }
  rewrite El. split; [exact Hw|]. split; [|exact Hz].
  rewrite (fleb_scaled pzero _ eq_refl Hw). apply Z.leb_le.
  apply (wf_scaled_nonneg _ Hw).
Qed.

Lemma make_request_latency_witness :
  exists r, make_request (of_int 1) (of_int 3) (Responded 503) = Return r /\
            wf (latency_ms r) = true.
Proof.
  exists {| latency_ms := elapsed_ms (of_int 1) (of_int 3); success := false;
            error := Some "HTTP 503"%string |}.
  split; [reflexivity|].
  apply (make_request_latency (of_int 1) (of_int 3) (Responded 503));
    reflexivity.
Defined.

Lemma single_loop_inv calls indices : forall acc rs',
  single_loop calls indices acc = Return rs' ->
  exists rs, rs' = acc ++ rs /\
             Forall2 (fun i r => request (calls i) = Return r) indices rs.
Proof.
  induction indices as [|i indices IH]; intros acc rs'; cbn [single_loop].
  - intros E. injection E as <-. exists []. rewrite app_nil_r. split; [reflexivity|constructor].
  - destruct (request (calls i)) as [r|] eqn:Er; cbn [bind]; [|discriminate].
    intros E. destruct (IH _ _ E) as (rs & -> & Hf).
    exists (r :: rs). rewrite <- app_assoc. split; [reflexivity|].
    constructor; assumption.
Qed.

Lemma requests_wf (calls : nat -> call) (indices : list nat) (rs : list RequestResult) :
  Forall2 (fun i r => request (calls i) = Return r) indices rs ->
  (forall i, In i indices ->
     clock_reading (started (calls i)) = true /\
     clock_reading (ended (calls i)) = true /\
     fleb (started (calls i)) (ended (calls i)) = true) ->
  Forall (fun r => wf (latency_ms r) = true) rs.
Proof.
  induction 1 as [|i r indices rs Hr _ IH]; intros H; constructor.
  - destruct (H i (or_introl eq_refl)) as (Hs & He & Hle).
    unfold request, make_request in Hr.
    destruct (elapsed_ms_wf _ _ Hs He Hle) as [Hw _].
    destruct (answer (calls i)) as [code|cls msg].
    + destruct (code =? 200); injection Hr as <-; exact Hw.
    + destruct (is_Exception cls); [|discriminate Hr]. injection Hr as <-. exact Hw.
  - apply IH. intros j Hj. apply H. right. exact Hj.
Qed.

(** X20.  What the single-request test hands to the statistics: when every
    request is timed by two readings of a monotonic clock, all five
    latencies are well-formed floats, so that the results meet what
    [calculate_stats] needs for its percentiles and their ordering. *)
Theorem single_test_latencies calls rs :
  (forall i, (i < 5)%nat ->
     clock_reading (started (calls i)) = true /\
     clock_reading (ended (calls i)) = true /\
     fleb (started (calls i)) (ended (calls i)) = true) ->
  test_single_request calls = Return rs ->
  Forall (fun r => wf (latency_ms r) = true) rs /\
  Forall (fun x => wf x = true) (successful_latencies rs).
Proof.
  intros H Ht. unfold test_single_request in Ht.
  destruct (single_loop_inv _ _ _ _ Ht) as (rs0 & -> & Hf). cbn [app].
  assert (Hall : Forall (fun r => wf (latency_ms r) = true) rs0).
  { apply (requests_wf calls (seq 0 5)); [exact Hf|].
    intros i Hi. apply in_seq in Hi. apply H. lia. }
  split; [exact Hall|].
  unfold successful_latencies. clear - Hall.
  induction Hall as [|r rs1 Hr _ IH]; [constructor|].
  cbn [filter]. destruct (success r); cbn [map]; [constructor; assumption|exact IH].
Qed.

Lemma single_test_latencies_witness :
  exists rs,
    test_single_request
      (fun i => {| started := of_int 1; ended := of_int (2 + Z.of_nat i);
                   answer := Responded 200 |}) = Return rs /\
    Forall (fun x => wf x = true) (successful_latencies rs).
Proof.
  destruct (test_single_request
              (fun i => {| started := of_int 1; ended := of_int (2 + Z.of_nat i);
                           answer := Responded 200 |})) as [rs|] eqn:E;
    [|vm_compute in E; discriminate E].
  exists rs. split; [reflexivity|].
  apply (single_test_latencies _ rs) in E; [apply E|].
  intros i Hi. cbn [started ended].
  destruct i as [|[|[|[|[|i]]]]]; [..|lia]; repeat split; reflexivity.
Defined.
